(** * GLFundamentals.hpp: vectors, matrices and the shader build pipeline

    A shallow embedding of [src/GLFundamentals.hpp] (namespace [gl]).

    - [GLfloat] is IEEE-754 binary32.  Its values are [spec_float]s and its
      operations are the Standard Library's executable specification of
      IEEE arithmetic ([SpecFloat]) at precision 24 and maximal exponent
      128, rounding to nearest, ties to even.  Every arithmetic operator
      of the source is one correctly rounded binary32 operation (no fused
      multiply-add, no excess precision).
    - [double] literals and the products they take part in ([to_radians],
      [to_degrees]) are binary64 (precision 53, maximal exponent 1024).
    - [cos], [sin] and [tan] are the C library's functions on [double],
      parameters of which nothing is assumed.  A rotation converts the
      value of [cos] or [sin] to the [GLfloat] entry it becomes: there
      the parameter is the function from the [GLfloat] angle to that
      entry.  [perspective] multiplies the value of [tan] in double
      precision: there the parameter is the function on [double].
    - The C library, the file system and the OpenGL driver are external:
      the pipeline is a program over the calls it makes, run against an
      arbitrary environment that answers them.
    - [check], which no function of the header calls, ends in [abort()]
      on an error: it is a function of the answer of [glGetError()] to
      what it writes and whether it aborts. *)

From Stdlib Require Import ZArith Bool List String Ascii Lia.
From Stdlib Require Import SpecFloat.
From Stdlib Require Import Reals Lra.
From Stdlib Require Import DecimalString Permutation.
Import ListNotations.

Local Open Scope Z_scope.

(* ================================================================== *)
(** * Part I: the embedding                                            *)
(* ================================================================== *)

(** ** Floating point *)

Definition GLfloat := spec_float.

Definition prec32 : Z := 24.
Definition emax32 : Z := 128.
Definition prec64 : Z := 53.
Definition emax64 : Z := 1024.

Definition fadd : GLfloat -> GLfloat -> GLfloat := SFadd prec32 emax32.
Definition fsub : GLfloat -> GLfloat -> GLfloat := SFsub prec32 emax32.
Definition fmul : GLfloat -> GLfloat -> GLfloat := SFmul prec32 emax32.
Definition fdiv : GLfloat -> GLfloat -> GLfloat := SFdiv prec32 emax32.
Definition fneg : GLfloat -> GLfloat := SFopp.
Definition fabs : GLfloat -> GLfloat := SFabs.
Definition fsqrt : GLfloat -> GLfloat := SFsqrt prec32 emax32.

(** [x > y], [x == y] of C++: false as soon as an operand is a NaN. *)
Definition fgtb (x y : GLfloat) : bool := SFltb y x.
Definition feqb (x y : GLfloat) : bool := SFeqb x y.

(** Conversion of an [int] to [GLfloat] (the literals [0], [1], [2], [-1]
    of the source are [int]s used where a [GLfloat] is expected). *)
Definition of_int (z : Z) : GLfloat := binary_normalize prec32 emax32 z 0 false.

(** A well-formed binary32 datum: a finite value carries its canonical
    mantissa and exponent. *)
Definition valid32 (x : GLfloat) : bool := valid_binary prec32 emax32 x.

Definition is_finite (x : GLfloat) : bool :=
  match x with
  | S754_zero _ | S754_finite _ _ _ => true
  | S754_infinity _ | S754_nan => false
  end.

Definition is_zero (x : GLfloat) : bool :=
  match x with S754_zero _ => true | _ => false end.

(** Two results are numerically the same when they are the same datum, or
    both are zeros (which may differ in sign only). *)
Definition same_value (x y : GLfloat) : Prop :=
  x = y \/ (is_zero x = true /\ is_zero y = true).

(** A well-formed finite number of magnitude below [2^127]: its double
    is finite. *)
Definition doubles_finitely (x : GLfloat) : bool :=
  match x with
  | S754_zero _ => true
  | S754_finite _ m e => SpecFloat.bounded prec32 emax32 m e && (e <=? 103)
  | _ => false
  end.

(** The quotient, exponent and location that [SFdiv_core_binary] hands to
    the rounding, with [D] the difference of the operands' magnitudes. *)
Definition div_triple (m1 e1 m2 e2 D : Z) : Z * Z * location :=
  let e' := Z.min (fexp prec32 emax32 D) (e1 - e2) in
  let s := e1 - e2 - e' in
  let m' := match s with
            | Zpos _ => Z.shiftl m1 s
            | Z0 => m1
            | Zneg _ => 0
            end in
  (m' / m2, e', new_location m2 (m' mod m2)).

Definition round_triple (sx : bool) (t : Z * Z * location) : GLfloat :=
  let '(mz, ez, lz) := t in binary_round_aux prec32 emax32 sx mz ez lz.

Declare Scope f32_scope.
Delimit Scope f32_scope with f32.
Bind Scope f32_scope with GLfloat.
Infix "+" := fadd : f32_scope.
Infix "-" := fsub : f32_scope.
Infix "*" := fmul : f32_scope.
Infix "/" := fdiv : f32_scope.
Notation "- x" := (fneg x) : f32_scope.
Notation "0" := (of_int 0) : f32_scope.
Notation "1" := (of_int 1) : f32_scope.
Notation "2" := (of_int 2) : f32_scope.

(** *** [double] *)

Definition double := spec_float.

Definition dmul : double -> double -> double := SFmul prec64 emax64.
Definition ddiv : double -> double -> double := SFdiv prec64 emax64.
Definition double_of_int (z : Z) : double :=
  binary_normalize prec64 emax64 z 0 false.

(** The promotion of a [GLfloat] operand to [double] (exact) and the
    conversion of a [double] result back to [GLfloat] (rounding). *)
Definition double_of_float (x : GLfloat) : double :=
  match x with
  | S754_finite s m e =>
      binary_normalize prec64 emax64 (cond_Zopp s (Zpos m)) e s
  | _ => x
  end.

Definition float_of_double (x : double) : GLfloat :=
  match x with
  | S754_finite s m e =>
      binary_normalize prec32 emax32 (cond_Zopp s (Zpos m)) e s
  | _ => x
  end.

(** A decimal literal [n / 10^k] of type [double]: the double nearest to
    it.  Both [n] and [10^k] are below [2^53], hence exact doubles, and the
    IEEE quotient of two doubles is the double nearest to their ratio. *)
Definition double_literal (n : Z) (k : Z) : double :=
  ddiv (double_of_int n) (double_of_int (10 ^ k)).

(** The real number a finite datum stands for. *)
Definition SF2R (x : spec_float) : R :=
  match x with
  | S754_finite s m e =>
      let v := if 0 <=? e then IZR (Zpos m * 2 ^ e)
               else (IZR (Zpos m) / IZR (2 ^ (- e)))%R in
      if s then (- v)%R else v
  | _ => 0%R
  end.

(** ** Vectors and matrices *)

(** [struct vec3 { GLfloat v[3]; }] and [struct vec4 { GLfloat v[4]; }]. *)
Record vec3 := Vec3 { v3_0 : GLfloat; v3_1 : GLfloat; v3_2 : GLfloat }.
Record vec4 := Vec4 { v4_0 : GLfloat; v4_1 : GLfloat; v4_2 : GLfloat;
                      v4_3 : GLfloat }.

(** [struct mat3 { vec3 M[3]; }] and [struct mat4 { vec4 M[4]; }]: rows. *)
Record mat3 := Mat3 { m3_0 : vec3; m3_1 : vec3; m3_2 : vec3 }.
Record mat4 := Mat4 { m4_0 : vec4; m4_1 : vec4; m4_2 : vec4; m4_3 : vec4 }.

Section Constructors.
Local Open Scope f32_scope.

(** [vec3::vec3()], [vec4::vec4()]. *)
Definition vec3_default : vec3 := Vec3 0 0 0.
Definition vec4_default : vec4 := Vec4 0 0 0 0.

(** [mat3::mat3()], [mat4::mat4()]. *)
Definition mat3_default : mat3 :=
  Mat3 (Vec3 1 0 0) (Vec3 0 1 0) (Vec3 0 0 1).
Definition mat4_default : mat4 :=
  Mat4 (Vec4 1 0 0 0) (Vec4 0 1 0 0) (Vec4 0 0 1 0) (Vec4 0 0 0 1).

(** The nine- and sixteen-argument constructors, row by row. *)
Definition mat3_of (m00 m01 m02 m10 m11 m12 m20 m21 m22 : GLfloat) : mat3 :=
  Mat3 (Vec3 m00 m01 m02) (Vec3 m10 m11 m12) (Vec3 m20 m21 m22).
Definition mat4_of (m00 m01 m02 m03 m10 m11 m12 m13
                    m20 m21 m22 m23 m30 m31 m32 m33 : GLfloat) : mat4 :=
  Mat4 (Vec4 m00 m01 m02 m03) (Vec4 m10 m11 m12 m13)
       (Vec4 m20 m21 m22 m23) (Vec4 m30 m31 m32 m33).
End Constructors.

(** [operator[]]: an index outside the array is undefined behaviour in
    the source and [None] here. *)
Definition vec3_get (v : vec3) (i : Z) : option GLfloat :=
  match i with
  | 0 => Some (v3_0 v) | 1 => Some (v3_1 v) | 2 => Some (v3_2 v)
  | _ => None
  end.

Definition vec4_get (v : vec4) (i : Z) : option GLfloat :=
  match i with
  | 0 => Some (v4_0 v) | 1 => Some (v4_1 v) | 2 => Some (v4_2 v)
  | 3 => Some (v4_3 v)
  | _ => None
  end.

Definition mat3_get (M : mat3) (i : Z) : option vec3 :=
  match i with
  | 0 => Some (m3_0 M) | 1 => Some (m3_1 M) | 2 => Some (m3_2 M)
  | _ => None
  end.

Definition mat4_get (M : mat4) (i : Z) : option vec4 :=
  match i with
  | 0 => Some (m4_0 M) | 1 => Some (m4_1 M) | 2 => Some (m4_2 M)
  | 3 => Some (m4_3 M)
  | _ => None
  end.

(** [M[i][j]]. *)
Definition mat3_elt (M : mat3) (i j : Z) : option GLfloat :=
  match mat3_get M i with Some r => vec3_get r j | None => None end.
Definition mat4_elt (M : mat4) (i j : Z) : option GLfloat :=
  match mat4_get M i with Some r => vec4_get r j | None => None end.

(** [operator const GLfloat*]: the row-major buffer handed to the driver. *)
Definition vec3_buffer (v : vec3) : list GLfloat := [v3_0 v; v3_1 v; v3_2 v].
Definition vec4_buffer (v : vec4) : list GLfloat :=
  [v4_0 v; v4_1 v; v4_2 v; v4_3 v].
Definition mat3_buffer (M : mat3) : list GLfloat :=
  vec3_buffer (m3_0 M) ++ vec3_buffer (m3_1 M) ++ vec3_buffer (m3_2 M).
Definition mat4_buffer (M : mat4) : list GLfloat :=
  vec4_buffer (m4_0 M) ++ vec4_buffer (m4_1 M) ++ vec4_buffer (m4_2 M)
  ++ vec4_buffer (m4_3 M).

(** Component-wise [==]. *)
Definition vec4_eqb (v w : vec4) : bool :=
  feqb (v4_0 v) (v4_0 w) && feqb (v4_1 v) (v4_1 w)
  && feqb (v4_2 v) (v4_2 w) && feqb (v4_3 v) (v4_3 w).

(** A vector of four well-formed finite numbers (no infinity, no NaN). *)
Definition vec4_finite (v : vec4) : bool :=
  (valid32 (v4_0 v) && is_finite (v4_0 v))
  && (valid32 (v4_1 v) && is_finite (v4_1 v))
  && (valid32 (v4_2 v) && is_finite (v4_2 v))
  && (valid32 (v4_3 v) && is_finite (v4_3 v)).

Definition vec4_same (v w : vec4) : Prop :=
  same_value (v4_0 v) (v4_0 w) /\ same_value (v4_1 v) (v4_1 w)
  /\ same_value (v4_2 v) (v4_2 w) /\ same_value (v4_3 v) (v4_3 w).

(** Two matrices are numerically the same when their sixteen entries
    are. *)
Definition mat4_same (A B : mat4) : Prop :=
  Forall2 same_value (mat4_buffer A) (mat4_buffer B).

(** ** The algebra *)

(** [0.01745329] and [57.2957795], literals of type [double]. *)
Definition lit_0_01745329 : double := double_literal 1745329 8.
Definition lit_57_2957795 : double := double_literal 572957795 7.

(** [degrees * 0.01745329]: the operand is promoted, the product is a
    [double], the [return] converts it to [GLfloat]. *)
Definition to_radians (degrees : GLfloat) : GLfloat :=
  float_of_double (dmul (double_of_float degrees) lit_0_01745329).

Definition to_degrees (radians : GLfloat) : GLfloat :=
  float_of_double (dmul (double_of_float radians) lit_57_2957795).

Section Algebra.
Local Open Scope f32_scope.

(** The C library's [cos] and [sin], from the [GLfloat] angle of a
    rotation to the [GLfloat] entry that the [double] result is
    converted to, and its [tan] on [double]; nothing is assumed of
    them. *)
Variables cosf sinf : GLfloat -> GLfloat.
Variable tan : double -> double.

(** [operator+], [operator-], [operator/], [operator*] on [vec3]. *)
Definition vec3_add (v w : vec3) : vec3 :=
  let '(Vec3 v0 v1 v2) := v in
  let '(Vec3 w0 w1 w2) := w in
  Vec3 (v0 + w0) (v1 + w1) (v2 + w2).

Definition vec3_sub (v w : vec3) : vec3 :=
  let '(Vec3 v0 v1 v2) := v in
  let '(Vec3 w0 w1 w2) := w in
  Vec3 (v0 - w0) (v1 - w1) (v2 - w2).

Definition vec3_div (v : vec3) (k : GLfloat) : vec3 :=
  let '(Vec3 v0 v1 v2) := v in
  Vec3 (v0 / k) (v1 / k) (v2 / k).

Definition vec3_scale (v : vec3) (k : GLfloat) : vec3 :=
  let '(Vec3 v0 v1 v2) := v in
  Vec3 (v0 * k) (v1 * k) (v2 * k).

(** The dot products [operator*(vec3, vec3)], [operator*(vec4, vec4)]. *)
Definition vec3_dot (v w : vec3) : GLfloat :=
  let '(Vec3 v0 v1 v2) := v in
  let '(Vec3 w0 w1 w2) := w in
  v0 * w0 + v1 * w1 + v2 * w2.

Definition vec4_dot (v w : vec4) : GLfloat :=
  let '(Vec4 v0 v1 v2 v3) := v in
  let '(Vec4 w0 w1 w2 w3) := w in
  v0 * w0 + v1 * w1 + v2 * w2 + v3 * w3.

(** [operator*(mat3, vec3)], [operator*(mat4, vec4)]. *)
Definition mat3_mul_vec3 (A : mat3) (v : vec3) : vec3 :=
  let '(Mat3 A0 A1 A2) := A in
  Vec3 (vec3_dot A0 v) (vec3_dot A1 v) (vec3_dot A2 v).

Definition mat4_mul_vec4 (A : mat4) (v : vec4) : vec4 :=
  let '(Mat4 A0 A1 A2 A3) := A in
  Vec4 (vec4_dot A0 v) (vec4_dot A1 v) (vec4_dot A2 v) (vec4_dot A3 v).

(** [operator*(mat3, mat3)], [operator*(mat4, mat4)]: the two loops
    assign every [M[i][j]] once, here row by row. *)
Definition mat3_mul (A B : mat3) : mat3 :=
  let '(Mat3 B0 B1 B2) := B in
  let row (Ai : vec3) : vec3 :=
    let '(Vec3 a0 a1 a2) := Ai in
    let elt (j : vec3 -> GLfloat) := a0 * j B0 + a1 * j B1 + a2 * j B2 in
    Vec3 (elt v3_0) (elt v3_1) (elt v3_2) in
  let '(Mat3 A0 A1 A2) := A in
  Mat3 (row A0) (row A1) (row A2).

Definition mat4_mul (A B : mat4) : mat4 :=
  let '(Mat4 B0 B1 B2 B3) := B in
  let row (Ai : vec4) : vec4 :=
    let '(Vec4 a0 a1 a2 a3) := Ai in
    let elt (j : vec4 -> GLfloat) :=
      a0 * j B0 + a1 * j B1 + a2 * j B2 + a3 * j B3 in
    Vec4 (elt v4_0) (elt v4_1) (elt v4_2) (elt v4_3) in
  let '(Mat4 A0 A1 A2 A3) := A in
  Mat4 (row A0) (row A1) (row A2) (row A3).

Definition length (v : vec3) : GLfloat := fsqrt (vec3_dot v v).

Definition cross (v w : vec3) : vec3 :=
  let '(Vec3 v0 v1 v2) := v in
  let '(Vec3 w0 w1 w2) := w in
  Vec3 (v1 * w2 - v2 * w1) (v2 * w0 - v0 * w2) (v0 * w1 - v1 * w0).

Definition normalize (v : vec3) : vec3 := vec3_div v (length v).

Definition xrotation (a : GLfloat) : mat4 :=
  mat4_of 1 0        0          0
          0 (cosf a) (- sinf a) 0
          0 (sinf a) (cosf a)   0
          0 0        0          1.

Definition yrotation (a : GLfloat) : mat4 :=
  mat4_of (cosf a)   0 (sinf a) 0
          0          1 0        0
          (- sinf a) 0 (cosf a) 0
          0          0 0        1.

Definition zrotation (a : GLfloat) : mat4 :=
  mat4_of (cosf a) (- sinf a) 0 0
          (sinf a) (cosf a)   0 0
          0        0          1 0
          0        0          0 1.

Definition translation (v : vec3) : mat4 :=
  let '(Vec3 v0 v1 v2) := v in
  mat4_of 1 0 0 v0
          0 1 0 v1
          0 0 1 v2
          0 0 0 1.

Definition scale (v : vec3) : mat4 :=
  let '(Vec3 v0 v1 v2) := v in
  mat4_of v0 0  0  0
          0  v1 0  0
          0  0  v2 0
          0  0  0  1.

(** The local [y] of [perspective(v, a, n, f)], [n * tan(v / 2)]: the
    quotient [v / 2] is a [GLfloat], [tan] takes it as a [double] and
    returns a [double], the product with [n] is taken in double
    precision and the initialisation of [y] converts it to [GLfloat]. *)
Definition perspective_y (v n : GLfloat) : GLfloat :=
  float_of_double (dmul (double_of_float n) (tan (double_of_float (v / 2)))).

(** [perspective(v, a, n, f)]: field of view, aspect ratio, near, far. *)
Definition perspective (v a n f : GLfloat) : mat4 :=
  let y := perspective_y v n in
  let x := y * a in
  mat4_of (n / x) 0 0 0
          0 (n / y) 0 0
          0 0 ((n + f) / (n - f)) (2 * (n * f) / (n - f))
          0 0 (of_int (-1)) 0.

(** [perspective(l, r, b, t, n, f)], the overload on the six clipping
    boundaries. *)
Definition perspective_frustum (l r b t n f : GLfloat) : mat4 :=
  mat4_of ((n + n) / (r - l)) 0 ((r + l) / (r - l)) 0
          0 ((n + n) / (t - b)) ((t + b) / (t - b)) 0
          0 0 ((n + f) / (n - f)) (2 * (n * f) / (n - f))
          0 0 (of_int (-1)) 0.

Definition orthogonal (l r b t n f : GLfloat) : mat4 :=
  mat4_of (2 / (r - l)) 0 0 (- (r + l) / (r - l))
          0 (2 / (t - b)) 0 (- (t + b) / (t - b))
          0 0 (of_int (-2) / (f - n)) (- (f + n) / (f - n))
          0 0 0 1.

(** The local [d] of [normal]: the determinant of the upper-left 3x3
    block, as the source computes it. *)
Definition normal_d (M : mat4) : GLfloat :=
  let '(Mat4 (Vec4 M00 M01 M02 _) (Vec4 M10 M11 M12 _)
             (Vec4 M20 M21 M22 _) _) := M in
    M00 * M11 * M22
  - M00 * M12 * M21
  + M01 * M12 * M20
  - M01 * M10 * M22
  + M02 * M10 * M21
  - M02 * M11 * M20.

(** The matrix returned when [fabs(d) > 0.f]. *)
Definition normal_cofactors (M : mat4) : mat3 :=
  let '(Mat4 (Vec4 M00 M01 M02 _) (Vec4 M10 M11 M12 _)
             (Vec4 M20 M21 M22 _) _) := M in
  mat3_of (- M12 * M21 + M11 * M22)
          (M12 * M20 - M10 * M22)
          (- M11 * M20 + M10 * M21)
          (M02 * M21 - M01 * M22)
          (- M02 * M20 + M00 * M22)
          (M01 * M20 - M00 * M21)
          (- M02 * M11 + M01 * M12)
          (M02 * M10 - M00 * M12)
          (- M01 * M10 + M00 * M11).

Definition normal (M : mat4) : mat3 :=
  let d := normal_d M in
  if fgtb (fabs d) (of_int 0) then normal_cofactors M else mat3_default.

(** What the documentation of [normal] promises, in the spec's words:
    every entry is the corresponding cofactor of the upper-left 3x3
    block divided by the determinant of that block. *)
Definition normal_documented (M : mat4) : mat3 :=
  let d := normal_d M in
  let '(Mat3 (Vec3 c00 c01 c02) (Vec3 c10 c11 c12) (Vec3 c20 c21 c22)) :=
    normal_cofactors M in
  mat3_of (c00 / d) (c01 / d) (c02 / d)
          (c10 / d) (c11 / d) (c12 / d)
          (c20 / d) (c21 / d) (c22 / d).

(** The transpose, and the upper-left block, used to say what an
    inverse transpose is. *)
Definition mat3_transpose (A : mat3) : mat3 :=
  let '(Mat3 (Vec3 a00 a01 a02) (Vec3 a10 a11 a12) (Vec3 a20 a21 a22)) :=
    A in
  mat3_of a00 a10 a20 a01 a11 a21 a02 a12 a22.

Definition upper_left (M : mat4) : mat3 :=
  let '(Mat4 (Vec4 M00 M01 M02 _) (Vec4 M10 M11 M12 _)
             (Vec4 M20 M21 M22 _) _) := M in
  mat3_of M00 M01 M02 M10 M11 M12 M20 M21 M22.
End Algebra.

(** A stand-in for the C library's tangent in examples: the constant 1,
    the value of the tangent at pi/4. *)
Definition tan_one : double -> double := fun _ => double_of_int 1.

(** The all-zeros matrix of the spec's example. *)
Definition mat4_zeros : mat4 :=
  mat4_of (of_int 0) (of_int 0) (of_int 0) (of_int 0)
          (of_int 0) (of_int 0) (of_int 0) (of_int 0)
          (of_int 0) (of_int 0) (of_int 0) (of_int 0)
          (of_int 0) (of_int 0) (of_int 0) (of_int 0).

(** ** The shader build pipeline *)

(** Handles, integers and addresses.  A [GLuint] handle is [0] when the
    driver made no object; a pointer is [None] when it is null. *)
Definition GLuint := Z.
Definition GLint := Z.
Definition pointer := Z.

(** [FILE *]: the error stream, or a stream that [fopen] returned. *)
Inductive FILE :=
| stderr
| stream (id : Z).

(** The enumerants of the OpenGL header that the source names; their
    numeric values play no role. *)
Inductive GLenum :=
| GL_VERTEX_SHADER
| GL_FRAGMENT_SHADER
| GL_COMPILE_STATUS
| GL_LINK_STATUS
| GL_INFO_LOG_LENGTH.

(** [size_t] is 64 bits wide and [int] 32: a conversion to [size_t]
    reduces modulo [2^64], and [n + 1] on [int]s wraps around. *)
Definition to_size_t (z : Z) : Z := z mod 2 ^ 64.
Definition int_add (a b : Z) : Z := (a + b + 2 ^ 31) mod 2 ^ 32 - 2 ^ 31.

(** The size [n + 1] that the status helpers pass to [calloc], for a log
    length [n] of type [GLint]. *)
Definition log_buffer_size (n : GLint) : Z := to_size_t (int_add n 1).

(** The calls the pipeline makes to the C library and to the driver, each
    with the type of what comes back: the returned value, or for an output
    parameter the value it holds after the call.
    - [fread p n fp] answers with the bytes the buffer [p] then holds;
    - [glGetShaderiv] and [glGetProgramiv] answer with the value of the
      queried [GLint], which the source initialises to [0];
    - [glGetShaderInfoLog] and [glGetProgramInfoLog] answer with the text
      stored in the buffer;
    - [glShaderSource shader source] passes the text at [source]. *)
Inductive call : Type -> Type :=
| fopen (name : string) : call (option FILE)
| fseek_end (fp : FILE) : call Z
| ftell (fp : FILE) : call Z
| fseek_set (fp : FILE) : call Z
| calloc (nmemb : Z) : call (option pointer)
| fread (p : pointer) (n : Z) (fp : FILE) : call string
| fclose (fp : FILE) : call unit
| free (p : option pointer) : call unit
| fprintf (fp : FILE) (text : string) : call unit
| glCreateShader (type : GLenum) : call GLuint
| glShaderSource (shader : GLuint) (source : string) : call unit
| glCompileShader (shader : GLuint) : call unit
| glGetShaderiv (shader : GLuint) (pname : GLenum) : call GLint
| glGetShaderInfoLog (shader : GLuint) (bufSize : GLint) (p : pointer)
  : call string
| glDeleteShader (shader : GLuint) : call unit
| glCreateProgram : call GLuint
| glAttachShader (program shader : GLuint) : call unit
| glLinkProgram (program : GLuint) : call unit
| glGetProgramiv (program : GLuint) (pname : GLenum) : call GLint
| glGetProgramInfoLog (program : GLuint) (bufSize : GLint) (p : pointer)
  : call string
| glDeleteProgram (program : GLuint) : call unit.

(** A program: it returns, or makes a call and goes on with the answer. *)
Inductive Prog (A : Type) : Type :=
| Ret (a : A)
| Call {R : Type} (c : call R) (k : R -> Prog A).

Arguments Ret {A} a.
Arguments Call {A R} c k.

Fixpoint bind {A B : Type} (p : Prog A) (f : A -> Prog B) : Prog B :=
  match p with
  | Ret a => f a
  | Call c k => Call c (fun r => bind (k r) f)
  end.

Definition do {R : Type} (c : call R) : Prog R := Call c Ret.

Declare Scope prog_scope.
Delimit Scope prog_scope with prog.
Bind Scope prog_scope with Prog.
Notation "x <- p ;; q" := (bind p (fun x => q))
  (at level 61, p at next level, right associativity) : prog_scope.
Notation "p ;; q" := (bind p (fun _ => q))
  (at level 61, right associativity) : prog_scope.

(** What a run leaves behind: the calls made, in order, with their
    answers. *)
Inductive event : Type :=
| Ev {R : Type} (c : call R) (r : R).

(** An environment answers every call, from a state [W] of its own. *)
Record Env (W : Type) : Type :=
  { respond : forall R : Type, call R -> W -> R * W }.

Arguments respond {W} e {R} c w.

Fixpoint run {W A : Type} (env : Env W) (p : Prog A) (w : W)
  : A * W * list event :=
  match p with
  | Ret a => (a, w, [])
  | Call c k =>
      let '(r, w1) := respond env c w in
      let '(a, w2, tr) := run env (k r) w1 in
      (a, w2, Ev c r :: tr)
  end.

Definition result {A W : Type} (out : A * W * list event) : A :=
  fst (fst out).
Definition world_of {A W : Type} (out : A * W * list event) : W :=
  snd (fst out).
Definition trace_of {A W : Type} (out : A * W * list event) : list event :=
  snd out.

(** The texts written to the error stream, in order. *)
Fixpoint stderr_output (tr : list event) : list string :=
  match tr with
  | [] => []
  | Ev (fprintf stderr text) _ :: tr' => text :: stderr_output tr'
  | _ :: tr' => stderr_output tr'
  end.

Definition is_glCreateShader (e : event) : bool :=
  match e with Ev (glCreateShader _) _ => true | _ => false end.
Definition is_glCompileShader (e : event) : bool :=
  match e with Ev (glCompileShader _) _ => true | _ => false end.
Definition is_glCreateProgram (e : event) : bool :=
  match e with Ev glCreateProgram _ => true | _ => false end.
Definition is_glLinkProgram (e : event) : bool :=
  match e with Ev (glLinkProgram _) _ => true | _ => false end.
Definition is_calloc (e : event) : bool :=
  match e with Ev (calloc _) _ => true | _ => false end.

Definition compile_failed (e : event) : bool :=
  match e with
  | Ev (glGetShaderiv _ GL_COMPILE_STATUS) s => s =? 0
  | _ => false
  end.
Definition link_failed (e : event) : bool :=
  match e with
  | Ev (glGetProgramiv _ GL_LINK_STATUS) s => s =? 0
  | _ => false
  end.
Definition calloc_failed (e : event) : bool :=
  match e with Ev (calloc _) None => true | _ => false end.
Definition create_shader_failed (e : event) : bool :=
  match e with Ev (glCreateShader _) h => h =? 0 | _ => false end.

(** The failures that the pipeline passes over without a message: a
    [fseek] that fails, an empty file, a [calloc] that returns null, a
    [glCreateShader] or [glCreateProgram] that returns [0]. *)
Definition silent_cause (e : event) : bool :=
  match e with
  | Ev (fseek_end _) r => negb (r =? 0)
  | Ev (fseek_set _) r => negb (r =? 0)
  | Ev (ftell _) t => to_size_t t =? 0
  | Ev (calloc _) None => true
  | Ev (glCreateShader _) h => h =? 0
  | Ev glCreateProgram h => h =? 0
  | _ => false
  end.

(** Something was written to the error stream. *)
Definition printed (tr : list event) : bool :=
  match stderr_output tr with [] => false | _ :: _ => true end.

(** A call to the driver, as opposed to the C library. *)
Definition is_gl (e : event) : bool :=
  match e with
  | Ev (fopen _) _ | Ev (fseek_end _) _ | Ev (ftell _) _
  | Ev (fseek_set _) _ | Ev (calloc _) _ | Ev (fread _ _ _) _
  | Ev (fclose _) _ | Ev (free _) _ | Ev (fprintf _ _) _ => false
  | _ => true
  end.

(** The line feed of the format strings. *)
Definition LF : string := String (ascii_of_nat 10) EmptyString.

(** The buffer [read_shader_source] returns: its address and the text it
    holds. *)
Record buffer := Buffer { buf_ptr : pointer; buf_text : string }.

Section Pipeline.
Local Open Scope string_scope.
Local Open Scope Z_scope.
Local Open Scope prog_scope.

(** [read_shader_source(name)]: [p] stays null unless every step down to
    [calloc] succeeds; the only message is that of a failed [fopen]. *)
Definition read_shader_source (name : string) : Prog (option buffer) :=
  fp <- do (fopen name) ;;
  match fp with
  | Some fp =>
      r <- do (fseek_end fp) ;;
      p <- (if r =? 0 then
              t <- do (ftell fp) ;;
              let n := to_size_t t in
              if negb (n =? 0) then
                r' <- do (fseek_set fp) ;;
                if r' =? 0 then
                  p <- do (calloc (to_size_t (n + 1))) ;;
                  match p with
                  | Some p =>
                      text <- do (fread p n fp) ;;
                      Ret (Some (Buffer p text))
                  | None => Ret None
                  end
                else Ret None
              else Ret None
            else Ret None) ;;
      do (fclose fp) ;;
      Ret p
  | None =>
      do (fprintf stderr ("Failed to open '" ++ name ++ "'." ++ LF)) ;;
      Ret None
  end.

(** [report_shader_status(shader, fp)]. *)
Definition report_shader_status (shader : GLuint) (fp : FILE) : Prog bool :=
  s <- do (glGetShaderiv shader GL_COMPILE_STATUS) ;;
  n <- do (glGetShaderiv shader GL_INFO_LOG_LENGTH) ;;
  if s =? 0 then
    p <- do (calloc (log_buffer_size n)) ;;
    match p with
    | Some p =>
        log <- do (glGetShaderInfoLog shader n p) ;;
        do (fprintf fp ("Shader Error:" ++ LF ++ log)) ;;
        do (free (Some p)) ;;
        Ret false
    | None => Ret false
    end
  else Ret true.

(** [report_program_status(program, fp)]. *)
Definition report_program_status (program : GLuint) (fp : FILE)
  : Prog bool :=
  s <- do (glGetProgramiv program GL_LINK_STATUS) ;;
  n <- do (glGetProgramiv program GL_INFO_LOG_LENGTH) ;;
  if s =? 0 then
    p <- do (calloc (log_buffer_size n)) ;;
    match p with
    | Some p =>
        log <- do (glGetProgramInfoLog program n p) ;;
        do (fprintf fp ("Program Error:" ++ LF ++ log)) ;;
        do (free (Some p)) ;;
        Ret false
    | None => Ret false
    end
  else Ret true.

(** [init_shader(type, source)]; the status goes to [stderr], the
    default argument of [report_shader_status]. *)
Definition init_shader (type : GLenum) (source : string) : Prog GLuint :=
  shader <- do (glCreateShader type) ;;
  if negb (shader =? 0) then
    do (glShaderSource shader source) ;;
    do (glCompileShader shader) ;;
    ok <- report_shader_status shader stderr ;;
    if ok then Ret shader
    else (do (glDeleteShader shader) ;; Ret 0)
  else Ret 0.

(** [init_program(vert_shader, frag_shader)]. *)
Definition init_program (vert_shader frag_shader : GLuint) : Prog GLuint :=
  program <- do glCreateProgram ;;
  if negb (program =? 0) then
    do (glAttachShader program vert_shader) ;;
    do (glAttachShader program frag_shader) ;;
    do (glLinkProgram program) ;;
    ok <- report_program_status program stderr ;;
    if ok then Ret program
    else (do (glDeleteProgram program) ;; Ret 0)
  else Ret 0.

(** The block of [init_program(vert_name, frag_name)] that the test
    [if (vert_source && frag_source)] guards; [program] is [0] unless
    [init_program] assigns it. *)
Definition init_program_from_sources (vert_source frag_source : buffer)
  : Prog GLuint :=
  vert_shader <- init_shader GL_VERTEX_SHADER (buf_text vert_source) ;;
  frag_shader <- init_shader GL_FRAGMENT_SHADER (buf_text frag_source) ;;
  program <- (if negb (vert_shader =? 0) && negb (frag_shader =? 0)
              then init_program vert_shader frag_shader
              else Ret 0) ;;
  do (glDeleteShader frag_shader) ;;
  do (glDeleteShader vert_shader) ;;
  Ret program.

(** [init_program(vert_name, frag_name)], the overload on two file
    names. *)
Definition init_program_from_files (vert_name frag_name : string)
  : Prog GLuint :=
  vert_source <- read_shader_source vert_name ;;
  frag_source <- read_shader_source frag_name ;;
  program <-
    match vert_source, frag_source with
    | Some vert, Some frag => init_program_from_sources vert frag
    | _, _ => Ret 0
    end ;;
  do (free (option_map buf_ptr frag_source)) ;;
  do (free (option_map buf_ptr vert_source)) ;;
  Ret program.
End Pipeline.

(** The contract of a status helper, for a run [out] of it: [query] is
    [glGetShaderiv shader] or [glGetProgramiv program], [status] the flag
    it asks for, [get_log] the call that fetches the log and [label] the
    fixed text printed before it.  With [s] the status and [n] the log
    length the driver answered, the run is one of
    - [s] is not [0]: the two queries and nothing else, result [true];
    - [s] is [0] and [calloc(n + 1, 1)] gave a buffer: the log is fetched
      into it, printed after [label], the buffer freed, result [false];
    - [s] is [0] and [calloc] gave none: nothing more, result [false]. *)
Definition status_contract {W : Type} (query : GLenum -> call GLint)
  (status : GLenum) (get_log : GLint -> pointer -> call string)
  (label : string) (fp : FILE) (out : bool * W * list event) : Prop :=
  exists (s n : GLint),
    let queries := [Ev (query status) s; Ev (query GL_INFO_LOG_LENGTH) n] in
    (s <> 0 /\ result out = true /\ trace_of out = queries)
    \/ (s = 0 /\ result out = false
        /\ exists (p : pointer) (log : string),
             trace_of out
             = queries ++ [Ev (calloc (log_buffer_size n)) (Some p);
                           Ev (get_log n p) log;
                           Ev (fprintf fp (label ++ LF ++ log)%string) tt;
                           Ev (free (Some p)) tt])
    \/ (s = 0 /\ result out = false
        /\ trace_of out = queries ++ [Ev (calloc (log_buffer_size n)) None]).

(** ** A simulated environment

    A small file system, allocator and driver, to run the pipeline on
    concrete inputs.  Streams and objects are numbered from [sim_next];
    a shader compiles when [sim_compiles] accepts its source. *)
Record sim := Sim
  { sim_files : list (string * string);
    sim_seekable : bool;
    sim_calloc_ok : bool;
    sim_create_ok : bool;
    sim_compiles : string -> bool;
    sim_links : bool;
    sim_log : string;
    sim_next : Z;
    sim_open : list (Z * string);
    sim_sources : list (Z * string) }.

Fixpoint lookup {A B : Type} (eqb : A -> A -> bool) (k : A)
  (l : list (A * B)) : option B :=
  match l with
  | [] => None
  | (k', v) :: l' => if eqb k k' then Some v else lookup eqb k l'
  end.

Definition sim_fresh (w : sim) : Z * sim :=
  (sim_next w,
   Sim (sim_files w) (sim_seekable w) (sim_calloc_ok w) (sim_create_ok w)
       (sim_compiles w) (sim_links w) (sim_log w) (sim_next w + 1)
       (sim_open w) (sim_sources w)).

Definition sim_set_open (w : sim) (o : list (Z * string)) : sim :=
  Sim (sim_files w) (sim_seekable w) (sim_calloc_ok w) (sim_create_ok w)
      (sim_compiles w) (sim_links w) (sim_log w) (sim_next w) o
      (sim_sources w).

Definition sim_set_sources (w : sim) (s : list (Z * string)) : sim :=
  Sim (sim_files w) (sim_seekable w) (sim_calloc_ok w) (sim_create_ok w)
      (sim_compiles w) (sim_links w) (sim_log w) (sim_next w) (sim_open w) s.

Definition sim_content (w : sim) (fp : FILE) : string :=
  match fp with
  | stream id =>
      match lookup Z.eqb id (sim_open w) with
      | Some s => s
      | None => EmptyString
      end
  | stderr => EmptyString
  end.

Definition sim_log_length (w : sim) : Z :=
  Z.of_nat (String.length (sim_log w)) + 1.

Definition sim_respond (R : Type) (c : call R) : sim -> R * sim :=
  match c in call R return sim -> R * sim with
  | fopen name => fun w =>
      match lookup String.eqb name (sim_files w) with
      | Some text =>
          let '(id, w1) := sim_fresh w in
          (Some (stream id), sim_set_open w1 ((id, text) :: sim_open w1))
      | None => (None, w)
      end
  | fseek_end fp => fun w => (if sim_seekable w then 0 else -1, w)
  | ftell fp => fun w => (Z.of_nat (String.length (sim_content w fp)), w)
  | fseek_set fp => fun w => (if sim_seekable w then 0 else -1, w)
  | calloc nmemb => fun w =>
      if sim_calloc_ok w
      then let '(a, w1) := sim_fresh w in (Some a, w1)
      else (None, w)
  | fread p n fp => fun w =>
      (String.substring 0 (Z.to_nat n) (sim_content w fp), w)
  | fclose fp => fun w => (tt, w)
  | free p => fun w => (tt, w)
  | fprintf fp text => fun w => (tt, w)
  | glCreateShader type => fun w =>
      if sim_create_ok w then sim_fresh w else (0, w)
  | glShaderSource shader source => fun w =>
      (tt, sim_set_sources w ((shader, source) :: sim_sources w))
  | glCompileShader shader => fun w => (tt, w)
  | glGetShaderiv shader pname => fun w =>
      let ok :=
        match lookup Z.eqb shader (sim_sources w) with
        | Some source => sim_compiles w source
        | None => false
        end in
      (match pname with
       | GL_COMPILE_STATUS => if ok then 1 else 0
       | GL_INFO_LOG_LENGTH => if ok then 0 else sim_log_length w
       | _ => 0
       end, w)
  | glGetShaderInfoLog shader bufSize p => fun w => (sim_log w, w)
  | glDeleteShader shader => fun w => (tt, w)
  | glCreateProgram => fun w =>
      if sim_create_ok w then sim_fresh w else (0, w)
  | glAttachShader program shader => fun w => (tt, w)
  | glLinkProgram program => fun w => (tt, w)
  | glGetProgramiv program pname => fun w =>
      (match pname with
       | GL_LINK_STATUS => if sim_links w then 1 else 0
       | GL_INFO_LOG_LENGTH => if sim_links w then 0 else sim_log_length w
       | _ => 0
       end, w)
  | glGetProgramInfoLog program bufSize p => fun w => (sim_log w, w)
  | glDeleteProgram program => fun w => (tt, w)
  end.

Definition sim_env : Env sim := {| respond := sim_respond |}.

Section SimulatedWorlds.
Local Open Scope string_scope.

(** Two well-formed sources, an empty file, and no other file; every
    source but ["syntax error"] compiles. *)
Definition sim_ok : sim :=
  Sim [("vert.glsl", "void main() { gl_Position = vec4(0); }");
       ("frag.glsl", "void main() { }");
       ("bad.glsl", "syntax error");
       ("empty.glsl", EmptyString)]
      true true true
      (fun source => negb (String.eqb source "syntax error"))
      true "0:1: error" 1 [] [].

(** The same, with an allocator that has run out of memory. *)
Definition sim_no_memory : sim :=
  Sim (sim_files sim_ok) true false true (sim_compiles sim_ok) true
      (sim_log sim_ok) 1 [] [].

(** The same, with a driver that makes no object. *)
Definition sim_no_objects : sim :=
  Sim (sim_files sim_ok) true true false (sim_compiles sim_ok) true
      (sim_log sim_ok) 1 [] [].

(** The same, with files that cannot be seeked. *)
Definition sim_no_seek : sim :=
  Sim (sim_files sim_ok) false true true (sim_compiles sim_ok) true
      (sim_log sim_ok) 1 [] [].

(** The same, with a driver that does not link. *)
Definition sim_no_link : sim :=
  Sim (sim_files sim_ok) true true true (sim_compiles sim_ok) false
      (sim_log sim_ok) 1 [] [].

(** The same, with neither memory nor a driver that links. *)
Definition sim_no_link_no_memory : sim :=
  Sim (sim_files sim_ok) true false true (sim_compiles sim_ok) false
      (sim_log sim_ok) 1 [] [].
End SimulatedWorlds.

(** ** Finite vectors and matrices, numerically equal results *)

(** A vector of three well-formed finite numbers. *)
Definition vec3_finite (v : vec3) : bool :=
  (valid32 (v3_0 v) && is_finite (v3_0 v))
  && (valid32 (v3_1 v) && is_finite (v3_1 v))
  && (valid32 (v3_2 v) && is_finite (v3_2 v)).

Definition mat3_finite (M : mat3) : bool :=
  vec3_finite (m3_0 M) && vec3_finite (m3_1 M) && vec3_finite (m3_2 M).

Definition mat4_finite (M : mat4) : bool :=
  vec4_finite (m4_0 M) && vec4_finite (m4_1 M) && vec4_finite (m4_2 M)
  && vec4_finite (m4_3 M).

Definition vec3_same (v w : vec3) : Prop :=
  same_value (v3_0 v) (v3_0 w) /\ same_value (v3_1 v) (v3_1 w)
  /\ same_value (v3_2 v) (v3_2 w).

Definition mat3_same (A B : mat3) : Prop :=
  vec3_same (m3_0 A) (m3_0 B) /\ vec3_same (m3_1 A) (m3_1 B)
  /\ vec3_same (m3_2 A) (m3_2 B).

(** The determinant of the upper-left 3x3 block in exact arithmetic: that
    of the real numbers that the nine entries stand for. *)
Definition det3_exact (M : mat4) : R :=
  let '(Mat4 (Vec4 M00 M01 M02 _) (Vec4 M10 M11 M12 _)
             (Vec4 M20 M21 M22 _) _) := M in
  (SF2R M00 * SF2R M11 * SF2R M22
   - SF2R M00 * SF2R M12 * SF2R M21
   + SF2R M01 * SF2R M12 * SF2R M20
   - SF2R M01 * SF2R M10 * SF2R M22
   + SF2R M02 * SF2R M10 * SF2R M21
   - SF2R M02 * SF2R M11 * SF2R M20)%R.

(** A matrix whose upper-left block is singular: its second row is twice
    the first. *)
Definition singular_block : mat4 :=
  mat4_of (of_int 1) (of_int 4096) (fdiv (of_int 1) (of_int 2)) (of_int 0)
          (of_int 2) (of_int 8192) (of_int 1) (of_int 0)
          (of_int 0) (of_int 1) (of_int 4096) (of_int 0)
          (of_int 0) (of_int 0) (of_int 0) (of_int 1).

(** The sign bit is clear, or the datum is a NaN: not a negative number,
    not the negative zero, not the negative infinity. *)
Definition sign_clear (x : GLfloat) : bool :=
  match x with
  | S754_zero s | S754_infinity s | S754_finite s _ _ => negb s
  | S754_nan => true
  end.

Definition is_nan (x : GLfloat) : bool :=
  match x with S754_nan => true | _ => false end.

(** The sign bit of a number; a NaN carries none here. *)
Definition sign_bit (x : GLfloat) : bool :=
  match x with
  | S754_zero s | S754_infinity s | S754_finite s _ _ => s
  | S754_nan => false
  end.

(** Stand-ins for the C library's cosine and sine in examples: the
    constants 1 and 0, their values at 0. *)
Definition cos_at_0 : GLfloat -> GLfloat := fun _ => of_int 1.
Definition sin_at_0 : GLfloat -> GLfloat := fun _ => of_int 0.

(** ** Writing through [operator[]] and the loops of the products *)

(** [v[i] = x] through the non-const [operator[]]: an index outside the
    array is undefined behaviour in the source and [None] here. *)
Definition vec3_set (v : vec3) (i : Z) (x : GLfloat) : option vec3 :=
  match i with
  | 0 => Some (Vec3 x (v3_1 v) (v3_2 v))
  | 1 => Some (Vec3 (v3_0 v) x (v3_2 v))
  | 2 => Some (Vec3 (v3_0 v) (v3_1 v) x)
  | _ => None
  end.

Definition vec4_set (v : vec4) (i : Z) (x : GLfloat) : option vec4 :=
  match i with
  | 0 => Some (Vec4 x (v4_1 v) (v4_2 v) (v4_3 v))
  | 1 => Some (Vec4 (v4_0 v) x (v4_2 v) (v4_3 v))
  | 2 => Some (Vec4 (v4_0 v) (v4_1 v) x (v4_3 v))
  | 3 => Some (Vec4 (v4_0 v) (v4_1 v) (v4_2 v) x)
  | _ => None
  end.

(** [M[i][j] = x]. *)
Definition mat3_set (M : mat3) (i j : Z) (x : GLfloat) : option mat3 :=
  match i with
  | 0 => option_map (fun r => Mat3 r (m3_1 M) (m3_2 M)) (vec3_set (m3_0 M) j x)
  | 1 => option_map (fun r => Mat3 (m3_0 M) r (m3_2 M)) (vec3_set (m3_1 M) j x)
  | 2 => option_map (fun r => Mat3 (m3_0 M) (m3_1 M) r) (vec3_set (m3_2 M) j x)
  | _ => None
  end.

Definition mat4_set (M : mat4) (i j : Z) (x : GLfloat) : option mat4 :=
  match i with
  | 0 => option_map (fun r => Mat4 r (m4_1 M) (m4_2 M) (m4_3 M))
           (vec4_set (m4_0 M) j x)
  | 1 => option_map (fun r => Mat4 (m4_0 M) r (m4_2 M) (m4_3 M))
           (vec4_set (m4_1 M) j x)
  | 2 => option_map (fun r => Mat4 (m4_0 M) (m4_1 M) r (m4_3 M))
           (vec4_set (m4_2 M) j x)
  | 3 => option_map (fun r => Mat4 (m4_0 M) (m4_1 M) (m4_2 M) r)
           (vec4_set (m4_3 M) j x)
  | _ => None
  end.

(** [for (int i = lo; i < hi; i++) body], on a state that an access out of
    range leaves undefined. *)
Fixpoint for_count {S : Type} (count : nat) (i : Z)
  (body : Z -> S -> option S) (s : S) : option S :=
  match count with
  | O => Some s
  | Datatypes.S count' =>
      match body i s with
      | Some s' => for_count count' (i + 1) body s'
      | None => None
      end
  end.

Definition for_int {S : Type} (lo hi : Z) (body : Z -> S -> option S) (s : S)
  : option S :=
  for_count (Z.to_nat (hi - lo)) lo body s.

Section Loops.
Local Open Scope f32_scope.

(** The body [M[i][j] = A[i][0] * B[0][j] + ...] of the two products. *)
Definition mat3_mul_body (A B : mat3) (i j : Z) (M : mat3) : option mat3 :=
  match mat3_elt A i 0%Z, mat3_elt B 0%Z j,
        mat3_elt A i 1%Z, mat3_elt B 1%Z j,
        mat3_elt A i 2%Z, mat3_elt B 2%Z j with
  | Some a0, Some b0, Some a1, Some b1, Some a2, Some b2 =>
      mat3_set M i j (a0 * b0 + a1 * b1 + a2 * b2)
  | _, _, _, _, _, _ => None
  end.

Definition mat4_mul_body (A B : mat4) (i j : Z) (M : mat4) : option mat4 :=
  match mat4_elt A i 0%Z, mat4_elt B 0%Z j,
        mat4_elt A i 1%Z, mat4_elt B 1%Z j,
        mat4_elt A i 2%Z, mat4_elt B 2%Z j,
        mat4_elt A i 3%Z, mat4_elt B 3%Z j with
  | Some a0, Some b0, Some a1, Some b1, Some a2, Some b2, Some a3, Some b3 =>
      mat4_set M i j (a0 * b0 + a1 * b1 + a2 * b2 + a3 * b3)
  | _, _, _, _, _, _, _, _ => None
  end.

(** [operator*(mat3, mat3)] and [operator*(mat4, mat4)] as written: [M]
    starts as the default matrix and the two loops assign its entries. *)
Definition mat3_mul_loops (A B : mat3) : option mat3 :=
  for_int 0 3 (fun i => for_int 0 3 (fun j => mat3_mul_body A B i j))
    mat3_default.

Definition mat4_mul_loops (A B : mat4) : option mat4 :=
  for_int 0 4 (fun i => for_int 0 4 (fun j => mat4_mul_body A B i j))
    mat4_default.
End Loops.

(** ** [check] *)

(** The error codes of the OpenGL headers that [check] names. *)
Definition GL_NO_ERROR : Z := 0.
Definition GL_INVALID_ENUM : Z := 0x0500.
Definition GL_INVALID_VALUE : Z := 0x0501.
Definition GL_INVALID_OPERATION : Z := 0x0502.
Definition GL_OUT_OF_MEMORY : Z := 0x0505.
(** Another error code of OpenGL 3.0 and later, which [check] does not
    name. *)
Definition GL_INVALID_FRAMEBUFFER_OPERATION : Z := 0x0506.

(** The conversion [%d] of an [int]. *)
Definition decimal (z : Z) : string := NilZero.string_of_int (Z.to_int z).

(** What a call of [check] does after [glGetError()] answered [error]:
    the texts it writes, in order, and whether it reaches [abort()],
    which does not return. *)
Record check_run := Check_run
  { check_written : list (FILE * string);
    check_aborted : bool }.

Section CheckErrors.
Local Open Scope string_scope.
Local Open Scope Z_scope.

Definition check_message (file : string) (line : Z) (what : string) : string :=
  file ++ ":" ++ decimal line ++ ": " ++ what ++ LF.

(** [check(file, line, fp)]: a case that matches prints and aborts; no
    case matching, the [switch] does nothing. *)
Definition check (file : string) (line : Z) (fp : FILE) (error : Z)
  : check_run :=
  if error =? GL_INVALID_ENUM then
    Check_run [(fp, check_message file line "Invalid Enum")] true
  else if error =? GL_INVALID_VALUE then
    Check_run [(fp, check_message file line "Invalid Value")] true
  else if error =? GL_INVALID_OPERATION then
    Check_run [(fp, check_message file line "Invalid Operation")] true
  else if error =? GL_OUT_OF_MEMORY then
    Check_run [(fp, check_message file line "Out of Memory")] true
  else Check_run [] false.

(** [GL_CHECK_ERROR()] at line [line] of [file]: [fp] is [stderr]. *)
Definition GL_CHECK_ERROR (file : string) (line : Z) (error : Z) : check_run :=
  check file line stderr error.
End CheckErrors.

(** ** Resources in a trace *)

(** What an event acquires or gives back: the buffer a [calloc] returned
    and the buffer passed to [free] (null aside), the stream a [fopen]
    returned and the stream passed to [fclose], the shader or program a
    [glCreate...] returned and the one passed to [glDelete...] ([0]
    aside). *)
Definition allocation (e : event) : list pointer :=
  match e with Ev (calloc _) (Some p) => [p] | _ => [] end.
Definition release (e : event) : list pointer :=
  match e with Ev (free (Some p)) _ => [p] | _ => [] end.
Definition opening (e : event) : list FILE :=
  match e with Ev (fopen _) (Some fp) => [fp] | _ => [] end.
Definition closing (e : event) : list FILE :=
  match e with Ev (fclose fp) _ => [fp] | _ => [] end.
Definition shader_creation (e : event) : list GLuint :=
  match e with
  | Ev (glCreateShader _) h => if h =? 0 then [] else [h]
  | _ => []
  end.
Definition shader_deletion (e : event) : list GLuint :=
  match e with
  | Ev (glDeleteShader h) _ => if h =? 0 then [] else [h]
  | _ => []
  end.
Definition program_creation (e : event) : list GLuint :=
  match e with
  | Ev glCreateProgram h => if h =? 0 then [] else [h]
  | _ => []
  end.
Definition program_deletion (e : event) : list GLuint :=
  match e with
  | Ev (glDeleteProgram h) _ => if h =? 0 then [] else [h]
  | _ => []
  end.

Definition allocated (tr : list event) : list pointer :=
  flat_map allocation tr.
Definition freed (tr : list event) : list pointer := flat_map release tr.
Definition opened (tr : list event) : list FILE := flat_map opening tr.
Definition closed (tr : list event) : list FILE := flat_map closing tr.
Definition shaders_created (tr : list event) : list GLuint :=
  flat_map shader_creation tr.
Definition shaders_deleted (tr : list event) : list GLuint :=
  flat_map shader_deletion tr.
Definition programs_created (tr : list event) : list GLuint :=
  flat_map program_creation tr.
Definition programs_deleted (tr : list event) : list GLuint :=
  flat_map program_deletion tr.

(** The shaders attached to programs, and the texts written with the
    streams they went to. *)
Definition attachment (e : event) : list (GLuint * GLuint) :=
  match e with Ev (glAttachShader p s) _ => [(p, s)] | _ => [] end.
Definition writing (e : event) : list (FILE * string) :=
  match e with Ev (fprintf fp text) _ => [(fp, text)] | _ => [] end.
Definition attached (tr : list event) : list (GLuint * GLuint) :=
  flat_map attachment tr.
Definition written (tr : list event) : list (FILE * string) :=
  flat_map writing tr.

(** The calls on files: [fopen], [fseek], [ftell], [fread], [fclose]. *)
Definition is_file_call (e : event) : bool :=
  match e with
  | Ev (fopen _) _ | Ev (fseek_end _) _ | Ev (ftell _) _
  | Ev (fseek_set _) _ | Ev (fread _ _ _) _ | Ev (fclose _) _ => true
  | _ => false
  end.

(** An environment in which [ftell] fails: it answers [-1], and every
    other call as [sim_env] does. *)
Definition sim_ftell_fails : Env sim :=
  {| respond := fun R (c : call R) =>
       match c in call R return sim -> R * sim with
       | ftell fp => fun w => (-1, w)
       | c' => sim_respond _ c'
       end |}.

(** An environment in which the driver makes no program object:
    [glCreateProgram] answers [0], and every other call as [sim_env]
    does. *)
Definition sim_no_program : Env sim :=
  {| respond := fun R (c : call R) =>
       match c in call R return sim -> R * sim with
       | glCreateProgram => fun w => (0, w)
       | c' => sim_respond _ c'
       end |}.

(* ================================================================== *)
(** * Part II: properties                                              *)
(* ================================================================== *)

(** ** The embedding at work *)

Example of_int_1 : of_int 1 = S754_finite false 8388608 (-23).
Proof. reflexivity. Qed.

Example one_third :
  fdiv (of_int 1) (of_int 3) = S754_finite false 11184811 (-25).
Proof. reflexivity. Qed.

Example cross_x_y :
  cross (Vec3 (of_int 1) (of_int 0) (of_int 0))
        (Vec3 (of_int 0) (of_int 1) (of_int 0))
  = Vec3 (of_int 0) (of_int 0) (of_int 1).
Proof. reflexivity. Qed.

Example length_3_4 :
  length (Vec3 (of_int 3) (of_int 4) (of_int 0)) = of_int 5.
Proof. reflexivity. Qed.

Example translation_of_origin :
  mat4_mul_vec4 (translation (Vec3 (of_int 1) (of_int 2) (of_int 3)))
                (Vec4 (of_int 0) (of_int 0) (of_int 0) (of_int 1))
  = Vec4 (of_int 1) (of_int 2) (of_int 3) (of_int 1).
Proof. reflexivity. Qed.

Example mat4_mul_default :
  mat4_mul mat4_default (scale (Vec3 (of_int 2) (of_int 3) (of_int 4)))
  = scale (Vec3 (of_int 2) (of_int 3) (of_int 4)).
Proof. reflexivity. Qed.

Example build_two_sources :
  result (run sim_env (init_program_from_files "vert.glsl" "frag.glsl")
            sim_ok) = 7
  /\ stderr_output
       (trace_of (run sim_env (init_program_from_files "vert.glsl" "frag.glsl")
                    sim_ok)) = [].
Proof. split; reflexivity. Qed.

Example build_syntax_error :
  result (run sim_env (init_program_from_files "bad.glsl" "frag.glsl")
            sim_ok) = 0
  /\ stderr_output
       (trace_of (run sim_env (init_program_from_files "bad.glsl" "frag.glsl")
                    sim_ok))
     = [("Shader Error:" ++ LF ++ "0:1: error")%string].
Proof. split; reflexivity. Qed.

(** ** Floating-point facts *)

Ltac float_cases x :=
  destruct x as [[|] | [|] | | [|] ? ?];
  cbn [is_finite is_zero valid32 valid_binary andb] in *; try discriminate.

(** Replaces the amount of a right shift by its value [k]. *)
Ltac shift_by k :=
  match goal with
  | |- context [shr ?r ?e ?n] => replace n with k by lia
  end.

Lemma bounded32_inv (m : positive) (e : Z) :
  SpecFloat.bounded prec32 emax32 m e = true ->
  Z.max (Zpos (digits2_pos m) + e - 24) (-149) = e /\ e <= 104.
Proof.
  unfold SpecFloat.bounded, canonical_mantissa, fexp, emin, prec32, emax32.
  intros H. apply andb_true_iff in H. destruct H as [H1 H2].
  apply Z.eqb_eq in H1. apply Z.leb_le in H2. split; [exact H1 | exact H2].
Qed.

(** [1 * x] is [x]: the product of the mantissas is [m] shifted left by
    23 bits, which the rounding shifts back without losing a bit. *)
Lemma fmul_1_l_finite (s : bool) (m : positive) (e : Z) :
  SpecFloat.bounded prec32 emax32 m e = true ->
  fmul (of_int 1) (S754_finite s m e) = S754_finite s m e.
Proof.
  intros Hb. destruct (bounded32_inv m e Hb) as [Hc He].
  change (of_int 1) with (S754_finite false 8388608 (-23)).
  unfold fmul, SFmul. cbn [xorb Pos.mul].
  unfold binary_round_aux, shr_fexp.
  cbn [Zdigits2 digits2_pos shr_record_of_loc].
  set (d := digits2_pos m) in *.
  unfold fexp, emin, prec32, emax32.
  shift_by 23.
  cbn [shr SpecFloat.iter_pos shr_1 orb shr_m loc_of_shr_record
       round_nearest_even Zdigits2].
  fold d. shift_by 0. cbn [shr shr_m].
  replace (-23 + e + 23) with e by lia.
  replace (e <=? 128 - 24) with true by (symmetry; apply Z.leb_le; lia).
  reflexivity.
Qed.

Lemma fmul_1_l (x : GLfloat) :
  valid32 x = true -> is_finite x = true -> fmul (of_int 1) x = x.
Proof.
  destruct x as [s | s | | s m e]; cbn [is_finite valid32 valid_binary];
    try discriminate; intros Hv _.
  - reflexivity.
  - now apply fmul_1_l_finite.
Qed.

Lemma feqb_refl_finite (x : GLfloat) : is_finite x = true -> feqb x x = true.
Proof.
  destruct x as [s | s | | s m e]; try discriminate; intros _; [reflexivity|].
  unfold feqb, SFeqb, SFcompare.
  rewrite Z.compare_refl, Pos.compare_cont_refl. now destruct s.
Qed.

Lemma feqb_zeros (x y : GLfloat) :
  is_zero x = true -> is_zero y = true -> feqb x y = true.
Proof. destruct x, y; try discriminate; reflexivity. Qed.

Lemma same_value_feqb (x y : GLfloat) :
  is_finite y = true -> same_value x y -> feqb x y = true.
Proof.
  intros Hy [-> | [Hx Hz]];
    [now apply feqb_refl_finite | now apply feqb_zeros].
Qed.

Lemma same_value_refl (x : GLfloat) : same_value x x.
Proof. now left. Qed.

(** A row of the identity against a finite vector: the three products by
    [0] are zeros, and adding a zero to a finite number changes at most
    the sign of a zero. *)
Section UnitRows.
Variables a b c d : GLfloat.
Hypothesis Ha : is_finite a = true.
Hypothesis Hb : is_finite b = true.
Hypothesis Hc : is_finite c = true.
Hypothesis Hd : is_finite d = true.
Local Open Scope f32_scope.

Lemma unit_row_0 : same_value (a + 0 * b + 0 * c + 0 * d) a.
Proof.
  change (of_int 0) with (S754_zero false). unfold same_value.
  float_cases a; float_cases b; float_cases c; float_cases d; cbn; auto.
Qed.

Lemma unit_row_1 : same_value (0 * a + b + 0 * c + 0 * d) b.
Proof.
  change (of_int 0) with (S754_zero false). unfold same_value.
  float_cases a; float_cases b; float_cases c; float_cases d; cbn; auto.
Qed.

Lemma unit_row_2 : same_value (0 * a + 0 * b + c + 0 * d) c.
Proof.
  change (of_int 0) with (S754_zero false). unfold same_value.
  float_cases a; float_cases b; float_cases c; float_cases d; cbn; auto.
Qed.

Lemma unit_row_3 : same_value (0 * a + 0 * b + 0 * c + d) d.
Proof.
  change (of_int 0) with (S754_zero false). unfold same_value.
  float_cases a; float_cases b; float_cases c; float_cases d; cbn; auto.
Qed.
End UnitRows.

(** *** Division and doubling *)

Lemma digits2_pos_size (m : positive) : digits2_pos m = Pos.size m.
Proof. induction m; cbn; congruence. Qed.

Lemma digits2_bounds (m : positive) :
  2 ^ (Zpos (digits2_pos m) - 1) <= Zpos m < 2 ^ Zpos (digits2_pos m).
Proof.
  rewrite digits2_pos_size.
  pose proof (Pos.size_gt m) as Hgt. pose proof (Pos.size_le m) as Hle.
  apply Pos2Z.pos_lt_pos in Hgt. apply Pos2Z.pos_le_pos in Hle.
  rewrite Pos2Z.inj_pow in Hgt, Hle. cbn [Z.pow_pos] in *.
  change (Z.pos m~0) with (2 * Z.pos m) in Hle.
  assert (E : 2 ^ Z.pos (Pos.size m) = 2 * 2 ^ (Z.pos (Pos.size m) - 1)).
  { rewrite <- Z.pow_succ_r by lia. f_equal. lia. }
  lia.
Qed.

Lemma div_eucl_div_mod (a b : Z) : Z.div_eucl a b = (a / b, a mod b).
Proof. unfold Z.div, Z.modulo. now destruct (Z.div_eucl a b). Qed.

Lemma new_location_double (b r : Z) :
  0 < b -> 0 <= r < b -> new_location (2 * b) (2 * r) = new_location b r.
Proof.
  intros Hb Hr. unfold new_location.
  rewrite Z.even_mul. cbn [Z.even orb].
  destruct (Z.even b) eqn:Eb; unfold new_location_even, new_location_odd.
  all: destruct (Z.eqb_spec r 0) as [-> | Hr0]; [reflexivity |].
  all: rewrite (proj2 (Z.eqb_neq (2 * r) 0)) by lia; f_equal.
  - destruct (Z.compare_spec (2 * (2 * r)) (2 * b));
      destruct (Z.compare_spec (2 * r) b); try reflexivity; lia.
  - assert (Hodd : Z.odd b = true)
      by (rewrite <- Z.negb_even, Eb; reflexivity).
    apply Z.odd_spec in Hodd. destruct Hodd as [k Hk].
    destruct (Z.compare_spec (2 * (2 * r)) (2 * b));
      destruct (Z.compare_spec (2 * r + 1) b); try reflexivity; lia.
Qed.

Lemma core_shift (m s : Z) :
  0 <= s ->
  match s with Zpos _ => Z.shiftl m s | Z0 => m | Zneg _ => 0 end = m * 2 ^ s.
Proof.
  intros Hs. destruct s as [| p | p]; [cbn; lia | | lia].
  now rewrite Z.shiftl_mul_pow2 by lia.
Qed.

Lemma fdiv_finite (s1 s2 : bool) (m1 m2 : positive) (e1 e2 : Z) :
  fdiv (S754_finite s1 m1 e1) (S754_finite s2 m2 e2)
  = round_triple (xorb s1 s2)
      (div_triple (Zpos m1) e1 (Zpos m2) e2
         (Zpos (digits2_pos m1) + e1 - (Zpos (digits2_pos m2) + e2))).
Proof.
  unfold fdiv, SFdiv, SFdiv_core_binary, div_triple, round_triple.
  cbn [Zdigits2]. cbv zeta. rewrite div_eucl_div_mod. reflexivity.
Qed.

Lemma shifted_double (m s : Z) :
  match s with
  | Zpos _ => Z.shiftl (2 * m) s
  | Z0 => 2 * m
  | Zneg _ => 0
  end
  = 2 * match s with
        | Zpos _ => Z.shiftl m s
        | Z0 => m
        | Zneg _ => 0
        end.
Proof.
  destruct s as [| p | p]; [reflexivity | | reflexivity].
  rewrite !Z.shiftl_mul_pow2 by lia. ring.
Qed.

Lemma shifted_succ (m s : Z) :
  0 <= s ->
  match s + 1 with
  | Zpos _ => Z.shiftl m (s + 1)
  | Z0 => m
  | Zneg _ => 0
  end
  = 2 * match s with
        | Zpos _ => Z.shiftl m s
        | Z0 => m
        | Zneg _ => 0
        end.
Proof.
  intros Hs. rewrite !core_shift by lia.
  rewrite Z.pow_add_r by lia. ring.
Qed.

(** Doubling dividend and divisor mantissas leaves the triple unchanged. *)
Lemma div_triple_double_both (m1 m2 : positive) (e1 e2 D : Z) :
  div_triple (Zpos m1~0) e1 (Zpos m2~0) e2 D
  = div_triple (Zpos m1) e1 (Zpos m2) e2 D.
Proof.
  unfold div_triple. cbv zeta.
  change (Zpos m1~0) with (2 * Zpos m1). change (Zpos m2~0) with (2 * Zpos m2).
  rewrite shifted_double.
  set (m' := match e1 - e2 - Z.min (fexp prec32 emax32 D) (e1 - e2) with
             | Zpos _ => Z.shiftl (Zpos m1) _
             | Z0 => Zpos m1
             | Zneg _ => 0
             end).
  rewrite Z.div_mul_cancel_l by lia.
  rewrite Z.mul_mod_distr_l by lia.
  rewrite new_location_double; [reflexivity | lia |].
  apply Z.mod_pos_bound. lia.
Qed.

(** Raising the dividend's exponent and doubling the divisor's mantissa. *)
Lemma div_triple_double_divisor (m1 m2 : positive) (e1 e2 D : Z) :
  fexp prec32 emax32 D <= e1 - e2 ->
  div_triple (Zpos m1) (e1 + 1) (Zpos m2~0) e2 D
  = div_triple (Zpos m1) e1 (Zpos m2) e2 D.
Proof.
  intros Hf. unfold div_triple. cbv zeta.
  rewrite !Z.min_l by lia.
  replace (e1 + 1 - e2 - fexp prec32 emax32 D)
    with (e1 - e2 - fexp prec32 emax32 D + 1) by lia.
  rewrite shifted_succ by lia.
  change (Zpos m2~0) with (2 * Zpos m2).
  set (m' := match e1 - e2 - fexp prec32 emax32 D with
             | Zpos _ => Z.shiftl (Zpos m1) _
             | Z0 => Zpos m1
             | Zneg _ => 0
             end).
  rewrite Z.div_mul_cancel_l by lia.
  rewrite Z.mul_mod_distr_l by lia.
  rewrite new_location_double; [reflexivity | lia |].
  apply Z.mod_pos_bound. lia.
Qed.

(** Doubling the dividend's mantissa and raising the divisor's exponent. *)
Lemma div_triple_double_dividend (m1 m2 : positive) (e1 e2 D : Z) :
  fexp prec32 emax32 D <= e1 - e2 - 1 ->
  div_triple (Zpos m1~0) e1 (Zpos m2) (e2 + 1) D
  = div_triple (Zpos m1) e1 (Zpos m2) e2 D.
Proof.
  intros Hf. unfold div_triple. cbv zeta.
  rewrite !Z.min_l by lia.
  change (Zpos m1~0) with (2 * Zpos m1).
  rewrite !core_shift by lia.
  replace (e1 - e2 - fexp prec32 emax32 D)
    with (e1 - (e2 + 1) - fexp prec32 emax32 D + 1) by lia.
  rewrite Z.pow_add_r by lia.
  replace (2 * Z.pos m1 * 2 ^ (e1 - (e2 + 1) - fexp prec32 emax32 D))
    with (Z.pos m1 * (2 ^ (e1 - (e2 + 1) - fexp prec32 emax32 D) * 2 ^ 1))
    by ring.
  reflexivity.
Qed.

(** *** Quotients below the least subnormal *)

Lemma iter_shr_zero (p : positive) (r s : bool) :
  r || s = true ->
  SpecFloat.iter_pos shr_1 p {| shr_m := 0; shr_r := r; shr_s := s |}
  = {| shr_m := 0; shr_r := false; shr_s := true |}.
Proof.
  revert r s. induction p as [p IH | p IH |]; intros r s Hrs; cbn.
  - rewrite Hrs. now rewrite !IH.
  - now rewrite !IH.
  - now rewrite Hrs.
Qed.

Lemma iter_shr_one (p : positive) (r s : bool) :
  SpecFloat.iter_pos shr_1 p {| shr_m := 1; shr_r := r; shr_s := s |}
  = if (p =? 1)%positive
    then {| shr_m := 0; shr_r := true; shr_s := r || s |}
    else {| shr_m := 0; shr_r := false; shr_s := true |}.
Proof.
  revert r s. destruct p as [p | p |]; intros r s; cbn.
  - now rewrite !iter_shr_zero.
  - assert (H : exists r' s', r' || s' = true /\
               SpecFloat.iter_pos shr_1 p
                 {| shr_m := 1; shr_r := r; shr_s := s |}
               = {| shr_m := 0; shr_r := r'; shr_s := s' |}).
    { clear. revert r s. induction p as [p IH | p IH |]; intros r s; cbn.
      - exists false, true. split; [reflexivity |]. now rewrite !iter_shr_zero.
      - destruct (IH r s) as [r' [s' [Hrs ->]]].
        exists false, true. split; [reflexivity |]. now rewrite iter_shr_zero.
      - exists true, (r || s). split; reflexivity. }
    destruct H as [r' [s' [Hrs ->]]]. now rewrite iter_shr_zero.
  - reflexivity.
Qed.

Lemma round_tiny_0 (sx : bool) (E : Z) (c : comparison) :
  E <= -149 ->
  binary_round_aux prec32 emax32 sx 0 E (loc_Inexact c)
  = if (E =? -149) && match c with Gt => true | _ => false end
    then S754_finite sx 1 (-149)
    else S754_zero sx.
Proof.
  intros HE. unfold binary_round_aux, shr_fexp.
  cbn [Zdigits2]. unfold fexp, emin, prec32, emax32.
  destruct (Z.eqb_spec E (-149)) as [-> | Hne].
  - destruct c; reflexivity.
  - cbn [andb].
    assert (Hk : exists p, Z.max (0 + E - 24) (3 - 128 - 24) - E = Zpos p).
    { destruct (Z.max (0 + E - 24) (3 - 128 - 24) - E) eqn:Ek; try lia.
      now eexists. }
    destruct Hk as [p Hp]. rewrite Hp. cbn [shr].
    assert (Hrec : exists r s,
              shr_record_of_loc 0 (loc_Inexact c)
              = {| shr_m := 0; shr_r := r; shr_s := s |}
              /\ r || s = true).
    { destruct c; cbn; eexists _, _; split; reflexivity. }
    destruct Hrec as [r [s [-> Hrs]]].
    rewrite iter_shr_zero by exact Hrs.
    cbn [shr_m loc_of_shr_record round_nearest_even shr_record_of_loc Zdigits2].
    replace (Z.max (0 + (E + Z.pos p) - 24) (3 - 128 - 24) - (E + Z.pos p))
      with 0 by lia.
    reflexivity.
Qed.

Lemma round_tiny_1 (sx : bool) (E : Z) (l : location) :
  E <= -150 ->
  binary_round_aux prec32 emax32 sx 1 E l
  = if (E =? -150) && match l with loc_Exact => false | _ => true end
    then S754_finite sx 1 (-149)
    else S754_zero sx.
Proof.
  intros HE. unfold binary_round_aux, shr_fexp.
  cbn [Zdigits2 digits2_pos]. unfold fexp, emin, prec32, emax32.
  assert (Hk : exists p, Z.max (1 + E - 24) (3 - 128 - 24) - E = Zpos p
                         /\ Zpos p = -149 - E).
  { destruct (Z.max (1 + E - 24) (3 - 128 - 24) - E) eqn:Ek; try lia.
    eexists. split; [reflexivity | lia]. }
  destruct Hk as [p [Hp Hpv]]. rewrite Hp. cbn [shr].
  assert (Hrec : exists r s,
            shr_record_of_loc 1 l = {| shr_m := 1; shr_r := r; shr_s := s |}
            /\ r || s = match l with loc_Exact => false | _ => true end).
  { destruct l as [| []]; cbn; eexists _, _; split; reflexivity. }
  destruct Hrec as [r [s [-> Hrs]]].
  rewrite iter_shr_one, Hrs.
  replace (E + Z.pos p) with (-149) by lia.
  destruct (Pos.eqb_spec p 1) as [-> | Hp1].
  - replace (E =? -150) with true by (symmetry; apply Z.eqb_eq; lia).
    now destruct l as [| []].
  - replace (E =? -150) with false by (symmetry; apply Z.eqb_neq; lia).
    reflexivity.
Qed.

Lemma new_location_inexact (b r : Z) :
  0 < r < b ->
  exists c, new_location b r = loc_Inexact c
            /\ match c with Gt => true | _ => false end = (b <? 2 * r).
Proof.
  intros Hr. unfold new_location.
  destruct (Z.even b) eqn:Eb; unfold new_location_even, new_location_odd;
    rewrite (proj2 (Z.eqb_neq r 0)) by lia; eexists; (split; [reflexivity |]).
  - destruct (Z.compare_spec (2 * r) b); destruct (Z.ltb_spec b (2 * r));
      try reflexivity; lia.
  - assert (Hodd : Z.odd b = true)
      by (rewrite <- Z.negb_even, Eb; reflexivity).
    apply Z.odd_spec in Hodd. destruct Hodd as [k Hk].
    destruct (Z.compare_spec (2 * r + 1) b); destruct (Z.ltb_spec b (2 * r));
      try reflexivity; lia.
Qed.

Lemma new_location_exact (b r : Z) :
  match new_location b r with loc_Exact => false | _ => true end
  = negb (r =? 0).
Proof.
  unfold new_location.
  destruct (Z.even b); unfold new_location_even, new_location_odd;
    now destruct (r =? 0).
Qed.

Section TinyQuotient.
Variables (s1 s2 : bool) (m1 m2 : positive) (e2 : Z).
Hypothesis Hd1 : Zpos (digits2_pos m1) <= 23.
Hypothesis Hd2 : Zpos (digits2_pos m2) = 24.
Hypothesis He2 : 0 <= e2.

Let tiny : GLfloat :=
  if (e2 =? 0) && (Zpos m2 <? 2 * Zpos m1)
  then S754_finite (xorb s1 s2) 1 (-149)
  else S754_zero (xorb s1 s2).

Lemma tiny_mantissas : Zpos m1 < 2 ^ 23 <= Zpos m2.
Proof.
  pose proof (digits2_bounds m1) as [_ H1].
  pose proof (digits2_bounds m2) as [H2 _].
  rewrite Hd2 in H2. change (2 ^ (24 - 1)) with (2 ^ 23) in H2.
  split; [| exact H2].
  apply (Z.lt_le_trans _ _ _ H1).
  apply Z.pow_le_mono_r; lia.
Qed.

Lemma tiny_fexp (d : Z) :
  d <= 24 ->
  fexp prec32 emax32 (d + -149 - (Zpos (digits2_pos m2) + e2)) = -149.
Proof.
  intros Hd. rewrite Hd2. unfold fexp, emin, prec32, emax32. lia.
Qed.

Lemma fdiv_tiny :
  fdiv (S754_finite s1 m1 (-149)) (S754_finite s2 m2 e2) = tiny.
Proof.
  pose proof tiny_mantissas as [Hm1 Hm2].
  rewrite fdiv_finite. unfold div_triple. cbv zeta.
  rewrite tiny_fexp by lia.
  rewrite Z.min_r by lia.
  replace (-149 - e2 - (-149 - e2)) with 0 by lia.
  rewrite Z.div_small, Z.mod_small by lia.
  destruct (new_location_inexact (Zpos m2) (Zpos m1)) as [c [-> Hc]]; [lia |].
  unfold round_triple. rewrite round_tiny_0 by lia.
  unfold tiny. rewrite Hc.
  replace (-149 - e2 =? -149) with (e2 =? 0); [reflexivity |].
  destruct (Z.eqb_spec e2 0); destruct (Z.eqb_spec (-149 - e2) (-149));
    try reflexivity; lia.
Qed.

Lemma fdiv_tiny_doubled :
  fdiv (S754_finite s1 m1~0 (-149)) (S754_finite s2 m2 (e2 + 1)) = tiny.
Proof.
  pose proof tiny_mantissas as [Hm1 Hm2].
  rewrite fdiv_finite. cbn [digits2_pos]. rewrite Pos2Z.inj_succ.
  replace (Z.succ (Zpos (digits2_pos m1)) + -149
           - (Zpos (digits2_pos m2) + (e2 + 1)))
    with (Zpos (digits2_pos m1) + -149 - (Zpos (digits2_pos m2) + e2)) by lia.
  unfold div_triple. cbv zeta.
  rewrite tiny_fexp by lia.
  rewrite Z.min_r by lia.
  replace (-149 - (e2 + 1) - (-149 - (e2 + 1))) with 0 by lia.
  change (Zpos m1~0) with (2 * Zpos m1).
  unfold round_triple, tiny.
  destruct (Z.ltb_spec (2 * Zpos m1) (Zpos m2)) as [Hlt | Hge].
  - rewrite Z.div_small, Z.mod_small by lia.
    destruct (new_location_inexact (Zpos m2) (2 * Zpos m1)) as [c [-> Hc]];
      [lia |].
    rewrite round_tiny_0 by lia.
    replace (-149 - (e2 + 1) =? -149) with false
      by (symmetry; apply Z.eqb_neq; lia).
    replace (Zpos m2 <? 2 * Zpos m1) with false
      by (symmetry; apply Z.ltb_ge; lia).
    now rewrite andb_false_r.
  - assert (Hq : 2 * Zpos m1 / Zpos m2 = 1).
    { symmetry. apply (Z.div_unique_pos _ _ 1 (2 * Zpos m1 - Zpos m2)); lia. }
    assert (Hr : (2 * Zpos m1) mod Zpos m2 = 2 * Zpos m1 - Zpos m2).
    { symmetry. apply (Z.mod_unique_pos _ _ 1); lia. }
    rewrite Hq, Hr, round_tiny_1 by lia.
    rewrite new_location_exact.
    replace (-149 - (e2 + 1) =? -150) with (e2 =? 0)
      by (destruct (Z.eqb_spec e2 0);
          destruct (Z.eqb_spec (-149 - (e2 + 1)) (-150));
          try reflexivity; lia).
    replace (negb (2 * Zpos m1 - Zpos m2 =? 0)) with (Zpos m2 <? 2 * Zpos m1);
      [reflexivity |].
    destruct (Z.ltb_spec (Zpos m2) (2 * Zpos m1));
      destruct (Z.eqb_spec (2 * Zpos m1 - Zpos m2) 0); try reflexivity; lia.
Qed.
End TinyQuotient.

(** *** Doubling *)

(** A well-formed finite number is normal (24 digits) or subnormal (fewer
    digits, at the least exponent). *)
Lemma bounded32_cases (m : positive) (e : Z) :
  SpecFloat.bounded prec32 emax32 m e = true ->
  (Zpos (digits2_pos m) = 24 /\ -149 <= e <= 104)
  \/ (Zpos (digits2_pos m) <= 23 /\ e = -149).
Proof.
  intros Hb. apply bounded32_inv in Hb. lia.
Qed.

Lemma fadd_self_normal (s : bool) (m : positive) (e : Z) :
  Zpos (digits2_pos m) = 24 -> -149 <= e <= 103 ->
  fadd (S754_finite s m e) (S754_finite s m e) = S754_finite s m (e + 1).
Proof.
  intros Hd He.
  unfold fadd, SFadd. rewrite Z.min_id.
  unfold shl_align. rewrite Z.sub_diag. cbn [fst].
  assert (Hsum : cond_Zopp s (Zpos m) + cond_Zopp s (Zpos m)
                 = cond_Zopp s (Zpos m~0)) by (destruct s; cbn; lia).
  rewrite Hsum.
  assert (Hn : binary_normalize prec32 emax32 (cond_Zopp s (Zpos m~0)) e false
               = binary_round prec32 emax32 s m~0 e)
    by (destruct s; reflexivity).
  rewrite Hn. unfold binary_round, shl_align.
  cbn [digits2_pos]. rewrite Pos2Z.inj_succ, Hd.
  unfold fexp, emin, prec32, emax32.
  replace (Z.max (Z.succ 24 + e - 24) (3 - 128 - 24) - e) with 1 by lia.
  unfold binary_round_aux, shr_fexp.
  cbn [Zdigits2 digits2_pos shr_record_of_loc].
  rewrite Pos2Z.inj_succ, Hd.
  unfold fexp, emin.
  shift_by 1.
  cbn [shr SpecFloat.iter_pos shr_1 orb shr_m loc_of_shr_record
       round_nearest_even Zdigits2].
  rewrite Hd. shift_by 0. cbn [shr shr_m].
  replace (e + 1 <=? 128 - 24) with true by (symmetry; apply Z.leb_le; lia).
  reflexivity.
Qed.

Lemma fadd_self_subnormal (s : bool) (m : positive) :
  Zpos (digits2_pos m) <= 23 ->
  fadd (S754_finite s m (-149)) (S754_finite s m (-149))
  = S754_finite s m~0 (-149).
Proof.
  intros Hd.
  unfold fadd, SFadd. rewrite Z.min_id.
  unfold shl_align. rewrite Z.sub_diag. cbn [fst].
  assert (Hsum : cond_Zopp s (Zpos m) + cond_Zopp s (Zpos m)
                 = cond_Zopp s (Zpos m~0)) by (destruct s; cbn; lia).
  rewrite Hsum.
  assert (Hn : binary_normalize prec32 emax32 (cond_Zopp s (Zpos m~0)) (-149)
                 false
               = binary_round prec32 emax32 s m~0 (-149))
    by (destruct s; reflexivity).
  rewrite Hn. unfold binary_round, shl_align.
  cbn [digits2_pos]. rewrite Pos2Z.inj_succ.
  unfold fexp, emin, prec32, emax32.
  replace (Z.max (Z.succ (Zpos (digits2_pos m)) + -149 - 24) (3 - 128 - 24)
           - -149) with 0 by lia.
  unfold binary_round_aux, shr_fexp.
  cbn [Zdigits2 digits2_pos shr_record_of_loc].
  rewrite Pos2Z.inj_succ.
  unfold fexp, emin.
  shift_by 0.
  cbn [shr shr_m loc_of_shr_record round_nearest_even Zdigits2 digits2_pos].
  rewrite Pos2Z.inj_succ. shift_by 0. cbn [shr shr_m].
  reflexivity.
Qed.

Lemma doubles_finitely_inv (s : bool) (m : positive) (e : Z) :
  doubles_finitely (S754_finite s m e) = true ->
  (Zpos (digits2_pos m) = 24 /\ -149 <= e <= 103)
  \/ (Zpos (digits2_pos m) <= 23 /\ e = -149).
Proof.
  cbn [doubles_finitely]. intros H. apply andb_true_iff in H.
  destruct H as [Hb He]. apply Z.leb_le in He.
  apply bounded32_cases in Hb. lia.
Qed.

Lemma fdiv_shift (s1 s2 : bool) (m1 m2 : positive) (e1 e2 : Z) :
  fdiv (S754_finite s1 m1 (e1 + 1)) (S754_finite s2 m2 (e2 + 1))
  = fdiv (S754_finite s1 m1 e1) (S754_finite s2 m2 e2).
Proof.
  rewrite !fdiv_finite. f_equal. unfold div_triple.
  replace (Zpos (digits2_pos m1) + (e1 + 1)
           - (Zpos (digits2_pos m2) + (e2 + 1)))
    with (Zpos (digits2_pos m1) + e1 - (Zpos (digits2_pos m2) + e2)) by lia.
  replace (e1 + 1 - (e2 + 1)) with (e1 - e2) by lia.
  reflexivity.
Qed.

(** [x + x] for a finite non-zero [x] below [2^127]: a finite number of
    the same sign. *)
Lemma fadd_self_finite (s : bool) (m : positive) (e : Z) :
  doubles_finitely (S754_finite s m e) = true ->
  exists m' e', fadd (S754_finite s m e) (S754_finite s m e)
                = S754_finite s m' e'.
Proof.
  intros H. destruct (doubles_finitely_inv s m e H) as [[Hd He] | [Hd ->]].
  - rewrite fadd_self_normal by assumption. now eexists _, _.
  - rewrite fadd_self_subnormal by assumption. now eexists _, _.
Qed.

(** Dividing [n + n] by [x + x] is dividing [n] by [x]. *)
Lemma fdiv_doubled (n x : GLfloat) :
  doubles_finitely n = true -> doubles_finitely x = true ->
  is_zero x = false ->
  fdiv (fadd n n) (fadd x x) = fdiv n x.
Proof.
  intros Hn Hx Hx0.
  destruct x as [s2 | s2 | | s2 m2 e2]; try discriminate.
  destruct n as [s1 | s1 | | s1 m1 e1]; try discriminate.
  - destruct (fadd_self_finite s2 m2 e2 Hx) as [m' [e' ->]].
    now destruct s1.
  - destruct (doubles_finitely_inv s1 m1 e1 Hn) as [[Hd1 He1] | [Hd1 ->]];
      destruct (doubles_finitely_inv s2 m2 e2 Hx) as [[Hd2 He2] | [Hd2 ->]].
    + rewrite !fadd_self_normal by assumption. apply fdiv_shift.
    + rewrite fadd_self_normal, fadd_self_subnormal by assumption.
      rewrite !fdiv_finite. f_equal.
      cbn [digits2_pos]. rewrite Pos2Z.inj_succ.
      replace (Zpos (digits2_pos m1) + (e1 + 1)
               - (Z.succ (Zpos (digits2_pos m2)) + -149))
        with (Zpos (digits2_pos m1) + e1 - (Zpos (digits2_pos m2) + -149))
        by lia.
      apply div_triple_double_divisor.
      unfold fexp, emin, prec32, emax32. lia.
    + rewrite fadd_self_subnormal, fadd_self_normal by assumption.
      destruct (Z.le_gt_cases 0 e2) as [Hpos | Hneg].
      * rewrite fdiv_tiny_doubled, fdiv_tiny by assumption. reflexivity.
      * rewrite !fdiv_finite. f_equal.
        cbn [digits2_pos]. rewrite Pos2Z.inj_succ.
        replace (Z.succ (Zpos (digits2_pos m1)) + -149
                 - (Zpos (digits2_pos m2) + (e2 + 1)))
          with (Zpos (digits2_pos m1) + -149 - (Zpos (digits2_pos m2) + e2))
          by lia.
        apply div_triple_double_dividend.
        unfold fexp, emin, prec32, emax32. lia.
    + rewrite !fadd_self_subnormal by assumption.
      rewrite !fdiv_finite. f_equal.
      cbn [digits2_pos]. rewrite !Pos2Z.inj_succ.
      replace (Z.succ (Zpos (digits2_pos m1)) + -149
               - (Z.succ (Zpos (digits2_pos m2)) + -149))
        with (Zpos (digits2_pos m1) + -149 - (Zpos (digits2_pos m2) + -149))
        by lia.
      apply div_triple_double_both.
Qed.

Lemma fsub_fneg (x : GLfloat) :
  is_finite x = true -> is_zero x = false -> fsub x (fneg x) = fadd x x.
Proof.
  destruct x as [s | s | | s m e]; try discriminate. intros _ _.
  unfold fsub, fadd, fneg, SFsub, SFadd, SFopp.
  f_equal. destruct s; cbn [negb cond_Zopp]; lia.
Qed.

Lemma fadd_fneg (x : GLfloat) :
  is_finite x = true -> is_zero x = false ->
  fadd x (fneg x) = S754_zero false.
Proof.
  destruct x as [s | s | | s m e]; try discriminate. intros _ _.
  unfold fadd, fneg, SFadd, SFopp.
  replace (cond_Zopp s (Z.pos (fst (shl_align m e (Z.min e e)))) +
           cond_Zopp (negb s) (Z.pos (fst (shl_align m e (Z.min e e)))))
    with 0 by (destruct s; cbn [negb cond_Zopp]; lia).
  reflexivity.
Qed.

Lemma doubles_finitely_finite (x : GLfloat) :
  doubles_finitely x = true -> is_finite x = true.
Proof. now destruct x. Qed.

(** The two entries of a symmetric frustum, against those of the
    field-of-view form. *)
Lemma symmetric_frustum_entries (n x : GLfloat) :
  doubles_finitely n = true -> doubles_finitely x = true ->
  is_zero x = false ->
  fdiv (fadd n n) (fsub x (fneg x)) = fdiv n x
  /\ is_zero (fdiv (fadd x (fneg x)) (fsub x (fneg x))) = true.
Proof.
  intros Hn Hx Hx0.
  pose proof (doubles_finitely_finite x Hx) as Hf.
  rewrite fsub_fneg, fadd_fneg by assumption.
  split; [now apply fdiv_doubled |].
  destruct x as [s | s | | s m e]; try discriminate.
  destruct (fadd_self_finite s m e Hx) as [m' [e' ->]]. reflexivity.
Qed.


(** ** Vectors and matrices *)

(** C10: the default-constructed [vec3] and [vec4] are the zero vectors:
    each of their components is [0]. *)
Theorem default_vectors_are_zero :
  (vec3_get vec3_default 0 = Some (of_int 0)
   /\ vec3_get vec3_default 1 = Some (of_int 0)
   /\ vec3_get vec3_default 2 = Some (of_int 0))
  /\ (vec4_get vec4_default 0 = Some (of_int 0)
      /\ vec4_get vec4_default 1 = Some (of_int 0)
      /\ vec4_get vec4_default 2 = Some (of_int 0)
      /\ vec4_get vec4_default 3 = Some (of_int 0))
  /\ of_int 0 = S754_zero false.
Proof. repeat split. Qed.

Lemma vec4_finite_inv (v : vec4) :
  vec4_finite v = true ->
  (valid32 (v4_0 v) = true /\ is_finite (v4_0 v) = true)
  /\ (valid32 (v4_1 v) = true /\ is_finite (v4_1 v) = true)
  /\ (valid32 (v4_2 v) = true /\ is_finite (v4_2 v) = true)
  /\ (valid32 (v4_3 v) = true /\ is_finite (v4_3 v) = true).
Proof.
  unfold vec4_finite. rewrite !andb_true_iff. tauto.
Qed.

Lemma mat4_default_mul_same (v : vec4) :
  vec4_finite v = true -> vec4_same (mat4_mul_vec4 mat4_default v) v.
Proof.
  intros Hv. apply vec4_finite_inv in Hv.
  destruct v as [a b c d]. cbn [v4_0 v4_1 v4_2 v4_3] in Hv.
  destruct Hv as [[Va Fa] [[Vb Fb] [[Vc Fc] [Vd Fd]]]].
  unfold vec4_same, mat4_default, mat4_mul_vec4, vec4_dot.
  cbn [v4_0 v4_1 v4_2 v4_3].
  rewrite !fmul_1_l by assumption.
  repeat split.
  - now apply unit_row_0.
  - now apply unit_row_1.
  - now apply unit_row_2.
  - now apply unit_row_3.
Qed.

(** C6, as amended: the default-constructed [mat4] is the identity matrix,
    and for every vector [v] of four finite numbers [mat4() * v] is
    numerically [v]: it compares equal to [v] component by component, every
    non-zero component being returned as it is and every zero component as
    a zero. *)
Theorem mat4_default_is_identity_on_finite :
  (forall i j, 0 <= i < 4 -> 0 <= j < 4 ->
     mat4_elt mat4_default i j
     = Some (if i =? j then of_int 1 else of_int 0))
  /\ (forall v, vec4_finite v = true ->
       vec4_eqb (mat4_mul_vec4 mat4_default v) v = true
       /\ vec4_same (mat4_mul_vec4 mat4_default v) v).
Proof.
  split.
  - intros i j Hi Hj.
    assert (Ei : i = 0 \/ i = 1 \/ i = 2 \/ i = 3) by lia.
    assert (Ej : j = 0 \/ j = 1 \/ j = 2 \/ j = 3) by lia.
    destruct Ei as [-> | [-> | [-> | ->]]];
      destruct Ej as [-> | [-> | [-> | ->]]]; reflexivity.
  - intros v Hv. pose proof (mat4_default_mul_same v Hv) as Hs.
    split; [| exact Hs].
    apply vec4_finite_inv in Hv.
    destruct Hv as [[_ F0] [[_ F1] [[_ F2] [_ F3]]]].
    destruct Hs as [S0 [S1 [S2 S3]]].
    unfold vec4_eqb.
    rewrite (same_value_feqb _ _ F0 S0), (same_value_feqb _ _ F1 S1),
      (same_value_feqb _ _ F2 S2), (same_value_feqb _ _ F3 S3).
    reflexivity.
Qed.

Lemma mat4_default_is_identity_on_finite_witness :
  let v := Vec4 (of_int 3) (S754_zero true) (of_int (-7)) (of_int 1) in
  vec4_finite v = true
  /\ mat4_elt mat4_default 2 2 = Some (of_int 1)
  /\ mat4_elt mat4_default 2 3 = Some (of_int 0)
  /\ vec4_eqb (mat4_mul_vec4 mat4_default v) v = true
  /\ vec4_same (mat4_mul_vec4 mat4_default v) v.
Proof.
  cbv zeta.
  destruct mat4_default_is_identity_on_finite as [Hid Hmul].
  split; [reflexivity |].
  split; [exact (Hid 2 2 ltac:(lia) ltac:(lia)) |].
  split; [exact (Hid 2 3 ltac:(lia) ltac:(lia)) |].
  apply Hmul. reflexivity.
Defined.

(** C6, as stated, fails on a vector with an infinite component: the
    products [0 * inf] of the other rows are NaNs. *)
Lemma mat4_default_mul_infinity :
  mat4_mul_vec4 mat4_default
    (Vec4 (S754_infinity false) (of_int 0) (of_int 0) (of_int 0))
  = Vec4 (S754_infinity false) S754_nan S754_nan S754_nan
  /\ mat4_mul_vec4 mat4_default
       (Vec4 (S754_infinity false) (of_int 0) (of_int 0) (of_int 0))
     <> Vec4 (S754_infinity false) (of_int 0) (of_int 0) (of_int 0)
  /\ vec4_eqb
       (mat4_mul_vec4 mat4_default
          (Vec4 (S754_infinity false) (of_int 0) (of_int 0) (of_int 0)))
       (Vec4 (S754_infinity false) (of_int 0) (of_int 0) (of_int 0))
     = false.
Proof.
  split; [reflexivity |]. split; [| reflexivity].
  intros H. discriminate H.
Qed.

(** ** The two perspective forms *)

(** C2, as amended: let [y] be [n * tan(v / 2)] as
    [perspective(v, a, n, f)] computes it, the product taken in double
    precision and converted once to single precision, and [x = y * a]
    its single-precision product.  Whenever [n], [x] and [y] are finite
    numbers of magnitude below [2^127], and [x] and [y] are not zero,
    [perspective(v, a, n, f)] and [perspective(-x, x, -y, y, n, f)] are
    numerically identical: their entries are the same data, but for the
    entries [[0][2]] and [[1][2]], which are the literal [0] in the
    first and a zero of either sign in the second. *)
Theorem perspective_forms_agree
  (tan : double -> double) (v a n f : GLfloat) :
  let y := perspective_y tan v n in
  let x := fmul y a in
  doubles_finitely n = true ->
  doubles_finitely x = true -> is_zero x = false ->
  doubles_finitely y = true -> is_zero y = false ->
  mat4_same (perspective tan v a n f)
            (perspective_frustum (fneg x) x (fneg y) y n f).
Proof.
  cbv zeta. intros Hn Hx Hx0 Hy Hy0.
  destruct (symmetric_frustum_entries n _ Hn Hx Hx0) as [Ex Zx].
  destruct (symmetric_frustum_entries n _ Hn Hy Hy0) as [Ey Zy].
  unfold perspective, perspective_frustum, mat4_same, mat4_of, mat4_buffer,
    vec4_buffer. cbv zeta. cbn [m4_0 m4_1 m4_2 m4_3 v4_0 v4_1 v4_2 v4_3 app].
  rewrite Ex, Ey.
  repeat match goal with
    | |- Forall2 _ (_ :: _) (_ :: _) => apply Forall2_cons
    | |- Forall2 _ [] [] => apply Forall2_nil
    | |- same_value ?u ?u => apply same_value_refl
    end.
  - right. split; [reflexivity | exact Zx].
  - right. split; [reflexivity | exact Zy].
Qed.

Lemma perspective_forms_agree_witness :
  let v := of_int 2 in
  let a := of_int 3 in
  let n := of_int 1 in
  let f := of_int 10 in
  let y := perspective_y tan_one v n in
  let x := fmul y a in
  (y = of_int 1 /\ x = of_int 3)
  /\ doubles_finitely n = true
  /\ doubles_finitely x = true /\ is_zero x = false
  /\ doubles_finitely y = true /\ is_zero y = false
  /\ mat4_same (perspective tan_one v a n f)
               (perspective_frustum (fneg x) x (fneg y) y n f).
Proof.
  cbv zeta. split; [split; reflexivity |].
  repeat (split; [reflexivity |]).
  exact (perspective_forms_agree tan_one (of_int 2) (of_int 3) (of_int 1)
           (of_int 10) eq_refl eq_refl eq_refl eq_refl eq_refl).
Defined.

(** C2, as stated, fails outside these bounds.  At the aspect ratio 0,
    whatever the tangent, the field of view and the clipping distances:
    [x = y * 0] is a zero or a NaN, so that the entry [[0][2]] of the
    six-argument form, [(r + l) / (r - l)], is a NaN, where the
    four-argument form has 0.  And at the aspect ratio 1 with the near
    distance [2^127], a finite number: [n + n] and [r - l] overflow, so
    that the entry [[0][0]] of the six-argument form is a NaN, where the
    four-argument form has [n / x = 1]. *)
Lemma perspective_forms_differ_at_aspect_0 :
  (~ exists (tan : double -> double) (v n f : GLfloat),
       let y := perspective_y tan v n in
       let x := fmul y (of_int 0) in
       mat4_same (perspective tan v (of_int 0) n f)
                 (perspective_frustum (fneg x) x (fneg y) y n f))
  /\ (let v := of_int 2 in
      let n := of_int (2 ^ 127) in
      let f := of_int 1 in
      let y := perspective_y tan_one v n in
      let x := fmul y (of_int 1) in
      is_finite n = true /\ y = n /\ x = n
      /\ mat4_elt (perspective tan_one v (of_int 1) n f) 0 0
         = Some (of_int 1)
      /\ mat4_elt (perspective_frustum (fneg x) x (fneg y) y n f) 0 0
         = Some S754_nan).
Proof.
  split.
  - intros [tan [v [n [f H]]]]. cbv zeta in H.
    unfold perspective, perspective_frustum, mat4_same, mat4_of, mat4_buffer,
      vec4_buffer in H.
    cbv zeta in H. cbn [m4_0 m4_1 m4_2 m4_3 v4_0 v4_1 v4_2 v4_3 app] in H.
    apply Forall2_cons_iff in H. destruct H as [_ H].
    apply Forall2_cons_iff in H. destruct H as [_ H].
    apply Forall2_cons_iff in H. destruct H as [H _].
    set (y := perspective_y tan v n) in H. clearbody y.
    change (of_int 0) with (S754_zero false) in H.
    destruct y as [[|] | [|] | | [|] m e]; cbn in H;
      destruct H as [H | [_ H]]; discriminate H.
  - cbv zeta. repeat split; reflexivity.
Qed.

(** ** The normal matrix *)

Lemma fabs_is_zero (d : GLfloat) :
  feqb (fabs d) (of_int 0) = true -> is_zero d = true.
Proof. destruct d as [s | s | | s m e]; try discriminate; reflexivity. Qed.

Lemma fgtb_fabs_zero (d : GLfloat) :
  is_zero d = true -> fgtb (fabs d) (of_int 0) = false.
Proof. destruct d as [s | s | | s m e]; try discriminate; reflexivity. Qed.

(** C5, as amended: when the determinant [d] of the upper-left 3x3 block,
    as [normal] computes it in single precision, every product and every
    sum rounded, has absolute value zero ([fabs(d) == 0]), [normal(M)] is
    the identity 3x3 matrix, the value of [mat3()]. *)
Theorem normal_zero_determinant (M : mat4) :
  feqb (fabs (normal_d M)) (of_int 0) = true ->
  normal M = mat3_default
  /\ mat3_default = mat3_of (of_int 1) (of_int 0) (of_int 0)
                            (of_int 0) (of_int 1) (of_int 0)
                            (of_int 0) (of_int 0) (of_int 1).
Proof.
  intros Hd. split; [| reflexivity].
  unfold normal. cbv zeta.
  now rewrite (fgtb_fabs_zero _ (fabs_is_zero _ Hd)).
Qed.

Lemma normal_zero_determinant_witness :
  feqb (fabs (normal_d mat4_zeros)) (of_int 0) = true
  /\ normal mat4_zeros = mat3_default.
Proof.
  split; [reflexivity |].
  exact (proj1 (normal_zero_determinant mat4_zeros eq_refl)).
Defined.

Lemma singular_block_entries :
  singular_block
  = mat4_of (S754_finite false 8388608 (-23)) (S754_finite false 8388608 (-11))
            (S754_finite false 8388608 (-24)) (S754_zero false)
            (S754_finite false 8388608 (-22)) (S754_finite false 8388608 (-10))
            (S754_finite false 8388608 (-23)) (S754_zero false)
            (S754_zero false) (S754_finite false 8388608 (-23))
            (S754_finite false 8388608 (-11)) (S754_zero false)
            (S754_zero false) (S754_zero false) (S754_zero false)
            (S754_finite false 8388608 (-23)).
Proof. vm_compute. reflexivity. Qed.

Lemma singular_block_det : det3_exact singular_block = 0%R.
Proof.
  rewrite singular_block_entries. unfold det3_exact, mat4_of, SF2R.
  cbn [Z.leb Z.compare Z.opp].
  change (2 ^ 23) with 8388608. change (2 ^ 11) with 2048.
  change (2 ^ 24) with 16777216. change (2 ^ 22) with 4194304.
  change (2 ^ 10) with 1024.
  lra.
Qed.

(** C5, as stated, fails on a block that is singular in exact arithmetic
    but whose determinant does not come out as zero.  For the rows
    [(1, 4096, 1/2)], [(2, 8192, 1)], [(0, 1, 4096)] the determinant is
    [0]: the second row is twice the first.  The code computes
    [2^25 - 1], which rounds to [2^25], then [+ 0 - 2^25 + 1 - 0]: its
    [d] is [1], and [normal] returns the cofactors, not the identity. *)
Lemma normal_of_a_singular_block :
  mat4_finite singular_block = true
  /\ det3_exact singular_block = 0%R
  /\ normal_d singular_block = of_int 1
  /\ feqb (fabs (normal_d singular_block)) (of_int 0) = false
  /\ normal singular_block = normal_cofactors singular_block
  /\ normal singular_block <> mat3_default.
Proof.
  split; [reflexivity |]. split; [exact singular_block_det |].
  split; [vm_compute; reflexivity |]. split; [vm_compute; reflexivity |].
  split; [vm_compute; reflexivity |].
  intros H. vm_compute in H. discriminate H.
Qed.

(** C9: [normal(M)] reads the upper-left 3x3 block of [M] only: two
    matrices that agree on the entries [[i][j]] with [i, j] in [{0, 1, 2}]
    have the same normal matrix, whatever their last column and last row. *)
Theorem normal_depends_on_upper_left_only (M N : mat4) :
  (forall i j, 0 <= i < 3 -> 0 <= j < 3 -> mat4_elt M i j = mat4_elt N i j) ->
  normal M = normal N.
Proof.
  intros H.
  destruct M as [[M00 M01 M02 M03] [M10 M11 M12 M13]
                 [M20 M21 M22 M23] [M30 M31 M32 M33]].
  destruct N as [[N00 N01 N02 N03] [N10 N11 N12 N13]
                 [N20 N21 N22 N23] [N30 N31 N32 N33]].
  pose proof (H 0 0 ltac:(lia) ltac:(lia)) as H00.
  pose proof (H 0 1 ltac:(lia) ltac:(lia)) as H01.
  pose proof (H 0 2 ltac:(lia) ltac:(lia)) as H02.
  pose proof (H 1 0 ltac:(lia) ltac:(lia)) as H10.
  pose proof (H 1 1 ltac:(lia) ltac:(lia)) as H11.
  pose proof (H 1 2 ltac:(lia) ltac:(lia)) as H12.
  pose proof (H 2 0 ltac:(lia) ltac:(lia)) as H20.
  pose proof (H 2 1 ltac:(lia) ltac:(lia)) as H21.
  pose proof (H 2 2 ltac:(lia) ltac:(lia)) as H22.
  cbn in H00, H01, H02, H10, H11, H12, H20, H21, H22.
  injection H00 as ->. injection H01 as ->. injection H02 as ->.
  injection H10 as ->. injection H11 as ->. injection H12 as ->.
  injection H20 as ->. injection H21 as ->. injection H22 as ->.
  reflexivity.
Qed.

Lemma normal_depends_on_upper_left_only_witness :
  let T := translation (Vec3 (of_int 5) (of_int 6) (of_int 7)) in
  mat4_elt T 0 3 = Some (of_int 5)
  /\ mat4_elt mat4_default 0 3 = Some (of_int 0)
  /\ normal T = normal mat4_default.
Proof.
  cbv zeta. split; [reflexivity |]. split; [reflexivity |].
  apply normal_depends_on_upper_left_only.
  intros i j Hi Hj.
  assert (Ei : i = 0 \/ i = 1 \/ i = 2) by lia.
  assert (Ej : j = 0 \/ j = 1 \/ j = 2) by lia.
  destruct Ei as [-> | [-> | ->]]; destruct Ej as [-> | [-> | ->]];
    reflexivity.
Defined.

(** Whenever [fabs(d) > 0.f], the result of [normal] is the matrix of the
    cofactors themselves: [d] decides the branch and is used for nothing
    else. *)
Lemma normal_nonzero_determinant (M : mat4) :
  fgtb (fabs (normal_d M)) (of_int 0) = true ->
  normal M = normal_cofactors M.
Proof. intros Hd. unfold normal. cbv zeta. now rewrite Hd. Qed.

(** C1, at the model-view matrix [scale(vec3(2, 2, 2))], whose upper-left
    block [2 I] has determinant 8 and inverse transpose [(1/2) I]: the
    documented result, cofactor over determinant, is [(1/2) I] and its
    transpose is a left inverse of the block, whereas [normal] returns the
    cofactors [4 I], eight times as much. *)
Theorem normal_scale_2_not_inverse_transpose :
  let M := scale (Vec3 (of_int 2) (of_int 2) (of_int 2)) in
  let half := fdiv (of_int 1) (of_int 2) in
  normal_d M = of_int 8
  /\ normal M = mat3_of (of_int 4) (of_int 0) (of_int 0)
                        (of_int 0) (of_int 4) (of_int 0)
                        (of_int 0) (of_int 0) (of_int 4)
  /\ normal_documented M = mat3_of half (of_int 0) (of_int 0)
                                   (of_int 0) half (of_int 0)
                                   (of_int 0) (of_int 0) half
  /\ mat3_mul (mat3_transpose (normal_documented M)) (upper_left M)
     = mat3_default
  /\ mat3_mul (mat3_transpose (normal M)) (upper_left M)
     = mat3_of (of_int 8) (of_int 0) (of_int 0)
               (of_int 0) (of_int 8) (of_int 0)
               (of_int 0) (of_int 0) (of_int 8)
  /\ normal M <> normal_documented M.
Proof.
  cbv zeta. repeat split; try reflexivity.
  intros H. discriminate H.
Qed.

(** ** Angle conversion *)

(** Ten digits of pi, from the alternating series of
    [pi/4 = 2 atan(1/3) + atan(1/7)] cut after its eleventh and twelfth
    terms. *)
Lemma PI_10_digits :
  (31415926535 / 10000000000 < PI < 31415926536 / 10000000000)%R.
Proof.
  pose proof (PI_2_3_7_ineq 5) as [Hlo Hhi].
  unfold PI_2_3_7_tg, tg_alt, Ratan_seq in Hlo, Hhi.
  cbn [sum_f_R0 Nat.mul Nat.add] in Hlo, Hhi.
  repeat rewrite INR_IZR_INZ in Hlo.
  repeat rewrite INR_IZR_INZ in Hhi.
  cbn [Z.of_nat Pos.of_succ_nat Pos.succ] in Hlo, Hhi.
  split; lra.
Qed.

Lemma to_radians_180 :
  to_radians (of_int 180) = S754_finite false 13176793 (-22).
Proof. vm_compute. reflexivity. Qed.

Lemma to_degrees_1 :
  to_degrees (of_int 1) = S754_finite false 15019745 (-18).
Proof. vm_compute. reflexivity. Qed.

Lemma SF2R_180 : SF2R (of_int 180) = 180%R.
Proof.
  change (of_int 180) with (S754_finite false 11796480 (-16)).
  unfold SF2R. cbn [Z.leb Z.compare].
  change (2 ^ (- -16)) with 65536. lra.
Qed.

Lemma SF2R_1 : SF2R (of_int 1) = 1%R.
Proof.
  change (of_int 1) with (S754_finite false 8388608 (-23)).
  unfold SF2R. cbn [Z.leb Z.compare].
  change (2 ^ (- -23)) with 8388608. lra.
Qed.

(** C8, as stated, fails at 180 degrees and at 1 radian: [to_radians(180)]
    is 13176793 / 2^22 = 3.14159226..., not pi; it is not even the
    [GLfloat] nearest to pi, which is 13176795 / 2^22, two units in the last
    place above.  And [to_degrees(1)] is 15019745 / 2^18 = 57.2957801...,
    not 180 / pi. *)
Lemma to_radians_180_is_not_pi :
  SF2R (to_radians (of_int 180)) <> (SF2R (of_int 180) * (PI / 180))%R
  /\ (to_radians (of_int 180) = S754_finite false 13176793 (-22)
      /\ (Rabs (SF2R (S754_finite false 13176795 (-22)) - PI) < / 2 ^ 23)%R
      /\ (3 / 10 ^ 7 < PI - SF2R (to_radians (of_int 180)))%R)
  /\ SF2R (to_degrees (of_int 1)) <> (SF2R (of_int 1) * (180 / PI))%R.
Proof.
  pose proof PI_10_digits as [Hlo Hhi].
  rewrite to_radians_180, to_degrees_1, SF2R_180, SF2R_1.
  unfold SF2R. cbn [Z.leb Z.compare].
  change (2 ^ (- -22)) with 4194304. change (2 ^ (- -18)) with 262144.
  split; [| split; [split; [| split] |]].
  - intros H. lra.
  - reflexivity.
  - apply Rabs_def1; lra.
  - lra.
  - intros H.
    assert (E : (15019745 / 262144 * PI = 180)%R).
    { rewrite H. field. lra. }
    lra.
Qed.

Lemma literal_values :
  lit_0_01745329 = S754_finite false 5030568341784909 (-58)
  /\ lit_57_2957795 = S754_finite false 8063664100190691 (-47).
Proof. split; vm_compute; reflexivity. Qed.

(** C8, as amended: [to_radians(d)] is the product, computed in double
    precision and rounded to single precision, of [d] and the literal
    [0.01745329]; [to_degrees(r)] is that of [r] and [57.2957795].  The
    doubles standing for the two literals are within 1e-17 and 1e-14 of
    their decimal values; the first lies below pi/180 by less than 3e-9,
    the second below 180/pi by less than 2e-8, and neither equals it. *)
Theorem angle_conversion_constants :
  (forall d,
     to_radians d
     = float_of_double
         (dmul (double_of_float d) (double_literal 1745329 8)))
  /\ (forall r,
        to_degrees r
        = float_of_double
            (dmul (double_of_float r) (double_literal 572957795 7)))
  /\ (Rabs (SF2R (double_literal 1745329 8) - 1745329 / 10 ^ 8) <= / 10 ^ 17)%R
  /\ (Rabs (SF2R (double_literal 572957795 7) - 572957795 / 10 ^ 7)
      <= / 10 ^ 14)%R
  /\ (0 < PI / 180 - SF2R (double_literal 1745329 8) < 3 / 10 ^ 9)%R
  /\ (0 < 180 / PI - SF2R (double_literal 572957795 7) < 2 / 10 ^ 8)%R.
Proof.
  pose proof PI_10_digits as [Hlo Hhi].
  destruct literal_values as [E1 E2].
  unfold lit_0_01745329, lit_57_2957795 in E1, E2.
  split; [reflexivity |]. split; [reflexivity |].
  rewrite E1, E2. unfold SF2R. cbn [Z.leb Z.compare].
  change (2 ^ (- -58)) with 288230376151711744.
  change (2 ^ (- -47)) with 140737488355328.
  split; [| split; [| split]].
  - apply Rabs_le. split; lra.
  - apply Rabs_le. split; lra.
  - lra.
  - assert (Hpi : (0 < PI)%R) by lra.
    assert (E : (180 / PI * PI = 180)%R) by (field; lra).
    split.
    + apply Rlt_0_minus. apply (Rmult_lt_reg_r PI); [exact Hpi |].
      rewrite E. lra.
    + apply (Rmult_lt_reg_r PI); [exact Hpi |].
      rewrite Rmult_minus_distr_r, E. lra.
Qed.

(** ** The shader build pipeline *)

Section Runs.
Context {W : Type} (env : Env W).

Lemma run_bind {A B : Type} (p : Prog A) (f : A -> Prog B) (w : W) :
  run env (bind p f) w
  = let o1 := run env p w in
    let o2 := run env (f (result o1)) (world_of o1) in
    (result o2, world_of o2, trace_of o1 ++ trace_of o2).
Proof.
  revert w. induction p as [a | R c k IH]; intros w.
  - cbn. now destruct (run env (f a) w) as [[b w2] t2].
  - cbn [bind run]. destruct (respond env c w) as [r w1].
    rewrite IH. cbv zeta.
    destruct (run env (k r) w1) as [[a w2] t1]. cbn.
    now destruct (run env (f a) w2) as [[b w3] t2].
Qed.

Lemma run_do {R : Type} (c : call R) (w : W) :
  run env (do c) w
  = (fst (respond env c w), snd (respond env c w),
     [Ev c (fst (respond env c w))]).
Proof. unfold do. cbn. now destruct (respond env c w). Qed.

Lemma run_Ret {A : Type} (a : A) (w : W) : run env (Ret a) w = (a, w, []).
Proof. reflexivity. Qed.
End Runs.

(** Running a program symbolically: split the binds, name the answer of
    the next call, decide the next test. *)
Ltac run_step :=
  first [ rewrite run_bind; cbv zeta
        | rewrite run_do
        | rewrite run_Ret ];
  cbn [result world_of trace_of fst snd app].

Ltac run_call :=
  match goal with
  | |- context [respond ?env ?c ?w] =>
      is_var w;
      let r := fresh "r" in
      let w' := fresh "w" in
      destruct (respond env c w) as [r w'] eqn:?; cbn [fst snd] in *
  end.

Ltac run_calls := repeat (repeat run_step; try run_call).

Ltac branch :=
  match goal with
  | |- context [if negb (?x =? 0) then _ else _] =>
      destruct (Z.eqb_spec x 0); cbn [negb]
  | |- context [if ?x =? 0 then _ else _] => destruct (Z.eqb_spec x 0)
  | |- context [match ?x with Some _ => _ | None => _ end] =>
      is_var x; destruct x
  end.

Ltac run_all := repeat (run_calls; try branch).

Ltac destruct_units :=
  repeat match goal with u : unit |- _ => destruct u end.

Ltac decide_eqb :=
  repeat match goal with
    | H : ?x <> 0 |- context [?x =? 0] => rewrite (proj2 (Z.eqb_neq x 0) H)
    end.

Ltac decide_zero :=
  repeat match goal with
    | H : ?x = 0 |- context [?x =? 0] => rewrite H
    end.

Ltac trace_facts :=
  cbn; subst; decide_eqb; cbn;
  repeat split; try reflexivity; try discriminate; try congruence.

(** *** The status helpers *)

Lemma report_shader_status_contract {W : Type} (env : Env W) (w : W)
  (shader : GLuint) (fp : FILE) :
  status_contract (glGetShaderiv shader) GL_COMPILE_STATUS
    (glGetShaderInfoLog shader) "Shader Error:" fp
    (run env (report_shader_status shader fp) w).
Proof.
  unfold report_shader_status, status_contract.
  run_calls. rename r into s, r0 into n. exists s, n.
  destruct (Z.eqb_spec s 0) as [-> | Hs].
  - run_calls. destruct r as [p |].
    + right; left. run_calls. destruct_units.
      split; [reflexivity |]. split; [reflexivity |].
      exists p, r. reflexivity.
    + right; right. split; [reflexivity |]. split; reflexivity.
  - left. split; [exact Hs |]. split; reflexivity.
Qed.

Lemma report_program_status_contract {W : Type} (env : Env W) (w : W)
  (program : GLuint) (fp : FILE) :
  status_contract (glGetProgramiv program) GL_LINK_STATUS
    (glGetProgramInfoLog program) "Program Error:" fp
    (run env (report_program_status program fp) w).
Proof.
  unfold report_program_status, status_contract.
  run_calls. rename r into s, r0 into n. exists s, n.
  destruct (Z.eqb_spec s 0) as [-> | Hs].
  - run_calls. destruct r as [p |].
    + right; left. run_calls. destruct_units.
      split; [reflexivity |]. split; [reflexivity |].
      exists p, r. reflexivity.
    + right; right. split; [reflexivity |]. split; reflexivity.
  - left. split; [exact Hs |]. split; reflexivity.
Qed.

(** *** What each function leaves in the trace *)

Lemma existsb_weaken {A : Type} (P Q : A -> bool) (l : list A) :
  (forall a, P a = true -> Q a = true) ->
  existsb Q l = false -> existsb P l = false.
Proof.
  intros HPQ. induction l as [| a l IH]; cbn; [reflexivity |].
  intros H. apply orb_false_iff in H. destruct H as [Ha Hl].
  rewrite (IH Hl), orb_false_r.
  destruct (P a) eqn:E; [| reflexivity].
  apply HPQ in E. congruence.
Qed.

Lemma gl_events :
  (forall e, is_glCreateShader e = true -> is_gl e = true)
  /\ (forall e, is_glCreateProgram e = true -> is_gl e = true)
  /\ (forall e, is_glLinkProgram e = true -> is_gl e = true)
  /\ (forall e, compile_failed e = true -> is_gl e = true)
  /\ (forall e, link_failed e = true -> is_gl e = true).
Proof.
  repeat split; intros [R c r]; destruct c; cbn; try discriminate;
    reflexivity.
Qed.

(** [read_shader_source] makes no call to the driver. *)
Lemma read_shader_source_no_gl {W : Type} (env : Env W) (w : W)
  (name : string) :
  existsb is_gl (trace_of (run env (read_shader_source name) w)) = false.
Proof.
  unfold read_shader_source. run_all; reflexivity.
Qed.

Lemma read_shader_source_fopen_fails {W : Type} (env : Env W) (w : W)
  (name : string) :
  fst (respond env (fopen name) w) = None ->
  let out := run env (read_shader_source name) w in
  result out = None
  /\ trace_of out
     = [Ev (fopen name) None;
        Ev (fprintf stderr ("Failed to open '" ++ name ++ "'." ++ LF)%string)
           tt].
Proof.
  intros Hopen. cbv zeta. unfold read_shader_source.
  run_calls. cbn [fst] in Hopen. subst r. run_calls. destruct_units.
  split; reflexivity.
Qed.

(** [init_shader]: no program is made or linked; a compile status of [0]
    ends in the result [0]. *)
Lemma init_shader_trace {W : Type} (env : Env W) (w : W)
  (type : GLenum) (source : string) :
  let out := run env (init_shader type source) w in
  existsb is_glCreateProgram (trace_of out) = false
  /\ existsb is_glLinkProgram (trace_of out) = false
  /\ existsb link_failed (trace_of out) = false
  /\ (existsb compile_failed (trace_of out) = true -> result out = 0).
Proof.
  cbv zeta. unfold init_shader, report_shader_status.
  run_all; trace_facts.
Qed.

(** [init_program]: it starts with [glCreateProgram]; a link status of
    [0] ends in the result [0]. *)
Lemma init_program_trace {W : Type} (env : Env W) (w : W)
  (vs fs : GLuint) :
  let out := run env (init_program vs fs) w in
  existsb is_glCreateProgram (trace_of out) = true
  /\ existsb is_glCreateShader (trace_of out) = false
  /\ existsb compile_failed (trace_of out) = false
  /\ (existsb is_glLinkProgram (trace_of out) = true ->
      existsb link_failed (trace_of out) = false -> result out <> 0)
  /\ (existsb link_failed (trace_of out) = true -> result out = 0).
Proof.
  cbv zeta. unfold init_program, report_program_status.
  run_all; trace_facts.
Qed.

Lemma init_shader_zero {W : Type} (env : Env W) (w : W)
  (type : GLenum) (source : string) :
  let out := run env (init_shader type source) w in
  result out = 0 ->
  existsb create_shader_failed (trace_of out) = true
  \/ existsb calloc_failed (trace_of out) = true
  \/ exists log,
       stderr_output (trace_of out) = [("Shader Error:" ++ LF ++ log)%string].
Proof.
  cbv zeta. unfold init_shader, report_shader_status.
  run_all; cbn [result fst snd]; intros Hres;
    first [ contradiction
          | left; subst; reflexivity
          | right; left; reflexivity
          | right; right; destruct_units; eexists; reflexivity ].
Qed.

(** *** The build from two files *)

Section FromSources.
Context {W : Type} (env : Env W) (w : W) (vert frag : buffer).

Let comp_v := run env (init_shader GL_VERTEX_SHADER (buf_text vert)) w.
Let comp_f :=
  run env (init_shader GL_FRAGMENT_SHADER (buf_text frag)) (world_of comp_v).
Let both := negb (result comp_v =? 0) && negb (result comp_f =? 0).
Let link := run env (init_program (result comp_v) (result comp_f))
                (world_of comp_f).
Let out := run env (init_program_from_sources vert frag) w.

Lemma from_sources_unfold :
  let step := run env (if both
                       then init_program (result comp_v) (result comp_f)
                       else Ret 0) (world_of comp_f) in
  result out = result step
  /\ exists u1 u2,
      trace_of out
      = trace_of comp_v ++ trace_of comp_f ++ trace_of step
        ++ [Ev (glDeleteShader (result comp_f)) u1;
            Ev (glDeleteShader (result comp_v)) u2].
Proof.
  cbv zeta. unfold out, init_program_from_sources.
  rewrite (run_bind env (init_shader GL_VERTEX_SHADER (buf_text vert))).
  cbv zeta. fold comp_v.
  rewrite (run_bind env (init_shader GL_FRAGMENT_SHADER (buf_text frag))).
  cbv zeta. fold comp_f. cbn [result world_of trace_of fst snd].
  rewrite run_bind. cbv zeta. cbn [result world_of trace_of fst snd].
  fold both. run_calls. split; [reflexivity |]. eexists _, _. reflexivity.
Qed.

Lemma from_sources_guards :
  existsb is_glCreateProgram (trace_of out) = both
  /\ (existsb is_glLinkProgram (trace_of out) = true -> both = true)
  /\ result out = (if both then result link else 0)
  /\ (existsb compile_failed (trace_of out) = true -> result out = 0)
  /\ (existsb link_failed (trace_of out) = true -> result out = 0).
Proof.
  destruct from_sources_unfold as [Hres [u1 [u2 Htr]]].
  destruct (init_shader_trace env w GL_VERTEX_SHADER (buf_text vert))
    as [Vp [Vl [Vf Vc]]].
  destruct (init_shader_trace env (world_of comp_v) GL_FRAGMENT_SHADER
              (buf_text frag)) as [Fp [Fl [Ff Fc]]].
  destruct (init_program_trace env (world_of comp_f) (result comp_v)
              (result comp_f)) as [Lp [Ls [Lc [Ll Lf]]]].
  fold comp_v in Vp, Vl, Vf, Vc. fold comp_f in Fp, Fl, Ff, Fc.
  fold link in Lp, Ls, Lc, Ll, Lf.
  rewrite Hres, Htr, !existsb_app, Vp, Vl, Vf, Fp, Fl, Ff.
  cbn [orb existsb is_glCreateProgram is_glLinkProgram link_failed
       compile_failed].
  rewrite !orb_false_r.
  destruct both eqn:Eb; fold link.
  - rewrite Lp, Lc, orb_false_r.
    split; [reflexivity |]. split; [reflexivity |]. split; [reflexivity |].
    split; [| exact Lf].
    intros Hc. exfalso.
    unfold both in Eb. apply andb_true_iff in Eb. destruct Eb as [Ev_ Ef_].
    apply negb_true_iff, Z.eqb_neq in Ev_, Ef_.
    apply orb_true_iff in Hc. destruct Hc as [Hc | Hc]; auto.
  - cbn [run result trace_of fst snd existsb].
    split; [reflexivity |]. split; [discriminate |].
    split; [reflexivity |]. split; [reflexivity | discriminate].
Qed.
End FromSources.

Section Guards.
Context {W : Type} (env : Env W) (w : W) (vert_name frag_name : string).

Let load_v := run env (read_shader_source vert_name) w.
Let load_f := run env (read_shader_source frag_name) (world_of load_v).
Let build := run env (init_program_from_files vert_name frag_name) w.

Lemma build_unfold :
  let body :=
    match result load_v, result load_f with
    | Some vert, Some frag => init_program_from_sources vert frag
    | _, _ => Ret 0
    end in
  let inner := run env body (world_of load_f) in
  result build = result inner
  /\ exists u1 u2,
      trace_of build
      = trace_of load_v ++ trace_of load_f ++ trace_of inner
        ++ [Ev (free (option_map buf_ptr (result load_f))) u1;
            Ev (free (option_map buf_ptr (result load_v))) u2].
Proof.
  cbv zeta. unfold build, init_program_from_files.
  rewrite (run_bind env (read_shader_source vert_name)). cbv zeta.
  fold load_v.
  rewrite (run_bind env (read_shader_source frag_name)). cbv zeta.
  fold load_f. cbn [result world_of trace_of fst snd].
  rewrite run_bind. cbv zeta. cbn [result world_of trace_of fst snd].
  run_calls. split; [reflexivity |]. eexists _, _. reflexivity.
Qed.

Lemma build_without_sources :
  result load_v = None \/ result load_f = None ->
  existsb is_gl (trace_of build) = false /\ result build = 0.
Proof.
  intros Hload.
  pose proof (read_shader_source_no_gl env w vert_name) as Hv.
  pose proof (read_shader_source_no_gl env (world_of load_v) frag_name) as Hf.
  fold load_v in Hv. fold load_f in Hf.
  destruct build_unfold as [Hres [u1 [u2 Htr]]].
  rewrite Hres, Htr.
  assert (E : match result load_v, result load_f with
              | Some vert, Some frag => init_program_from_sources vert frag
              | _, _ => Ret 0
              end = Ret 0).
  { destruct Hload as [-> | ->]; [reflexivity |].
    now destruct (result load_v). }
  rewrite E. cbn [run result trace_of fst snd].
  split; [| reflexivity].
  rewrite !existsb_app, Hv, Hf. reflexivity.
Qed.
End Guards.

Lemma log_buffer_size_in_range (n : GLint) :
  0 <= n < 2 ^ 31 - 1 -> log_buffer_size n = n + 1.
Proof.
  intros Hn. unfold log_buffer_size, to_size_t, int_add.
  rewrite (Z.mod_small (n + 1 + 2 ^ 31)) by lia.
  rewrite Z.mod_small by lia. lia.
Qed.

(** C7, as amended: the two status helpers obey one contract.  Each
    queries the status flag and the info-log length [n]; if the status is
    true it returns true without allocating; if it is false it asks
    [calloc] for [n + 1] bytes and returns false, having, when [calloc]
    gave a buffer, retrieved the log into it, printed it after its label
    ("Shader Error:" or "Program Error:" and a line feed) and freed the
    buffer, and, when [calloc] gave none, done nothing else.  The size
    requested is [n + 1] for every length [0 <= n < INT_MAX]. *)
Theorem status_helpers_contract :
  (forall (W : Type) (env : Env W) (w : W) (object : GLuint) (fp : FILE),
     status_contract (glGetShaderiv object) GL_COMPILE_STATUS
       (glGetShaderInfoLog object) "Shader Error:" fp
       (run env (report_shader_status object fp) w)
     /\ status_contract (glGetProgramiv object) GL_LINK_STATUS
          (glGetProgramInfoLog object) "Program Error:" fp
          (run env (report_program_status object fp) w))
  /\ (forall n : GLint, 0 <= n < 2 ^ 31 - 1 -> log_buffer_size n = n + 1).
Proof.
  split.
  - intros W env w object fp. split.
    + apply report_shader_status_contract.
    + apply report_program_status_contract.
  - exact log_buffer_size_in_range.
Qed.

Lemma status_helpers_contract_witness :
  status_contract (glGetShaderiv 7) GL_COMPILE_STATUS
    (glGetShaderInfoLog 7) "Shader Error:" stderr
    (run sim_env (report_shader_status 7 stderr) sim_ok)
  /\ status_contract (glGetProgramiv 7) GL_LINK_STATUS
       (glGetProgramInfoLog 7) "Program Error:" stderr
       (run sim_env (report_program_status 7 stderr) sim_no_link)
  /\ log_buffer_size 11 = 11 + 1.
Proof.
  destruct status_helpers_contract as [Hrun Hsize].
  split; [exact (proj1 (Hrun sim sim_env sim_ok 7 stderr)) |].
  split; [exact (proj2 (Hrun sim sim_env sim_no_link 7 stderr)) |].
  apply Hsize. lia.
Defined.

(** C7, as stated, fails when [calloc] returns null: the status is false,
    yet no log is retrieved, nothing is printed and nothing is freed. *)
Lemma status_helpers_without_memory :
  (trace_of (run sim_env (report_shader_status 7 stderr) sim_no_memory)
   = [Ev (glGetShaderiv 7 GL_COMPILE_STATUS) 0;
      Ev (glGetShaderiv 7 GL_INFO_LOG_LENGTH) 11;
      Ev (calloc 12) None]
   /\ result (run sim_env (report_shader_status 7 stderr) sim_no_memory)
      = false
   /\ stderr_output
        (trace_of (run sim_env (report_shader_status 7 stderr) sim_no_memory))
      = [])
  /\ (trace_of (run sim_env (report_program_status 7 stderr)
                  sim_no_link_no_memory)
      = [Ev (glGetProgramiv 7 GL_LINK_STATUS) 0;
         Ev (glGetProgramiv 7 GL_INFO_LOG_LENGTH) 11;
         Ev (calloc 12) None]
      /\ result (run sim_env (report_program_status 7 stderr)
                   sim_no_link_no_memory) = false
      /\ stderr_output
           (trace_of (run sim_env (report_program_status 7 stderr)
                        sim_no_link_no_memory)) = []).
Proof. repeat split. Qed.

Lemma stderr_output_app (t1 t2 : list event) :
  stderr_output (t1 ++ t2) = stderr_output t1 ++ stderr_output t2.
Proof.
  induction t1 as [| [R c r] t1 IH]; [reflexivity |].
  destruct c; cbn; try exact IH.
  destruct fp; cbn; [now rewrite IH | exact IH].
Qed.

Lemma printed_app (t1 t2 : list event) :
  printed (t1 ++ t2) = printed t1 || printed t2.
Proof.
  unfold printed. rewrite stderr_output_app.
  now destruct (stderr_output t1).
Qed.

Lemma read_shader_source_none {W} (env : Env W) (w : W) (name : string) :
  let out := run env (read_shader_source name) w in
  result out = None ->
  stderr_output (trace_of out)
  = [("Failed to open '" ++ name ++ "'." ++ LF)%string]
  \/ existsb silent_cause (trace_of out) = true.
Proof.
  cbv zeta. unfold read_shader_source.
  run_all; cbn [result fst snd]; intros Hres; destruct_units;
    first [ discriminate Hres
          | left; reflexivity
          | right; cbn; decide_eqb; decide_zero; cbn;
            rewrite ?orb_true_r; reflexivity ].
Qed.

Lemma init_program_zero {W} (env : Env W) (w : W) (vs fs : GLuint) :
  let out := run env (init_program vs fs) w in
  result out = 0 ->
  existsb silent_cause (trace_of out) = true
  \/ exists log,
       stderr_output (trace_of out)
       = [("Program Error:" ++ LF ++ log)%string].
Proof.
  cbv zeta. unfold init_program, report_program_status.
  run_all; cbn [result fst snd]; intros Hres; destruct_units;
    first [ contradiction
          | right; eexists; reflexivity
          | left; cbn; decide_eqb; decide_zero; cbn;
            rewrite ?orb_true_r; reflexivity ].
Qed.

Lemma silent_causes :
  (forall e, create_shader_failed e = true -> silent_cause e = true)
  /\ (forall e, calloc_failed e = true -> silent_cause e = true).
Proof.
  split; intros [R c r]; destruct c; cbn; try discriminate; try tauto;
    destruct r; (discriminate || reflexivity).
Qed.

Lemma existsb_strengthen {A : Type} (P Q : A -> bool) (l : list A) :
  (forall a, P a = true -> Q a = true) ->
  existsb P l = true -> existsb Q l = true.
Proof.
  intros HPQ H. apply existsb_exists in H. destruct H as [a [Ha HP]].
  apply existsb_exists. exists a. split; [exact Ha | now apply HPQ].
Qed.

Lemma printed_singleton (tr : list event) (text : string) :
  stderr_output tr = [text] -> printed tr = true.
Proof. unfold printed. now intros ->. Qed.

(** A result [0] of the whole build is either announced on the error
    stream or caused by a failure that the code passes over in silence. *)
Lemma build_zero {W} (env : Env W) (w : W) (vert_name frag_name : string) :
  let out := run env (init_program_from_files vert_name frag_name) w in
  result out = 0 ->
  printed (trace_of out) = true
  \/ existsb silent_cause (trace_of out) = true.
Proof.
  cbv zeta.
  destruct (build_unfold env w vert_name frag_name) as [Hres [u1 [u2 Htr]]].
  set (load_v := run env (read_shader_source vert_name) w) in *.
  set (load_f := run env (read_shader_source frag_name) (world_of load_v))
    in *.
  rewrite Hres, Htr, !printed_app, !existsb_app.
  pose proof (read_shader_source_none env w vert_name) as Hv.
  pose proof (read_shader_source_none env (world_of load_v) frag_name) as Hf.
  cbv zeta in Hv, Hf. fold load_v in Hv. fold load_f in Hf.
  destruct silent_causes as [Scs Sca].
  destruct (result load_v) as [vert |] eqn:Ev_.
  2: { intros _. destruct (Hv eq_refl) as [Hp | Hs].
       - left. now rewrite (printed_singleton _ _ Hp).
       - right. now rewrite Hs. }
  destruct (result load_f) as [frag |] eqn:Ef_.
  2: { intros _. destruct (Hf eq_refl) as [Hp | Hs].
       - left. now rewrite (printed_singleton _ _ Hp), orb_true_r.
       - right. now rewrite Hs, orb_true_r. }
  set (inner := run env (init_program_from_sources vert frag)
                    (world_of load_f)).
  intros Hinner.
  assert (Hin : printed (trace_of inner) = true
                \/ existsb silent_cause (trace_of inner) = true).
  { clear Hv Hf Hres Htr. subst inner.
    destruct (from_sources_unfold env (world_of load_f) vert frag)
      as [Hres [v1 [v2 Htr]]].
    set (comp_v := run env (init_shader GL_VERTEX_SHADER (buf_text vert))
                       (world_of load_f)) in *.
    set (comp_f := run env (init_shader GL_FRAGMENT_SHADER (buf_text frag))
                       (world_of comp_v)) in *.
    rewrite Hres in Hinner.
    rewrite Htr, !printed_app, !existsb_app.
    pose proof (init_shader_zero env (world_of load_f) GL_VERTEX_SHADER
                  (buf_text vert)) as Zv.
    pose proof (init_shader_zero env (world_of comp_v) GL_FRAGMENT_SHADER
                  (buf_text frag)) as Zf.
    cbv zeta in Zv, Zf. fold comp_v in Zv. fold comp_f in Zf.
    destruct (Z.eqb_spec (result comp_v) 0) as [Ev0 | Ev0].
    { destruct (Zv Ev0) as [Hc | [Hc | [log Hp]]].
      - right. now rewrite (existsb_strengthen _ _ _ Scs Hc).
      - right. now rewrite (existsb_strengthen _ _ _ Sca Hc).
      - left. now rewrite (printed_singleton _ _ Hp). }
    destruct (Z.eqb_spec (result comp_f) 0) as [Ef0 | Ef0].
    { destruct (Zf Ef0) as [Hc | [Hc | [log Hp]]].
      - right. now rewrite (existsb_strengthen _ _ _ Scs Hc), orb_true_r.
      - right. now rewrite (existsb_strengthen _ _ _ Sca Hc), orb_true_r.
      - left. now rewrite (printed_singleton _ _ Hp), orb_true_r. }
    cbn [negb andb] in Hinner |- *.
    destruct (init_program_zero env (world_of comp_f) (result comp_v)
                (result comp_f) Hinner) as [Hs | [log Hp]].
    - right. now rewrite Hs, !orb_true_r.
    - left. now rewrite (printed_singleton _ _ Hp), !orb_true_r. }
  destruct Hin as [Hp | Hs].
  - left. now rewrite Hp, !orb_true_r.
  - right. now rewrite Hs, !orb_true_r.
Qed.


(** C4, as amended: a failure path of the pipeline prints a diagnostic to
    the error stream before it returns its invalid sentinel, unless the
    failure is a file that cannot be seeked or is empty, a [calloc] that
    returns null, or a [glCreateShader] or [glCreateProgram] that returns
    [0].  In particular
    - [read_shader_source] prints ["Failed to open '<name>'."] before it
      returns the null buffer when the file cannot be opened, and returns
      the null buffer only then or on one of the failures above;
    - [init_shader] returns [0] only after ["Shader Error:"] and the log,
      and [init_program] only after ["Program Error:"] and the log, or on
      one of the failures above;
    - the whole build returns [0] only after some diagnostic, or on one of
      the failures above. *)
Theorem failure_diagnostics (W : Type) (env : Env W) (w : W) :
  (forall name,
     fst (respond env (fopen name) w) = None ->
     let out := run env (read_shader_source name) w in
     result out = None
     /\ trace_of out
        = [Ev (fopen name) None;
           Ev (fprintf stderr ("Failed to open '" ++ name ++ "'." ++ LF)%string)
              tt])
  /\ (forall name,
        let out := run env (read_shader_source name) w in
        result out = None ->
        stderr_output (trace_of out)
        = [("Failed to open '" ++ name ++ "'." ++ LF)%string]
        \/ existsb silent_cause (trace_of out) = true)
  /\ (forall type source,
        let out := run env (init_shader type source) w in
        result out = 0 ->
        existsb create_shader_failed (trace_of out) = true
        \/ existsb calloc_failed (trace_of out) = true
        \/ exists log,
             stderr_output (trace_of out)
             = [("Shader Error:" ++ LF ++ log)%string])
  /\ (forall vert_shader frag_shader,
        let out := run env (init_program vert_shader frag_shader) w in
        result out = 0 ->
        existsb silent_cause (trace_of out) = true
        \/ exists log,
             stderr_output (trace_of out)
             = [("Program Error:" ++ LF ++ log)%string])
  /\ (forall vert_name frag_name,
        let out := run env (init_program_from_files vert_name frag_name) w in
        result out = 0 ->
        printed (trace_of out) = true
        \/ existsb silent_cause (trace_of out) = true).
Proof.
  split; [| split; [| split; [| split]]].
  - intros name Hopen. apply read_shader_source_fopen_fails. exact Hopen.
  - intros name. apply read_shader_source_none.
  - intros type source. apply init_shader_zero.
  - intros vert_shader frag_shader. apply init_program_zero.
  - intros vert_name frag_name. apply build_zero.
Qed.

Lemma failure_diagnostics_witness :
  (result (run sim_env (read_shader_source "nope.glsl") sim_ok) = None
   /\ trace_of (run sim_env (read_shader_source "nope.glsl") sim_ok)
      = [Ev (fopen "nope.glsl") None;
         Ev (fprintf stderr ("Failed to open 'nope.glsl'." ++ LF)%string) tt])
  /\ (result (run sim_env (init_shader GL_VERTEX_SHADER "syntax error")
                sim_ok) = 0
      /\ stderr_output
           (trace_of (run sim_env (init_shader GL_VERTEX_SHADER "syntax error")
                        sim_ok))
         = [("Shader Error:" ++ LF ++ "0:1: error")%string])
  /\ (result (run sim_env (init_program_from_files "vert.glsl" "frag.glsl")
                sim_no_link) = 0
      /\ (printed
            (trace_of (run sim_env
                         (init_program_from_files "vert.glsl" "frag.glsl")
                         sim_no_link)) = true
          \/ existsb silent_cause
               (trace_of (run sim_env
                            (init_program_from_files "vert.glsl" "frag.glsl")
                            sim_no_link)) = true)).
Proof.
  destruct (failure_diagnostics sim sim_env sim_ok)
    as [Hopen [_ [Hshader _]]].
  destruct (failure_diagnostics sim sim_env sim_no_link)
    as [_ [_ [_ [_ Hbuild]]]].
  split; [exact (Hopen "nope.glsl"%string eq_refl) |].
  split.
  - split; [reflexivity |].
    destruct (Hshader GL_VERTEX_SHADER "syntax error"%string eq_refl)
      as [Hc | [Hc | [log Hp]]]; [discriminate Hc | discriminate Hc |].
    reflexivity.
  - split; [reflexivity |].
    exact (Hbuild "vert.glsl"%string "frag.glsl"%string eq_refl).
Defined.

(** C4, as stated, fails: an empty file, or a file that cannot be seeked,
    makes [read_shader_source] return the null buffer without a word on
    the error stream; so does [init_shader] return [0] when
    [glCreateShader] returns [0], or when the log buffer cannot be
    allocated. *)
Lemma silent_failures :
  (result (run sim_env (read_shader_source "empty.glsl") sim_ok) = None
   /\ stderr_output
        (trace_of (run sim_env (read_shader_source "empty.glsl") sim_ok))
      = [])
  /\ (result (run sim_env (read_shader_source "vert.glsl") sim_no_seek) = None
      /\ stderr_output
           (trace_of (run sim_env (read_shader_source "vert.glsl")
                        sim_no_seek)) = [])
  /\ (result (run sim_env (init_shader GL_VERTEX_SHADER "void main() { }")
                sim_no_objects) = 0
      /\ stderr_output
           (trace_of (run sim_env
                        (init_shader GL_VERTEX_SHADER "void main() { }")
                        sim_no_objects)) = [])
  /\ (result (run sim_env (init_shader GL_VERTEX_SHADER "syntax error")
                sim_no_memory) = 0
      /\ stderr_output
           (trace_of (run sim_env (init_shader GL_VERTEX_SHADER "syntax error")
                        sim_no_memory)) = []).
Proof. repeat split. Qed.

(* ================================================================== *)
(** * Part III: further properties                                     *)
(* ================================================================== *)

(** ** More floating-point facts *)

(** Facts that hold at every precision: they serve both [GLfloat] and
    [double]. *)
Section Generic.
Variables prec emax : Z.

Lemma binary_round_aux_opp (s : bool) (m e : Z) (l : location) :
  binary_round_aux prec emax (negb s) m e l
  = SFopp (binary_round_aux prec emax s m e l).
Proof.
  unfold binary_round_aux.
  destruct (shr_fexp prec emax m e l) as [mrs' e'].
  destruct (shr_fexp prec emax _ e' loc_Exact) as [mrs'' e''].
  destruct (shr_m mrs''); [reflexivity | | reflexivity].
  now destruct (e'' <=? emax - prec).
Qed.

Lemma binary_round_opp (s : bool) (m : positive) (e : Z) :
  binary_round prec emax (negb s) m e = SFopp (binary_round prec emax s m e).
Proof.
  unfold binary_round.
  destruct (shl_align m e _) as [mz ez]. apply binary_round_aux_opp.
Qed.

Lemma SFmul_comm (x y : spec_float) : SFmul prec emax x y = SFmul prec emax y x.
Proof.
  destruct x as [sx | sx | | sx mx ex], y as [sy | sy | | sy my ey]; cbn;
    rewrite ?(xorb_comm sx sy); try reflexivity.
  now rewrite Pos.mul_comm, Z.add_comm.
Qed.

Lemma SFadd_comm (x y : spec_float) : SFadd prec emax x y = SFadd prec emax y x.
Proof.
  destruct x as [sx | sx | | sx mx ex], y as [sy | sy | | sy my ey]; cbn;
    try reflexivity.
  - now destruct sx, sy.
  - now destruct sx, sy.
  - now rewrite Z.min_comm, Z.add_comm.
Qed.

Lemma SFmul_opp_l (x y : spec_float) :
  SFmul prec emax (SFopp x) y = SFopp (SFmul prec emax x y).
Proof.
  destruct x as [sx | sx | | sx mx ex], y as [sy | sy | | sy my ey]; cbn;
    rewrite <- ?negb_xorb_l; try reflexivity.
  apply binary_round_aux_opp.
Qed.
End Generic.

Lemma SFopp_involutive (x : spec_float) : SFopp (SFopp x) = x.
Proof. destruct x; cbn; now rewrite ?negb_involutive. Qed.

Lemma fadd_comm (x y : GLfloat) : fadd x y = fadd y x.
Proof. apply SFadd_comm. Qed.

Lemma fmul_comm (x y : GLfloat) : fmul x y = fmul y x.
Proof. apply SFmul_comm. Qed.

Lemma fmul_fneg_l (x y : GLfloat) : fmul (fneg x) y = fneg (fmul x y).
Proof. apply SFmul_opp_l. Qed.

Lemma fmul_1_r (x : GLfloat) :
  valid32 x = true -> is_finite x = true -> fmul x (of_int 1) = x.
Proof. intros Hv Hf. rewrite fmul_comm. now apply fmul_1_l. Qed.

Lemma fmul_m1_l (x : GLfloat) :
  valid32 x = true -> is_finite x = true -> fmul (of_int (-1)) x = fneg x.
Proof.
  intros Hv Hf. change (of_int (-1)) with (fneg (of_int 1)).
  rewrite fmul_fneg_l. now rewrite fmul_1_l.
Qed.

Lemma same_value_sym (x y : GLfloat) : same_value x y -> same_value y x.
Proof. intros [-> | [Hx Hy]]; [now left | now right]. Qed.

Lemma same_value_trans (x y z : GLfloat) :
  same_value x y -> same_value y z -> same_value x z.
Proof.
  intros [-> | [Hx Hy]] [-> | [Hy' Hz]];
    [now left | now right | now right | right; now split].
Qed.

Lemma fadd_zero_r (a z : GLfloat) :
  is_zero z = true -> same_value (fadd a z) a.
Proof.
  destruct z as [sz | | |]; try discriminate. intros _.
  destruct a as [[|] | | |]; destruct sz; cbn; auto using same_value_refl;
    right; split; reflexivity.
Qed.

Lemma fadd_zero_l (a z : GLfloat) :
  is_zero z = true -> same_value (fadd z a) a.
Proof. intros Hz. rewrite fadd_comm. now apply fadd_zero_r. Qed.

Lemma fadd_same (a a' b b' : GLfloat) :
  same_value a a' -> same_value b b' -> same_value (fadd a b) (fadd a' b').
Proof.
  intros [-> | [Ha Ha']] [-> | [Hb Hb']].
  - apply same_value_refl.
  - apply (same_value_trans _ a'); [now apply fadd_zero_r |].
    apply same_value_sym. now apply fadd_zero_r.
  - apply (same_value_trans _ b'); [now apply fadd_zero_l |].
    apply same_value_sym. now apply fadd_zero_l.
  - destruct a as [[|] | | |], a' as [[|] | | |], b as [[|] | | |],
      b' as [[|] | | |]; try discriminate; right; split; reflexivity.
Qed.

Lemma fmul_zero_l (x : GLfloat) :
  is_finite x = true -> is_zero (fmul (of_int 0) x) = true.
Proof. now destruct x. Qed.

Lemma fmul_zero_r (x : GLfloat) :
  is_finite x = true -> is_zero (fmul x (of_int 0)) = true.
Proof. now destruct x. Qed.

Lemma fsub_self_cases (x : GLfloat) :
  fsub x x = S754_zero false \/ fsub x x = S754_nan.
Proof.
  destruct x as [[|] | [|] | | s m e]; cbn; auto.
  left. unfold fsub, SFsub. now rewrite Z.sub_diag.
Qed.

Lemma fsub_self (x : GLfloat) :
  is_finite x = true -> fsub x x = S754_zero false.
Proof.
  destruct x as [[|] | [|] | | s m e]; try discriminate; intros _;
    try reflexivity.
  unfold fsub, SFsub. now rewrite Z.sub_diag.
Qed.

Lemma fsub_antisym (x y : GLfloat) :
  same_value (fsub x y) (fneg (fsub y x)).
Proof.
  destruct x as [[|] | [|] | | sx mx ex], y as [[|] | [|] | | sy my ey];
    cbn; rewrite ?negb_involutive; try (now left);
    try (right; split; reflexivity).
  unfold fsub, fneg, SFsub. rewrite (Z.min_comm ey ex).
  set (a := cond_Zopp sx _). set (b := cond_Zopp sy _).
  replace (b - a) with (- (a - b)) by lia.
  destruct (a - b) as [| p | p]; cbn [Z.opp binary_normalize].
  - right. split; reflexivity.
  - left. change true with (negb false).
    now rewrite binary_round_opp, SFopp_involutive.
  - left. change true with (negb false). now rewrite binary_round_opp.
Qed.

Lemma fsub_fadd_fneg (x y : GLfloat) : fsub x y = fadd x (fneg y).
Proof.
  destruct x as [[|] | [|] | | sx mx ex], y as [[|] | [|] | | sy my ey];
    try reflexivity.
  unfold fsub, fadd, fneg, SFsub, SFadd, SFopp. f_equal.
  destruct sy; cbn [negb cond_Zopp]; lia.
Qed.

Lemma fmul_m1_r (x : GLfloat) :
  valid32 x = true -> is_finite x = true -> fmul x (of_int (-1)) = fneg x.
Proof. intros Hv Hf. rewrite fmul_comm. now apply fmul_m1_l. Qed.


(** ** Sums with zero terms *)

Lemma fadd_zeros (x y : GLfloat) :
  is_zero x = true -> is_zero y = true -> is_zero (fadd x y) = true.
Proof.
  destruct x as [[|] | | |], y as [[|] | | |]; try discriminate; reflexivity.
Qed.

Lemma same_value_zeros (x y : GLfloat) :
  is_zero x = true -> is_zero y = true -> same_value x y.
Proof. intros Hx Hy. right. now split. Qed.

(** Proves that a term is a zero: a literal, a product by the literal
    [0] of a finite number, or a sum of such. *)
Ltac zero_term :=
  first [ assumption
        | reflexivity
        | apply fmul_zero_l; assumption
        | apply fmul_zero_r; assumption
        | apply fadd_zeros; zero_term ].

(** Removes the zero terms of the sum on the left of a [same_value]. *)
Ltac drop_zeros :=
  repeat first
    [ apply same_value_refl
    | apply same_value_zeros; zero_term
    | eapply same_value_trans; [apply fadd_zero_r; zero_term |]
    | eapply same_value_trans; [apply fadd_zero_l; zero_term |] ].

Lemma vec3_finite_inv (v : vec3) :
  vec3_finite v = true ->
  (valid32 (v3_0 v) = true /\ is_finite (v3_0 v) = true)
  /\ (valid32 (v3_1 v) = true /\ is_finite (v3_1 v) = true)
  /\ (valid32 (v3_2 v) = true /\ is_finite (v3_2 v) = true).
Proof. unfold vec3_finite. rewrite !andb_true_iff. tauto. Qed.

Lemma mat4_finite_inv (M : mat4) :
  mat4_finite M = true ->
  vec4_finite (m4_0 M) = true /\ vec4_finite (m4_1 M) = true
  /\ vec4_finite (m4_2 M) = true /\ vec4_finite (m4_3 M) = true.
Proof. unfold mat4_finite. rewrite !andb_true_iff. tauto. Qed.

Lemma mat3_finite_inv (M : mat3) :
  mat3_finite M = true ->
  vec3_finite (m3_0 M) = true /\ vec3_finite (m3_1 M) = true
  /\ vec3_finite (m3_2 M) = true.
Proof. unfold mat3_finite. rewrite !andb_true_iff. tauto. Qed.

(** Splits the hypothesis that a vector or a matrix is finite into that
    of its components. *)
Ltac split_finite :=
  repeat match goal with
    | H : mat4_finite _ = true |- _ =>
        apply mat4_finite_inv in H; cbn [m4_0 m4_1 m4_2 m4_3] in H
    | H : mat3_finite _ = true |- _ =>
        apply mat3_finite_inv in H; cbn [m3_0 m3_1 m3_2] in H
    | H : vec4_finite _ = true |- _ =>
        apply vec4_finite_inv in H; cbn [v4_0 v4_1 v4_2 v4_3] in H
    | H : vec3_finite _ = true |- _ =>
        apply vec3_finite_inv in H; cbn [v3_0 v3_1 v3_2] in H
    | H : _ /\ _ |- _ => destruct H
    end.

(** Replaces the products by the literal [1] of finite numbers. *)
Ltac by_units :=
  rewrite ?(fmul_1_l (of_int 1) eq_refl eq_refl),
    ?(fmul_1_l (of_int 0) eq_refl eq_refl),
    ?(fmul_1_r (of_int 0) eq_refl eq_refl);
  repeat match goal with
    | V : valid32 ?x = true, F : is_finite ?x = true |- _ =>
        first [ rewrite (fmul_1_l x V F) | rewrite (fmul_1_r x V F) ]
    end.

Lemma fadd_same_l (a a' b : GLfloat) :
  same_value a a' -> same_value (fadd a b) (fadd a' b).
Proof. intros H. apply fadd_same; [exact H | apply same_value_refl]. Qed.


(** ** Vector arithmetic *)

(** X1: the operators of [vec3] obey these laws.  [v + w] is [w + v] for
    all vectors, infinities and NaNs included, and [v + vec3()] is
    numerically [v]; [v - v] is [vec3()] for a vector of finite numbers;
    [v - w] is [v + w * (-1)] and [v * 1] is [v] for finite [w] and [v]. *)
Theorem vec3_laws :
  (forall v w, vec3_add v w = vec3_add w v)
  /\ (forall v, vec3_same (vec3_add v vec3_default) v)
  /\ (forall v, is_finite (v3_0 v) = true -> is_finite (v3_1 v) = true ->
                is_finite (v3_2 v) = true -> vec3_sub v v = vec3_default)
  /\ (forall v w, vec3_finite w = true ->
        vec3_sub v w = vec3_add v (vec3_scale w (of_int (-1))))
  /\ (forall v, vec3_finite v = true -> vec3_scale v (of_int 1) = v).
Proof.
  split; [| split; [| split; [| split]]].
  - intros [v0 v1 v2] [w0 w1 w2]. unfold vec3_add.
    now rewrite (fadd_comm v0), (fadd_comm v1), (fadd_comm v2).
  - intros [v0 v1 v2]. unfold vec3_same, vec3_add, vec3_default.
    cbn [v3_0 v3_1 v3_2]. repeat split; now apply fadd_zero_r.
  - intros [v0 v1 v2] H0 H1 H2. cbn [v3_0 v3_1 v3_2] in *.
    unfold vec3_sub. now rewrite !fsub_self by assumption.
  - intros [v0 v1 v2] [w0 w1 w2] Hw. split_finite.
    unfold vec3_sub, vec3_add, vec3_scale.
    rewrite !fmul_m1_r by assumption. now rewrite !fsub_fadd_fneg.
  - intros [v0 v1 v2] Hv. split_finite. unfold vec3_scale.
    now rewrite !fmul_1_r by assumption.
Qed.

Lemma vec3_laws_witness :
  let v := Vec3 (of_int 3) (of_int (-4)) (of_int 0) in
  let w := Vec3 (of_int 1) (of_int 2) (of_int 3) in
  vec3_finite v = true /\ vec3_finite w = true
  /\ vec3_add v w = vec3_add w v
  /\ vec3_sub v v = vec3_default
  /\ vec3_sub v w = vec3_add v (vec3_scale w (of_int (-1)))
  /\ vec3_scale v (of_int 1) = v.
Proof.
  cbv zeta. destruct vec3_laws as [Hc [_ [Hs [Hd Hu]]]].
  split; [reflexivity |]. split; [reflexivity |].
  split; [apply Hc |]. split; [apply Hs; reflexivity |].
  split; [apply Hd; reflexivity | apply Hu; reflexivity].
Defined.

(** X2: the dot products are symmetric, for all vectors. *)
Theorem dot_products_symmetric :
  (forall v w : vec3, vec3_dot v w = vec3_dot w v)
  /\ (forall v w : vec4, vec4_dot v w = vec4_dot w v).
Proof.
  split.
  - intros [v0 v1 v2] [w0 w1 w2]. unfold vec3_dot.
    now rewrite (fmul_comm v0), (fmul_comm v1), (fmul_comm v2).
  - intros [v0 v1 v2 v3] [w0 w1 w2 w3]. unfold vec4_dot.
    now rewrite (fmul_comm v0), (fmul_comm v1), (fmul_comm v2),
      (fmul_comm v3).
Qed.

(** X3: [cross(v, w)] is the opposite of [cross(w, v)], component by
    component, up to the sign of a zero component, for all vectors. *)
Theorem cross_antisymmetric (v w : vec3) :
  same_value (v3_0 (cross v w)) (fneg (v3_0 (cross w v)))
  /\ same_value (v3_1 (cross v w)) (fneg (v3_1 (cross w v)))
  /\ same_value (v3_2 (cross v w)) (fneg (v3_2 (cross w v))).
Proof.
  destruct v as [v0 v1 v2], w as [w0 w1 w2]. unfold cross.
  cbn [v3_0 v3_1 v3_2].
  rewrite (fmul_comm w1 v2), (fmul_comm w2 v1), (fmul_comm w2 v0),
    (fmul_comm w0 v2), (fmul_comm w0 v1), (fmul_comm w1 v0).
  repeat split; apply fsub_antisym.
Qed.

(** X4: every component of [cross(v, v)] is [+0] or a NaN, and it is the
    zero vector [vec3()] when the three products of two components of [v]
    are finite. *)
Theorem cross_self (v : vec3) :
  Forall (fun c => c = S754_zero false \/ c = S754_nan)
         (vec3_buffer (cross v v))
  /\ (is_finite (fmul (v3_1 v) (v3_2 v)) = true ->
      is_finite (fmul (v3_2 v) (v3_0 v)) = true ->
      is_finite (fmul (v3_0 v) (v3_1 v)) = true ->
      cross v v = vec3_default).
Proof.
  destruct v as [v0 v1 v2]. unfold cross, vec3_buffer.
  cbn [v3_0 v3_1 v3_2].
  rewrite (fmul_comm v2 v1), (fmul_comm v0 v2), (fmul_comm v1 v0).
  split.
  - repeat (apply Forall_cons; [apply fsub_self_cases |]). apply Forall_nil.
  - intros H0 H1 H2. now rewrite !fsub_self by assumption.
Qed.

Lemma cross_self_witness :
  let v := Vec3 (of_int 1) (of_int 2) (of_int 3) in
  let big := Vec3 (of_int (2 ^ 100)) (of_int (2 ^ 100)) (of_int 1) in
  cross v v = vec3_default
  /\ cross big big = Vec3 (S754_zero false) (S754_zero false) S754_nan.
Proof.
  cbv zeta. split; [| reflexivity].
  apply cross_self; reflexivity.
Defined.

(** ** Lengths *)

Lemma binary_round_aux_sign (m e : Z) (l : location) :
  sign_clear (binary_round_aux prec32 emax32 false m e l) = true.
Proof.
  unfold binary_round_aux.
  destruct (shr_fexp prec32 emax32 m e l) as [mrs' e'].
  destruct (shr_fexp prec32 emax32 _ e' loc_Exact) as [mrs'' e''].
  destruct (shr_m mrs''); [reflexivity | | reflexivity].
  now destruct (e'' <=? emax32 - prec32).
Qed.

Lemma fmul_self_sign (x : GLfloat) : sign_clear (fmul x x) = true.
Proof.
  destruct x as [[|] | [|] | | s m e]; try reflexivity.
  unfold fmul, SFmul. rewrite xorb_nilpotent.
  apply binary_round_aux_sign.
Qed.

Lemma fadd_sign (x y : GLfloat) :
  sign_clear x = true -> sign_clear y = true -> sign_clear (fadd x y) = true.
Proof.
  destruct x as [[|] | [|] | | [|] mx ex], y as [[|] | [|] | | [|] my ey];
    try discriminate; try reflexivity. intros _ _.
  unfold fadd, SFadd. cbn [cond_Zopp binary_normalize Z.add].
  unfold binary_round.
  destruct (shl_align _ _ _) as [mz ez].
  apply binary_round_aux_sign.
Qed.

Lemma fsqrt_sign (x : GLfloat) :
  sign_clear x = true -> sign_clear (fsqrt x) = true.
Proof.
  destruct x as [[|] | [|] | | [|] m e]; try discriminate; try reflexivity.
  intros _. unfold fsqrt, SFsqrt.
  destruct (SFsqrt_core_binary prec32 emax32 (Zpos m) e) as [[mz ez] lz].
  apply binary_round_aux_sign.
Qed.

Lemma vec3_dot_self_sign (v : vec3) : sign_clear (vec3_dot v v) = true.
Proof.
  destruct v as [v0 v1 v2]. unfold vec3_dot.
  repeat apply fadd_sign; apply fmul_self_sign.
Qed.

(** X5: [length(v)] is never negative: whatever [v], it is [+0], a positive
    number, [+infinity] or a NaN, never a negative number and never [-0]. *)
Theorem length_sign (v : vec3) :
  sign_clear (length v) = true
  /\ length v <> S754_zero true
  /\ fgtb (of_int 0) (length v) = false.
Proof.
  pose proof (fsqrt_sign _ (vec3_dot_self_sign v)) as H.
  fold (length v) in H. split; [exact H |].
  destruct (length v) as [[|] | [|] | | [|] m e]; try discriminate;
    split; try discriminate; reflexivity.
Qed.

(** ** Normalisation *)

Lemma fadd_not_finite_l (a b : GLfloat) :
  is_finite a = false -> is_finite (fadd a b) = false.
Proof.
  destruct a as [s | [|] | | s m e]; try discriminate; intros _;
    destruct b as [s' | [|] | | s' m' e']; reflexivity.
Qed.

Lemma fadd_not_finite_r (a b : GLfloat) :
  is_finite b = false -> is_finite (fadd a b) = false.
Proof. intros H. rewrite fadd_comm. now apply fadd_not_finite_l. Qed.

Lemma fmul_self_not_finite (x : GLfloat) :
  is_finite x = false -> is_finite (fmul x x) = false.
Proof. destruct x as [s | [|] | | s m e]; try discriminate; reflexivity. Qed.

Lemma is_zero_finite (x : GLfloat) : is_zero x = true -> is_finite x = true.
Proof. now destruct x. Qed.

(** The components of a vector whose squared length is a zero are finite. *)
Lemma vec3_dot_zero_finite (v : vec3) :
  is_zero (vec3_dot v v) = true ->
  is_finite (v3_0 v) = true /\ is_finite (v3_1 v) = true
  /\ is_finite (v3_2 v) = true.
Proof.
  destruct v as [v0 v1 v2]. unfold vec3_dot. cbn [v3_0 v3_1 v3_2].
  intros Hz. apply is_zero_finite in Hz.
  repeat split.
  - destruct (is_finite v0) eqn:E; [reflexivity |].
    rewrite fadd_not_finite_l in Hz; [discriminate Hz |].
    apply fadd_not_finite_l. now apply fmul_self_not_finite.
  - destruct (is_finite v1) eqn:E; [reflexivity |].
    rewrite fadd_not_finite_l in Hz; [discriminate Hz |].
    apply fadd_not_finite_r. now apply fmul_self_not_finite.
  - destruct (is_finite v2) eqn:E; [reflexivity |].
    rewrite fadd_not_finite_r in Hz; [discriminate Hz |].
    now apply fmul_self_not_finite.
Qed.

Lemma fdiv_by_plus_zero (x : GLfloat) :
  is_finite x = true ->
  fdiv x (S754_zero false)
  = if is_zero x then S754_nan else S754_infinity (sign_bit x).
Proof.
  destruct x as [s | s | | s m e]; try discriminate; intros _; cbn;
    now rewrite ?xorb_false_r.
Qed.

(** X6: when the squared length [v * v] is a zero (the vector is zero, or
    its components are so small that their squares underflow), every
    component of [v] is a finite number, [length(v)] is [+0], and no
    component of [normalize(v)] is a finite number: a zero component
    becomes a NaN, any other the infinity of its sign. *)
Theorem normalize_zero_length (v : vec3) :
  is_zero (vec3_dot v v) = true ->
  length v = S754_zero false
  /\ Forall (fun c => is_finite c = true) (vec3_buffer v)
  /\ Forall2 (fun c r =>
                r = if is_zero c then S754_nan
                    else S754_infinity (sign_bit c))
             (vec3_buffer v) (vec3_buffer (normalize v))
  /\ Forall (fun r => is_finite r = false) (vec3_buffer (normalize v)).
Proof.
  intros Hz.
  destruct (vec3_dot_zero_finite v Hz) as [F0 [F1 F2]].
  assert (Hl : length v = S754_zero false).
  { unfold length. pose proof (vec3_dot_self_sign v) as Hs.
    destruct (vec3_dot v v) as [[|] | | |]; try discriminate. reflexivity. }
  unfold normalize. rewrite Hl.
  destruct v as [v0 v1 v2]. unfold vec3_div, vec3_buffer.
  cbn [v3_0 v3_1 v3_2] in *.
  rewrite !fdiv_by_plus_zero by assumption.
  split; [reflexivity |].
  split; [repeat constructor; assumption |].
  split; [repeat constructor |].
  repeat (apply Forall_cons; [| ]); try apply Forall_nil.
  - now destruct (is_zero v0).
  - now destruct (is_zero v1).
  - now destruct (is_zero v2).
Qed.

Lemma normalize_zero_length_witness :
  let tiny :=
    Vec3 (S754_finite false 8388608 (-123)) (of_int 0)
         (S754_finite true 12582912 (-130)) in
  (is_zero (vec3_dot vec3_default vec3_default) = true
   /\ normalize vec3_default = Vec3 S754_nan S754_nan S754_nan)
  /\ (vec3_finite tiny = true
      /\ is_zero (vec3_dot tiny tiny) = true
      /\ length tiny = S754_zero false
      /\ normalize tiny
         = Vec3 (S754_infinity false) S754_nan (S754_infinity true)).
Proof.
  cbv zeta. split.
  - split; [reflexivity |].
    destruct (normalize_zero_length vec3_default eq_refl) as [_ [_ [H _]]].
    destruct (normalize vec3_default) as [n0 n1 n2].
    unfold vec3_buffer in H. cbn [v3_0 v3_1 v3_2] in H.
    inversion H as [| ? ? ? ? E0 H']; subst.
    inversion H' as [| ? ? ? ? E1 H'']; subst.
    inversion H'' as [| ? ? ? ? E2 _]; subst. reflexivity.
  - destruct (normalize_zero_length
                (Vec3 (S754_finite false 8388608 (-123)) (of_int 0)
                      (S754_finite true 12582912 (-130))) eq_refl)
      as [Hl _].
    split; [reflexivity |]. split; [reflexivity |].
    split; [exact Hl | reflexivity].
Defined.

(** X7: when the squared length [v * v] of a vector of finite numbers
    overflows to [+infinity], [length(v)] is [+infinity] and [normalize(v)]
    is a vector of zeros: the direction is lost. *)
Theorem normalize_overflow (v : vec3) :
  is_finite (v3_0 v) = true -> is_finite (v3_1 v) = true ->
  is_finite (v3_2 v) = true ->
  vec3_dot v v = S754_infinity false ->
  length v = S754_infinity false
  /\ Forall (fun c => is_zero c = true) (vec3_buffer (normalize v)).
Proof.
  intros H0 H1 H2 Hd. unfold normalize, length. rewrite Hd.
  change (fsqrt (S754_infinity false)) with (S754_infinity false).
  destruct v as [v0 v1 v2]. unfold vec3_div, vec3_buffer.
  cbn [v3_0 v3_1 v3_2] in *.
  split; [reflexivity |].
  repeat (apply Forall_cons; [| ]); try apply Forall_nil.
  - now destruct v0.
  - now destruct v1.
  - now destruct v2.
Qed.

Lemma normalize_overflow_witness :
  let v := Vec3 (of_int (2 ^ 100)) (of_int 3) (of_int (-4)) in
  vec3_dot v v = S754_infinity false
  /\ length v = S754_infinity false
  /\ normalize v = Vec3 (S754_zero false) (S754_zero false) (S754_zero true).
Proof.
  cbv zeta. split; [reflexivity |].
  split.
  - exact (proj1 (normalize_overflow
                    (Vec3 (of_int (2 ^ 100)) (of_int 3) (of_int (-4)))
                    eq_refl eq_refl eq_refl eq_refl)).
  - reflexivity.
Defined.

(** ** The identity matrices *)

(** X8: [mat3() * v] is numerically [v] for a vector [v] of finite numbers,
    and [mat3()] and [mat4()] are units of the matrix products on both
    sides: [mat3() * A], [A * mat3()], [mat4() * B] and [B * mat4()] are
    numerically [A] and [B] for matrices of finite numbers. *)
Theorem default_matrices_are_units :
  (forall v, vec3_finite v = true -> vec3_same (mat3_mul_vec3 mat3_default v) v)
  /\ (forall A, mat3_finite A = true ->
        mat3_same (mat3_mul mat3_default A) A
        /\ mat3_same (mat3_mul A mat3_default) A)
  /\ (forall B, mat4_finite B = true ->
        mat4_same (mat4_mul mat4_default B) B
        /\ mat4_same (mat4_mul B mat4_default) B).
Proof.
  split; [| split].
  - intros [v0 v1 v2] Hv. split_finite.
    unfold vec3_same, mat3_mul_vec3, mat3_default, vec3_dot.
    cbn [v3_0 v3_1 v3_2]. by_units. repeat split; drop_zeros.
  - intros [[a00 a01 a02] [a10 a11 a12] [a20 a21 a22]] HA. split_finite.
    unfold mat3_same, vec3_same, mat3_mul, mat3_default.
    cbn [m3_0 m3_1 m3_2 v3_0 v3_1 v3_2]. by_units.
    repeat split; drop_zeros.
  - intros [[b00 b01 b02 b03] [b10 b11 b12 b13] [b20 b21 b22 b23]
            [b30 b31 b32 b33]] HB. split_finite.
    unfold mat4_same, mat4_buffer, vec4_buffer, mat4_mul, mat4_default.
    cbn [m4_0 m4_1 m4_2 m4_3 v4_0 v4_1 v4_2 v4_3 app]. by_units.
    split; repeat (apply Forall2_cons; [drop_zeros |]); apply Forall2_nil.
Qed.

Lemma default_matrices_are_units_witness :
  let v := Vec3 (of_int 3) (S754_zero true) (of_int (-7)) in
  let A := mat3_of (of_int 1) (of_int 2) (of_int 3)
                   (of_int 4) (of_int 5) (of_int 6)
                   (of_int 7) (of_int 8) (of_int 9) in
  let B := translation v in
  vec3_same (mat3_mul_vec3 mat3_default v) v
  /\ (mat3_same (mat3_mul mat3_default A) A
      /\ mat3_same (mat3_mul A mat3_default) A)
  /\ (mat4_same (mat4_mul mat4_default B) B
      /\ mat4_same (mat4_mul B mat4_default) B).
Proof.
  cbv zeta. destruct default_matrices_are_units as [Hv [HA HB]].
  split; [apply Hv; reflexivity |].
  split; [apply HA; reflexivity | apply HB; reflexivity].
Defined.

(** ** Transformations applied to vectors *)

(** X9: [translation(t)] moves the point [(x, y, z, 1)] to
    [(x + t[0], y + t[1], z + t[2], 1)], each sum being one rounded
    addition, and leaves the direction [(x, y, z, 0)] where it is, for
    finite [t], [x], [y], [z] (up to the sign of a zero component). *)
Theorem translation_of_points_and_directions (t : vec3) (x y z : GLfloat) :
  vec3_finite t = true -> vec3_finite (Vec3 x y z) = true ->
  vec4_same (mat4_mul_vec4 (translation t) (Vec4 x y z (of_int 1)))
            (Vec4 (fadd x (v3_0 t)) (fadd y (v3_1 t)) (fadd z (v3_2 t))
                  (of_int 1))
  /\ vec4_same (mat4_mul_vec4 (translation t) (Vec4 x y z (of_int 0)))
               (Vec4 x y z (of_int 0)).
Proof.
  destruct t as [t0 t1 t2]. intros Ht Hp. split_finite.
  unfold vec4_same, mat4_mul_vec4, translation, mat4_of, vec4_dot.
  cbn [v4_0 v4_1 v4_2 v4_3 v3_0 v3_1 v3_2]. by_units.
  split; repeat split;
    solve [ drop_zeros | apply fadd_same_l; drop_zeros ].
Qed.

Lemma translation_of_points_and_directions_witness :
  let t := Vec3 (of_int 1) (of_int 2) (of_int 3) in
  vec3_finite t = true
  /\ vec3_finite (Vec3 (of_int 5) (of_int 0) (of_int (-3))) = true
  /\ vec4_same
       (mat4_mul_vec4 (translation t)
          (Vec4 (of_int 5) (of_int 0) (of_int (-3)) (of_int 1)))
       (Vec4 (fadd (of_int 5) (of_int 1)) (fadd (of_int 0) (of_int 2))
             (fadd (of_int (-3)) (of_int 3)) (of_int 1))
  /\ vec4_same
       (mat4_mul_vec4 (translation t)
          (Vec4 (of_int 5) (of_int 0) (of_int (-3)) (of_int 0)))
       (Vec4 (of_int 5) (of_int 0) (of_int (-3)) (of_int 0)).
Proof.
  cbv zeta. split; [reflexivity |]. split; [reflexivity |].
  exact (translation_of_points_and_directions
           (Vec3 (of_int 1) (of_int 2) (of_int 3))
           (of_int 5) (of_int 0) (of_int (-3)) eq_refl eq_refl).
Defined.

(** X10: [translation(s) * translation(t)] is numerically
    [translation(t + s)], for finite [s] and [t]. *)
Theorem translation_composes (s t : vec3) :
  vec3_finite s = true -> vec3_finite t = true ->
  mat4_same (mat4_mul (translation s) (translation t))
            (translation (vec3_add t s)).
Proof.
  destruct s as [s0 s1 s2], t as [t0 t1 t2]. intros Hs Ht. split_finite.
  unfold mat4_same, mat4_buffer, vec4_buffer, mat4_mul, translation,
    vec3_add, mat4_of.
  cbn [m4_0 m4_1 m4_2 m4_3 v4_0 v4_1 v4_2 v4_3 app]. by_units.
  repeat (apply Forall2_cons;
          [solve [ drop_zeros | apply fadd_same_l; drop_zeros ] |]).
  apply Forall2_nil.
Qed.

Lemma translation_composes_witness :
  let s := Vec3 (of_int 1) (of_int 2) (of_int 3) in
  let t := Vec3 (of_int 10) (of_int (-2)) (of_int 0) in
  vec3_finite s = true /\ vec3_finite t = true
  /\ mat4_same (mat4_mul (translation s) (translation t))
               (translation (vec3_add t s)).
Proof.
  cbv zeta. split; [reflexivity |]. split; [reflexivity |].
  exact (translation_composes (Vec3 (of_int 1) (of_int 2) (of_int 3))
           (Vec3 (of_int 10) (of_int (-2)) (of_int 0)) eq_refl eq_refl).
Defined.

(** X11: [scale(s) * (x, y, z, w)] is numerically
    [(s[0] * x, s[1] * y, s[2] * z, w)], for finite [s] and [(x, y, z, w)]:
    each of the first three components is one rounded product. *)
Theorem scale_of_vector (s : vec3) (v : vec4) :
  vec3_finite s = true -> vec4_finite v = true ->
  vec4_same (mat4_mul_vec4 (scale s) v)
            (Vec4 (fmul (v3_0 s) (v4_0 v)) (fmul (v3_1 s) (v4_1 v))
                  (fmul (v3_2 s) (v4_2 v)) (v4_3 v)).
Proof.
  destruct s as [s0 s1 s2], v as [x y z w]. intros Hs Hv. split_finite.
  unfold vec4_same, mat4_mul_vec4, scale, mat4_of, vec4_dot.
  cbn [v4_0 v4_1 v4_2 v4_3 v3_0 v3_1 v3_2]. by_units.
  repeat split; drop_zeros.
Qed.

Lemma scale_of_vector_witness :
  let s := Vec3 (of_int 2) (of_int 3) (of_int 4) in
  let v := Vec4 (of_int 1) (of_int (-1)) (of_int 0) (of_int 1) in
  vec3_finite s = true /\ vec4_finite v = true
  /\ vec4_same (mat4_mul_vec4 (scale s) v)
               (Vec4 (fmul (of_int 2) (of_int 1))
                     (fmul (of_int 3) (of_int (-1)))
                     (fmul (of_int 4) (of_int 0)) (of_int 1)).
Proof.
  cbv zeta. split; [reflexivity |]. split; [reflexivity |].
  exact (scale_of_vector (Vec3 (of_int 2) (of_int 3) (of_int 4))
           (Vec4 (of_int 1) (of_int (-1)) (of_int 0) (of_int 1))
           eq_refl eq_refl).
Defined.

(** X12: a rotation about an axis leaves the coordinate along that axis and
    the fourth coordinate of a finite vector as they are, whatever [cos] and
    [sin] return (a NaN included): the rows of these coordinates are rows of
    the identity. *)
Theorem rotations_fix_their_axis
  (cosf sinf : GLfloat -> GLfloat) (a : GLfloat) (v : vec4) :
  vec4_finite v = true ->
  (same_value (v4_0 (mat4_mul_vec4 (xrotation cosf sinf a) v)) (v4_0 v)
   /\ same_value (v4_3 (mat4_mul_vec4 (xrotation cosf sinf a) v)) (v4_3 v))
  /\ (same_value (v4_1 (mat4_mul_vec4 (yrotation cosf sinf a) v)) (v4_1 v)
      /\ same_value (v4_3 (mat4_mul_vec4 (yrotation cosf sinf a) v)) (v4_3 v))
  /\ (same_value (v4_2 (mat4_mul_vec4 (zrotation cosf sinf a) v)) (v4_2 v)
      /\ same_value (v4_3 (mat4_mul_vec4 (zrotation cosf sinf a) v)) (v4_3 v)).
Proof.
  destruct v as [x y z w]. intros Hv. split_finite.
  unfold mat4_mul_vec4, xrotation, yrotation, zrotation, mat4_of, vec4_dot.
  cbn [v4_0 v4_1 v4_2 v4_3]. by_units.
  repeat split; drop_zeros.
Qed.

Lemma rotations_fix_their_axis_witness :
  let v := Vec4 (of_int 1) (of_int 2) (of_int 3) (of_int 1) in
  vec4_finite v = true
  /\ (same_value (v4_0 (mat4_mul_vec4 (xrotation cos_at_0 sin_at_0 (of_int 0))
                          v)) (v4_0 v)
      /\ same_value (v4_3 (mat4_mul_vec4 (xrotation cos_at_0 sin_at_0
                                            (of_int 0)) v)) (v4_3 v))
  /\ (same_value (v4_1 (mat4_mul_vec4 (yrotation cos_at_0 sin_at_0 (of_int 0))
                          v)) (v4_1 v)
      /\ same_value (v4_3 (mat4_mul_vec4 (yrotation cos_at_0 sin_at_0
                                            (of_int 0)) v)) (v4_3 v))
  /\ (same_value (v4_2 (mat4_mul_vec4 (zrotation cos_at_0 sin_at_0 (of_int 0))
                          v)) (v4_2 v)
      /\ same_value (v4_3 (mat4_mul_vec4 (zrotation cos_at_0 sin_at_0
                                            (of_int 0)) v)) (v4_3 v)).
Proof.
  cbv zeta. split; [reflexivity |].
  exact (rotations_fix_their_axis cos_at_0 sin_at_0 (of_int 0)
           (Vec4 (of_int 1) (of_int 2) (of_int 3) (of_int 1)) eq_refl).
Defined.

(** ** Projections *)

(** X13: whatever the parameters of a projection (not even finite), applied
    to a finite vector [p] the two perspective matrices give the fourth
    coordinate [-p[2]], and the orthogonal matrix leaves [p[3]]. *)
Theorem projections_fourth_coordinate
  (tanf : double -> double) (v a l r b t n f : GLfloat) (p : vec4) :
  vec4_finite p = true ->
  same_value (v4_3 (mat4_mul_vec4 (perspective tanf v a n f) p))
             (fneg (v4_2 p))
  /\ same_value (v4_3 (mat4_mul_vec4 (perspective_frustum l r b t n f) p))
                (fneg (v4_2 p))
  /\ same_value (v4_3 (mat4_mul_vec4 (orthogonal l r b t n f) p)) (v4_3 p).
Proof.
  destruct p as [x y z w]. intros Hp. split_finite.
  unfold mat4_mul_vec4, perspective, perspective_frustum, orthogonal,
    mat4_of, vec4_dot.
  cbv zeta. cbn [v4_0 v4_1 v4_2 v4_3]. by_units.
  rewrite !fmul_m1_l by assumption.
  repeat split; drop_zeros.
Qed.

Lemma projections_fourth_coordinate_witness :
  let p := Vec4 (of_int 1) (of_int 2) (of_int (-5)) (of_int 1) in
  let one := of_int 1 in
  vec4_finite p = true
  /\ same_value
       (v4_3 (mat4_mul_vec4 (perspective tan_one one one one (of_int 10)) p))
       (fneg (v4_2 p))
  /\ same_value
       (v4_3 (mat4_mul_vec4
                (perspective_frustum (of_int (-1)) one (of_int (-1)) one one
                   (of_int 10)) p))
       (fneg (v4_2 p))
  /\ same_value
       (v4_3 (mat4_mul_vec4
                (orthogonal (of_int (-1)) one (of_int (-1)) one one
                   (of_int 10)) p))
       (v4_3 p).
Proof.
  cbv zeta. split; [reflexivity |].
  exact (projections_fourth_coordinate tan_one (of_int 1) (of_int 1)
           (of_int (-1)) (of_int 1) (of_int (-1)) (of_int 1) (of_int 1)
           (of_int 10)
           (Vec4 (of_int 1) (of_int 2) (of_int (-5)) (of_int 1)) eq_refl).
Defined.




(** X30: for a volume symmetric about the origin the orthogonal projection
    has no translation in x and y: with [x] and [y] finite, nonzero and of
    magnitude below [2^127], the entries [[0][0]] and [[1][1]] of
    [orthogonal(-x, x, -y, y, n, f)] are [1 / x] and [1 / y], each one
    rounded division, and the entries [[0][3]] and [[1][3]] are zeros. *)
Theorem orthogonal_symmetric_volume (x y n f : GLfloat) :
  doubles_finitely x = true -> is_zero x = false ->
  doubles_finitely y = true -> is_zero y = false ->
  let M := orthogonal (fneg x) x (fneg y) y n f in
  mat4_elt M 0 0 = Some (fdiv (of_int 1) x)
  /\ mat4_elt M 1 1 = Some (fdiv (of_int 1) y)
  /\ option_map is_zero (mat4_elt M 0 3) = Some true
  /\ option_map is_zero (mat4_elt M 1 3) = Some true.
Proof.
  intros Hx Hx0 Hy Hy0. cbv zeta.
  pose proof (doubles_finitely_finite x Hx) as Fx.
  pose proof (doubles_finitely_finite y Hy) as Fy.
  unfold orthogonal, mat4_elt, mat4_of.
  cbn [mat4_get vec4_get m4_0 m4_1 v4_0 v4_1 v4_3 option_map].
  rewrite !fsub_fneg, !fadd_fneg by assumption.
  change (of_int 2) with (fadd (of_int 1) (of_int 1)).
  rewrite !fdiv_doubled by (assumption || reflexivity).
  split; [reflexivity |]. split; [reflexivity |].
  destruct x as [s | s | | s m e]; try discriminate.
  destruct y as [s' | s' | | s' m' e']; try discriminate.
  destruct (fadd_self_finite s m e Hx) as [mx [ex ->]].
  destruct (fadd_self_finite s' m' e' Hy) as [my [ey ->]].
  split; reflexivity.
Qed.

Lemma orthogonal_symmetric_volume_witness :
  let M := orthogonal (of_int (-4)) (of_int 4) (of_int (-3)) (of_int 3)
             (of_int 1) (of_int 10) in
  mat4_elt M 0 0 = Some (fdiv (of_int 1) (of_int 4))
  /\ mat4_elt M 1 1 = Some (fdiv (of_int 1) (of_int 3))
  /\ option_map is_zero (mat4_elt M 0 3) = Some true
  /\ option_map is_zero (mat4_elt M 1 3) = Some true.
Proof.
  exact (orthogonal_symmetric_volume (of_int 4) (of_int 3) (of_int 1)
           (of_int 10) eq_refl eq_refl eq_refl eq_refl).
Defined.

(** ** The normal matrix and non-numbers *)

(** X15: which branch [normal] takes: when the determinant [d] comes out as
    a NaN or as a zero, [normal(M)] is the identity matrix, the test
    [fabs(d) > 0.f] being false on a NaN; for any other [d], an infinity
    included, it is the matrix of cofactors. *)
Theorem normal_determinant_cases (M : mat4) :
  (is_nan (normal_d M) = true \/ is_zero (normal_d M) = true ->
   normal M = mat3_default)
  /\ (is_nan (normal_d M) = false -> is_zero (normal_d M) = false ->
      normal M = normal_cofactors M).
Proof.
  unfold normal. cbv zeta.
  destruct (normal_d M) as [[|] | [|] | | [|] m e]; cbn;
    split; intros; try reflexivity; try discriminate;
    match goal with H : _ \/ _ |- _ => destruct H; discriminate end.
Qed.

Lemma normal_determinant_cases_witness :
  let big := of_int (2 ^ 64) in
  let M := mat4_of big (of_int 0) (of_int 0) (of_int 0)
                   (of_int 0) big big (of_int 0)
                   (of_int 0) (of_int 1) (of_int 2) (of_int 0)
                   (of_int 0) (of_int 0) (of_int 0) (of_int 1) in
  let S := scale (Vec3 big big big) in
  (mat4_finite M = true
   /\ is_nan (normal_d M) = true
   /\ normal M = mat3_default)
  /\ (mat4_finite S = true
      /\ normal_d S = S754_infinity false
      /\ normal S = normal_cofactors S).
Proof.
  cbv zeta. split.
  - split; [reflexivity |]. split; [reflexivity |].
    apply normal_determinant_cases. left. reflexivity.
  - split; [reflexivity |]. split; [reflexivity |].
    apply normal_determinant_cases; reflexivity.
Defined.

(** ** Angle conversion and signs *)

Lemma double_of_float_opp (x : GLfloat) :
  double_of_float (fneg x) = SFopp (double_of_float x).
Proof.
  destruct x as [s | s | | s m e]; try reflexivity.
  unfold double_of_float, fneg, SFopp.
  destruct s; cbn [negb cond_Zopp Z.opp binary_normalize];
    [change false with (negb true) | change true with (negb false) at 1];
    now rewrite binary_round_opp, ?SFopp_involutive.
Qed.

Lemma float_of_double_opp (x : double) :
  float_of_double (SFopp x) = fneg (float_of_double x).
Proof.
  destruct x as [s | s | | s m e]; try reflexivity.
  unfold float_of_double, fneg, SFopp.
  destruct s; cbn [negb cond_Zopp Z.opp binary_normalize];
    [change false with (negb true) | change true with (negb false) at 1];
    now rewrite binary_round_opp, ?SFopp_involutive.
Qed.

(** X16: [to_radians] and [to_degrees] are odd: the conversion of [-x] is
    the opposite of that of [x], for every [x]; they send each zero and each
    infinity to itself, and a NaN to a NaN. *)
Theorem angle_conversions_are_odd :
  (forall d, to_radians (fneg d) = fneg (to_radians d))
  /\ (forall r, to_degrees (fneg r) = fneg (to_degrees r))
  /\ (forall x, is_finite x = false \/ is_zero x = true ->
        to_radians x = x /\ to_degrees x = x).
Proof.
  split; [| split].
  - intros d. unfold to_radians.
    rewrite double_of_float_opp. unfold dmul.
    now rewrite SFmul_opp_l, float_of_double_opp.
  - intros r. unfold to_degrees.
    rewrite double_of_float_opp. unfold dmul.
    now rewrite SFmul_opp_l, float_of_double_opp.
  - intros x Hx. destruct x as [[|] | [|] | | s m e].
    6: { cbn in Hx. destruct Hx as [H | H]; discriminate H. }
    all: destruct literal_values as [E1 E2];
      unfold to_radians, to_degrees; rewrite E1, E2; split; reflexivity.
Qed.

(** ** Indexing, the loops of the products and the buffers *)

(** X17: writing [M[i][j] = x] and reading back: the write is defined
    exactly when [0 <= i, j < 4]; the entry written reads as [x] and every
    other entry reads as before. *)
Theorem mat4_set_then_get (M : mat4) (i j : Z) (x : GLfloat) :
  (0 <= i < 4 /\ 0 <= j < 4 <-> mat4_set M i j x <> None)
  /\ (forall M', mat4_set M i j x = Some M' ->
        mat4_elt M' i j = Some x
        /\ forall i' j', (i', j') <> (i, j) ->
             mat4_elt M' i' j' = mat4_elt M i' j').
Proof.
  split.
  - split.
    + intros [Hi Hj].
      assert (Ei : i = 0 \/ i = 1 \/ i = 2 \/ i = 3) by lia.
      assert (Ej : j = 0 \/ j = 1 \/ j = 2 \/ j = 3) by lia.
      destruct Ei as [-> | [-> | [-> | ->]]];
        destruct Ej as [-> | [-> | [-> | ->]]]; discriminate.
    + intros H.
      destruct i as [| [[|[]|]|[|[]|]|] |]; cbn in H; try congruence;
        destruct j as [| [[|[]|]|[|[]|]|] |]; cbn in H; try congruence; lia.
  - intros M' H.
    destruct i as [| [[|[]|]|[|[]|]|] |]; cbn in H; try discriminate;
      destruct j as [| [[|[]|]|[|[]|]|] |]; cbn in H; try discriminate;
      injection H as <-; (split; [reflexivity |]);
      intros i' j' Hne;
      destruct i' as [| [[|[]|]|[|[]|]|] |]; try reflexivity;
      destruct j' as [| [[|[]|]|[|[]|]|] |]; try reflexivity;
      congruence.
Qed.

(** X18: the two loops of each matrix product stay within the arrays and
    assign every entry of the default-constructed [M]: the result is the
    matrix whose entry [[i][j]] is the sum, from left to right, of the
    products [A[i][k] * B[k][j]]. *)
Theorem products_as_loops :
  (forall A B : mat3, mat3_mul_loops A B = Some (mat3_mul A B))
  /\ (forall A B : mat4, mat4_mul_loops A B = Some (mat4_mul A B))
  /\ (forall (A B : mat4) (i j : Z), 0 <= i < 4 -> 0 <= j < 4 ->
        exists a0 a1 a2 a3 b0 b1 b2 b3,
          mat4_get A i = Some (Vec4 a0 a1 a2 a3)
          /\ mat4_elt B 0 j = Some b0 /\ mat4_elt B 1 j = Some b1
          /\ mat4_elt B 2 j = Some b2 /\ mat4_elt B 3 j = Some b3
          /\ mat4_elt (mat4_mul A B) i j
             = Some (fadd (fadd (fadd (fmul a0 b0) (fmul a1 b1))
                                (fmul a2 b2)) (fmul a3 b3))).
Proof.
  split; [| split].
  - intros [[a00 a01 a02] [a10 a11 a12] [a20 a21 a22]]
           [[b00 b01 b02] [b10 b11 b12] [b20 b21 b22]]. reflexivity.
  - intros [[a00 a01 a02 a03] [a10 a11 a12 a13] [a20 a21 a22 a23]
            [a30 a31 a32 a33]]
           [[b00 b01 b02 b03] [b10 b11 b12 b13] [b20 b21 b22 b23]
            [b30 b31 b32 b33]]. reflexivity.
  - intros [[a00 a01 a02 a03] [a10 a11 a12 a13] [a20 a21 a22 a23]
            [a30 a31 a32 a33]]
           [[b00 b01 b02 b03] [b10 b11 b12 b13] [b20 b21 b22 b23]
            [b30 b31 b32 b33]] i j Hi Hj.
    assert (Ei : i = 0 \/ i = 1 \/ i = 2 \/ i = 3) by lia.
    assert (Ej : j = 0 \/ j = 1 \/ j = 2 \/ j = 3) by lia.
    destruct Ei as [-> | [-> | [-> | ->]]];
      destruct Ej as [-> | [-> | [-> | ->]]];
      do 8 eexists; repeat split.
Qed.

(** ** Resources of the pipeline *)

Lemma read_shader_source_resources {W : Type} (env : Env W) (w : W)
  (name : string) :
  let out := run env (read_shader_source name) w in
  opened (trace_of out) = closed (trace_of out)
  /\ (List.length (opened (trace_of out)) <= 1)%nat
  /\ allocated (trace_of out)
     = match result out with Some b => [buf_ptr b] | None => [] end
  /\ freed (trace_of out) = []
  /\ existsb is_gl (trace_of out) = false
  /\ (shaders_created (trace_of out) = []
      /\ shaders_deleted (trace_of out) = []
      /\ programs_created (trace_of out) = []
      /\ programs_deleted (trace_of out) = []
      /\ attached (trace_of out) = [])
  /\ Forall (fun t => fst t = stderr) (written (trace_of out))
  /\ (List.length (written (trace_of out)) <= 1)%nat
  /\ (result out <> None ->
      written (trace_of out) = []
      /\ existsb silent_cause (trace_of out) = false).
Proof.
  cbv zeta. unfold read_shader_source.
  run_all; cbn; subst; decide_eqb; cbn;
    repeat split; intros; try reflexivity; try congruence; auto.
Qed.

Lemma init_shader_resources {W : Type} (env : Env W) (w : W)
  (type : GLenum) (source : string) :
  let out := run env (init_shader type source) w in
  allocated (trace_of out) = freed (trace_of out)
  /\ existsb is_file_call (trace_of out) = false
  /\ (result out <> 0 ->
      shaders_created (trace_of out) = [result out]
      /\ shaders_deleted (trace_of out) = []
      /\ written (trace_of out) = []
      /\ existsb silent_cause (trace_of out) = false
      /\ existsb compile_failed (trace_of out) = false)
  /\ (result out = 0 ->
      shaders_created (trace_of out) = shaders_deleted (trace_of out))
  /\ programs_created (trace_of out) = []
  /\ programs_deleted (trace_of out) = []
  /\ attached (trace_of out) = []
  /\ Forall (fun t => fst t = stderr) (written (trace_of out))
  /\ (List.length (written (trace_of out)) <= 1)%nat.
Proof.
  cbv zeta. unfold init_shader, report_shader_status.
  run_all; cbn; subst; decide_eqb; cbn;
    repeat split; intros; try reflexivity; try congruence; auto.
Qed.

Lemma init_program_resources {W : Type} (env : Env W) (w : W)
  (vs fs : GLuint) :
  let out := run env (init_program vs fs) w in
  allocated (trace_of out) = freed (trace_of out)
  /\ existsb is_file_call (trace_of out) = false
  /\ shaders_created (trace_of out) = []
  /\ shaders_deleted (trace_of out) = []
  /\ (result out <> 0 ->
      programs_created (trace_of out) = [result out]
      /\ programs_deleted (trace_of out) = []
      /\ written (trace_of out) = []
      /\ attached (trace_of out) = [(result out, vs); (result out, fs)]
      /\ existsb silent_cause (trace_of out) = false
      /\ existsb link_failed (trace_of out) = false)
  /\ (result out = 0 ->
      programs_created (trace_of out) = programs_deleted (trace_of out))
  /\ Forall (fun ps => fst ps <> 0 /\ (snd ps = vs \/ snd ps = fs))
            (attached (trace_of out))
  /\ Forall (fun t => fst t = stderr) (written (trace_of out))
  /\ (List.length (written (trace_of out)) <= 1)%nat.
Proof.
  cbv zeta. unfold init_program, report_program_status.
  run_all; cbn; subst; decide_eqb; cbn;
    repeat split; intros; try reflexivity; try congruence; auto.
Qed.

Ltac unfold_observers :=
  unfold allocated, freed, opened, closed, shaders_created, shaders_deleted,
    programs_created, programs_deleted, attached, written in *.

Ltac resources_finish :=
  repeat split; intros; try contradiction; auto; try lia;
  try solve [ apply perm_swap | apply Permutation_app_comm
            | apply Permutation_refl | apply Permutation_cons_append ].

Lemma from_sources_resources {W : Type} (env : Env W) (w : W)
  (vert frag : buffer) :
  let out := run env (init_program_from_sources vert frag) w in
  allocated (trace_of out) = freed (trace_of out)
  /\ existsb is_file_call (trace_of out) = false
  /\ Permutation (shaders_created (trace_of out))
                 (shaders_deleted (trace_of out))
  /\ (result out <> 0 ->
      programs_created (trace_of out) = [result out]
      /\ programs_deleted (trace_of out) = []
      /\ written (trace_of out) = []
      /\ existsb silent_cause (trace_of out) = false
      /\ existsb compile_failed (trace_of out) = false
      /\ existsb link_failed (trace_of out) = false
      /\ exists vs fs,
           vs <> 0 /\ fs <> 0
           /\ shaders_created (trace_of out) = [vs; fs]
           /\ attached (trace_of out) = [(result out, vs); (result out, fs)])
  /\ (result out = 0 ->
      programs_created (trace_of out) = programs_deleted (trace_of out))
  /\ Forall (fun ps => fst ps <> 0 /\ snd ps <> 0) (attached (trace_of out))
  /\ Forall (fun t => fst t = stderr) (written (trace_of out))
  /\ (List.length (written (trace_of out)) <= 2)%nat.
Proof.
  cbv zeta.
  destruct (from_sources_unfold env w vert frag) as [Hres [u1 [u2 Htr]]].
  cbv zeta in Hres, Htr.
  pose proof (init_shader_resources env w GL_VERTEX_SHADER (buf_text vert))
    as Hv.
  pose proof (init_shader_trace env w GL_VERTEX_SHADER (buf_text vert))
    as Hv'.
  set (comp_v := run env (init_shader GL_VERTEX_SHADER (buf_text vert)) w)
    in *.
  pose proof (init_shader_resources env (world_of comp_v) GL_FRAGMENT_SHADER
                (buf_text frag)) as Hf.
  pose proof (init_shader_trace env (world_of comp_v) GL_FRAGMENT_SHADER
                (buf_text frag)) as Hf'.
  set (comp_f := run env (init_shader GL_FRAGMENT_SHADER (buf_text frag))
                     (world_of comp_v)) in *.
  pose proof (init_program_resources env (world_of comp_f) (result comp_v)
                (result comp_f)) as Hp.
  pose proof (init_program_trace env (world_of comp_f) (result comp_v)
                (result comp_f)) as Hp'.
  set (link := run env (init_program (result comp_v) (result comp_f))
                   (world_of comp_f)) in *.
  cbv zeta in Hv, Hf, Hp, Hv', Hf', Hp'.
  destruct Hv as [Va [Vfile [Vok [Vko [Vpc [Vpd [Vat [Vw Vn]]]]]]]].
  destruct Hf as [Fa [Ffile [Fok [Fko [Fpc [Fpd [Fat [Fw Fn]]]]]]]].
  destruct Hp as [Pa [Pfile [Psc [Psd [Pok [Pko [Pat [Pw Pn]]]]]]]].
  destruct Hv' as [_ [_ [Vlf _]]]. destruct Hf' as [_ [_ [Flf _]]].
  destruct Hp' as [_ [_ [Pcf _]]].
  rewrite Hres, Htr. clear Hres Htr.
  unfold_observers.
  rewrite !flat_map_app, !existsb_app, !Forall_app, !length_app.
  rewrite Va, Fa, Vfile, Ffile, Vpc, Fpc, Vpd, Fpd, Vat, Fat, Vlf, Flf.
  cbn [flat_map allocation release program_creation program_deletion
       attachment writing existsb is_file_call app orb List.length
       shader_creation shader_deletion silent_cause compile_failed
       link_failed Nat.add].
  rewrite !app_nil_r, ?orb_false_r, ?Nat.add_0_r.
  destruct (Z.eqb_spec (result comp_v) 0) as [Ev0 | Ev0];
    destruct (Z.eqb_spec (result comp_f) 0) as [Ef0 | Ef0];
    cbn [negb andb run result trace_of world_of fst snd flat_map existsb app
         List.length];
    rewrite ?app_nil_r, ?orb_false_r, ?Nat.add_0_r;
    try rewrite (Vko Ev0); try rewrite (Fko Ef0);
    try (destruct (Vok Ev0) as [Vc [Vd [Vwr [Vsil Vcf]]]];
         rewrite Vc, Vd, Vwr, Vsil, Vcf);
    try (destruct (Fok Ef0) as [Fc [Fd [Fwr [Fsil Fcf]]]];
         rewrite Fc, Fd, Fwr, Fsil, Fcf);
    cbn [app orb List.length Nat.add].
  4: { fold link. rewrite Pa, Pfile, Psc, Psd, Pcf. cbn [app].
       assert (Hat : Forall (fun ps : Z * Z => fst ps <> 0 /\ snd ps <> 0)
                       (flat_map attachment (trace_of link))).
       { revert Pat. apply Forall_impl.
         intros [p s] [Hp [Hs | Hs]]; cbn in *; subst; auto. }
       destruct (Z.eq_dec (result link) 0) as [El | El].
       - rewrite (Pko El), El. resources_finish.
       - destruct (Pok El) as [Pc [Pd [Pwr [Patt [Psil Plf]]]]].
         rewrite Pc, Pd, Pwr, Psil, Plf. resources_finish.
         exists (result comp_v), (result comp_f). now repeat split. }
  all: resources_finish.
Qed.

Lemma no_file_call_no_stream (tr : list event) :
  existsb is_file_call tr = false -> opened tr = [] /\ closed tr = [].
Proof.
  unfold opened, closed.
  induction tr as [| [R c r] tr IH]; [now split |].
  cbn [existsb]. intros H. apply orb_false_iff in H. destruct H as [He Ht].
  destruct (IH Ht) as [Io Ic].
  destruct c; cbn in He; try discriminate; cbn [flat_map]; rewrite Io, Ic;
    now split.
Qed.

Lemma Permutation_app_rev3 {A : Type} (a b x : list A) :
  Permutation (a ++ b ++ x) (x ++ b ++ a).
Proof.
  apply (Permutation_trans (Permutation_app_comm a (b ++ x))).
  rewrite (app_assoc x b a).
  apply Permutation_app_tail, Permutation_app_comm.
Qed.

Lemma build_resources {W : Type} (env : Env W) (w : W)
  (vert_name frag_name : string) :
  let out := run env (init_program_from_files vert_name frag_name) w in
  Permutation (allocated (trace_of out)) (freed (trace_of out))
  /\ opened (trace_of out) = closed (trace_of out)
  /\ Permutation (shaders_created (trace_of out))
                 (shaders_deleted (trace_of out))
  /\ (result out <> 0 ->
      programs_created (trace_of out) = [result out]
      /\ programs_deleted (trace_of out) = []
      /\ written (trace_of out) = []
      /\ existsb silent_cause (trace_of out) = false
      /\ existsb compile_failed (trace_of out) = false
      /\ existsb link_failed (trace_of out) = false
      /\ exists vs fs,
           vs <> 0 /\ fs <> 0
           /\ shaders_created (trace_of out) = [vs; fs]
           /\ attached (trace_of out) = [(result out, vs); (result out, fs)])
  /\ (result out = 0 ->
      programs_created (trace_of out) = programs_deleted (trace_of out))
  /\ Forall (fun ps => fst ps <> 0 /\ snd ps <> 0) (attached (trace_of out))
  /\ Forall (fun t => fst t = stderr) (written (trace_of out))
  /\ (List.length (written (trace_of out)) <= 2)%nat
  /\ exists files rest,
       trace_of out = files ++ rest
       /\ existsb is_gl files = false
       /\ existsb is_file_call rest = false.
Proof.
  cbv zeta.
  destruct (build_unfold env w vert_name frag_name) as [Hres [u1 [u2 Htr]]].
  cbv zeta in Hres, Htr.
  pose proof (read_shader_source_resources env w vert_name) as Hv.
  set (load_v := run env (read_shader_source vert_name) w) in *.
  pose proof (read_shader_source_resources env (world_of load_v) frag_name)
    as Hf.
  set (load_f := run env (read_shader_source frag_name) (world_of load_v))
    in *.
  cbv zeta in Hv, Hf.
  destruct Hv as [Vo [Vo1 [Va [Vfr [Vgl [[Vsc [Vsd [Vpc [Vpd Vat]]]]
                  [Vw [Vn Vok]]]]]]]].
  destruct Hf as [Fo [Fo1 [Fa [Ffr [Fgl [[Fsc [Fsd [Fpc [Fpd Fat]]]]
                  [Fw [Fn Fok]]]]]]]].
  destruct gl_events as [_ [_ [_ [Gcf Glf]]]].
  pose proof (existsb_weaken _ _ _ Gcf Vgl) as Vcf.
  pose proof (existsb_weaken _ _ _ Gcf Fgl) as Fcf.
  pose proof (existsb_weaken _ _ _ Glf Vgl) as Vlf.
  pose proof (existsb_weaken _ _ _ Glf Fgl) as Flf.
  rewrite Hres.
  split; [| split; [| split; [| split; [| split; [| split; [| split;
    [| split]]]]]]].
  9: { exists (trace_of load_v ++ trace_of load_f). eexists.
       split; [rewrite Htr, <- app_assoc; reflexivity |].
       rewrite !existsb_app, Vgl, Fgl. split; [reflexivity |].
       destruct (result load_v) as [vert |], (result load_f) as [frag |];
         cbn [run trace_of snd existsb is_file_call orb option_map];
         try reflexivity.
       destruct (from_sources_resources env (world_of load_f) vert frag)
         as [_ [Hfile _]].
       cbv zeta in Hfile. now rewrite Hfile. }
  all: rewrite Htr; clear Hres Htr; unfold_observers;
    rewrite ?flat_map_app, ?existsb_app, ?Forall_app, ?length_app;
    rewrite ?Va, ?Vfr, ?Fa, ?Ffr, ?Vsc, ?Vsd, ?Vpc, ?Vpd, ?Vat, ?Fsc, ?Fsd,
      ?Fpc, ?Fpd, ?Fat, ?Vcf, ?Fcf, ?Vlf, ?Flf, ?Vo, ?Fo.
  all: destruct (result load_v) as [vert |] eqn:Rv;
    destruct (result load_f) as [frag |] eqn:Rf;
    cbn [run result trace_of fst snd flat_map existsb app orb option_map
         release opening closing shader_creation shader_deletion
         program_creation program_deletion attachment writing silent_cause
         compile_failed link_failed List.length Nat.add];
    rewrite ?app_nil_r, ?orb_false_r, ?Nat.add_0_r.
  all: try (destruct (from_sources_resources env (world_of load_f) vert frag)
              as [Ia [Ifile [Ish [Iok [Iko [Iat [Iw In]]]]]]];
            cbv zeta in Ia, Ifile, Ish, Iok, Iko, Iat, Iw, In;
            destruct (no_file_call_no_stream _ Ifile) as [Iop Icl];
            unfold_observers;
            destruct (Vok ltac:(discriminate)) as [Vwr Vsil];
            destruct (Fok ltac:(discriminate)) as [Fwr Fsil];
            rewrite ?Ia, ?Iop, ?Icl, ?Vwr, ?Fwr, ?Vsil, ?Fsil;
            cbn [app orb List.length Nat.add]).
  all: first [ exact Iok
             | apply (Permutation_app_rev3 [_] [_])
             | solve [resources_finish] ].
Qed.

(** *** The link step *)

Lemma init_program_link {W : Type} (env : Env W) (w : W) (vs fs : GLuint) :
  let out := run env (init_program vs fs) w in
  let p := fst (respond env glCreateProgram w) in
  existsb is_glLinkProgram (trace_of out) = negb (p =? 0)
  /\ attached (trace_of out)
     = (if negb (p =? 0) then [(p, vs); (p, fs)] else []).
Proof.
  cbv zeta. unfold init_program, report_program_status.
  run_all; cbn; subst; decide_eqb; cbn; split; reflexivity.
Qed.

Lemma init_program_contract {W : Type} (env : Env W) (w : W)
  (vs fs : GLuint) :
  let out := run env (init_program vs fs) w in
  exists p,
    (p = 0 /\ trace_of out = [Ev glCreateProgram p] /\ result out = 0)
    \/ (p <> 0
        /\ exists st : bool * W * list event,
             status_contract (glGetProgramiv p) GL_LINK_STATUS
               (glGetProgramInfoLog p) "Program Error:" stderr st
             /\ trace_of out
                = [Ev glCreateProgram p;
                   Ev (glAttachShader p vs) tt;
                   Ev (glAttachShader p fs) tt;
                   Ev (glLinkProgram p) tt]
                  ++ trace_of st
                  ++ (if result st then [] else [Ev (glDeleteProgram p) tt])
             /\ result out = (if result st then p else 0)).
Proof.
  cbv zeta. unfold init_program.
  run_calls. exists r. destruct (Z.eqb_spec r 0) as [E | E]; cbn [negb].
  - left. run_calls. subst. repeat split; reflexivity.
  - right. split; [exact E |].
    run_calls. destruct_units.
    match goal with
    | |- context [run env (report_program_status r stderr) ?w'] =>
        exists (run env (report_program_status r stderr) w');
        split; [apply report_program_status_contract |];
        destruct (run env (report_program_status r stderr) w')
          as [[ok w''] tr]
    end.
    cbn [result world_of trace_of fst snd].
    destruct ok; run_calls; destruct_units;
      cbn [result trace_of fst snd app]; rewrite ?app_nil_r;
      split; reflexivity.
Qed.

(** C3, as amended: in [init_program(vert_name, frag_name)],
    - if either load returned no buffer, the run makes no call to the
      driver at all (no shader object is created or compiled for either
      stage, no program object is asked for) and returns the handle 0; so
      a shader object is created or compiled only when both loads returned
      a buffer;
    - if both loads returned a buffer, a program object is asked for if
      and only if both [init_shader] calls returned a nonzero handle; the
      two shaders are attached to it, the vertex shader first, and the
      link is requested if and only if, in addition, [glCreateProgram]
      answered a nonzero handle; the result is then the result of
      [init_program(vert_shader, frag_shader)], whose calls are a segment
      of the run, and 0 if a stage did not compile;
    - [init_program(vert_shader, frag_shader)] asks for a program object;
      given none it makes no further call and returns 0; given [p] it
      attaches the vertex shader, attaches the fragment shader, requests
      the link and queries the link status, in this order, and returns
      [p] when the status is true, and deletes [p] and returns 0 when it
      is not;
    - a compile status or a link status of 0 anywhere in the run means
      that the result is 0. *)
Theorem init_program_from_files_guards
  (W : Type) (env : Env W) (w : W) (vert_name frag_name : string) :
  let load_v := run env (read_shader_source vert_name) w in
  let load_f := run env (read_shader_source frag_name) (world_of load_v) in
  let build := run env (init_program_from_files vert_name frag_name) w in
  (result load_v = None \/ result load_f = None ->
   existsb is_gl (trace_of build) = false /\ result build = 0)
  /\ (existsb is_glCreateShader (trace_of build) = true
      \/ existsb is_glCompileShader (trace_of build) = true ->
      result load_v <> None /\ result load_f <> None)
  /\ (forall vert frag,
        result load_v = Some vert -> result load_f = Some frag ->
        let comp_v := run env (init_shader GL_VERTEX_SHADER (buf_text vert))
                          (world_of load_f) in
        let comp_f := run env (init_shader GL_FRAGMENT_SHADER (buf_text frag))
                          (world_of comp_v) in
        let both := negb (result comp_v =? 0) && negb (result comp_f =? 0) in
        let link := run env (init_program (result comp_v) (result comp_f))
                        (world_of comp_f) in
        let program := fst (respond env glCreateProgram (world_of comp_f)) in
        let linked := both && negb (program =? 0) in
        existsb is_glCreateProgram (trace_of build) = both
        /\ existsb is_glLinkProgram (trace_of build) = linked
        /\ attached (trace_of build)
           = (if linked
              then [(program, result comp_v); (program, result comp_f)]
              else [])
        /\ result build = (if both then result link else 0)
        /\ (both = true ->
            exists before after,
              trace_of build = before ++ trace_of link ++ after))
  /\ (forall (w' : W) (vert_shader frag_shader : GLuint),
        let link := run env (init_program vert_shader frag_shader) w' in
        exists p,
          (p = 0 /\ trace_of link = [Ev glCreateProgram p]
           /\ result link = 0)
          \/ (p <> 0
              /\ exists st : bool * W * list event,
                   status_contract (glGetProgramiv p) GL_LINK_STATUS
                     (glGetProgramInfoLog p) "Program Error:" stderr st
                   /\ trace_of link
                      = [Ev glCreateProgram p;
                         Ev (glAttachShader p vert_shader) tt;
                         Ev (glAttachShader p frag_shader) tt;
                         Ev (glLinkProgram p) tt]
                        ++ trace_of st
                        ++ (if result st then []
                            else [Ev (glDeleteProgram p) tt])
                   /\ result link = (if result st then p else 0)))
  /\ (existsb compile_failed (trace_of build) = true -> result build = 0)
  /\ (existsb link_failed (trace_of build) = true -> result build = 0).
Proof.
  cbv zeta.
  set (load_v := run env (read_shader_source vert_name) w).
  set (load_f := run env (read_shader_source frag_name) (world_of load_v)).
  set (build := run env (init_program_from_files vert_name frag_name) w).
  pose proof (build_without_sources env w vert_name frag_name) as Hnone.
  cbv zeta in Hnone. fold load_v load_f build in Hnone.
  destruct gl_events as [Gcs [Gcp [Glp [Gcf Glf]]]].
  assert (Gco : forall e, is_glCompileShader e = true -> is_gl e = true).
  { intros [R c r]; destruct c; cbn; try discriminate; reflexivity. }
  pose proof (read_shader_source_no_gl env w vert_name) as Hv.
  pose proof (read_shader_source_no_gl env (world_of load_v) frag_name) as Hf.
  fold load_v in Hv. fold load_f in Hf.
  destruct (build_unfold env w vert_name frag_name) as [Hres [u1 [u2 Htr]]].
  fold load_v load_f build in Hres, Htr.
  split; [exact Hnone |].
  split.
  { intros Hcreate.
    destruct (result load_v) as [vert |] eqn:Ev_;
      destruct (result load_f) as [frag |] eqn:Ef_;
      try (split; discriminate).
    all: exfalso; destruct Hnone as [Hgl _]; [auto |].
    all: destruct Hcreate as [Hc | Hc];
      [ rewrite (existsb_weaken _ _ _ Gcs Hgl) in Hc
      | rewrite (existsb_weaken _ _ _ Gco Hgl) in Hc ]; discriminate. }
  split.
  { intros vert frag Ev_ Ef_. cbv zeta.
    rewrite Ev_, Ef_ in Hres, Htr.
    destruct (from_sources_guards env (world_of load_f) vert frag)
      as [Hp [_ [Hr _]]].
    destruct (from_sources_unfold env (world_of load_f) vert frag)
      as [_ [v1 [v2 Hin]]].
    cbv zeta in Hin.
    destruct (read_shader_source_resources env w vert_name)
      as [_ [_ [_ [_ [_ [[_ [_ [_ [_ Av]]]] _]]]]]].
    destruct (read_shader_source_resources env (world_of load_v) frag_name)
      as [_ [_ [_ [_ [_ [[_ [_ [_ [_ Af]]]] _]]]]]].
    fold load_v in Av. fold load_f in Af.
    destruct (init_shader_trace env (world_of load_f) GL_VERTEX_SHADER
                (buf_text vert)) as [_ [Lv _]].
    destruct (init_shader_resources env (world_of load_f) GL_VERTEX_SHADER
                (buf_text vert)) as [_ [_ [_ [_ [_ [_ [Atv _]]]]]]].
    set (comp_v := run env (init_shader GL_VERTEX_SHADER (buf_text vert))
                       (world_of load_f)) in *.
    destruct (init_shader_trace env (world_of comp_v) GL_FRAGMENT_SHADER
                (buf_text frag)) as [_ [Lf _]].
    destruct (init_shader_resources env (world_of comp_v) GL_FRAGMENT_SHADER
                (buf_text frag)) as [_ [_ [_ [_ [_ [_ [Atf _]]]]]]].
    set (comp_f := run env (init_shader GL_FRAGMENT_SHADER (buf_text frag))
                       (world_of comp_v)) in *.
    destruct (init_program_link env (world_of comp_f) (result comp_v)
                (result comp_f)) as [Ll La].
    set (link := run env (init_program (result comp_v) (result comp_f))
                     (world_of comp_f)) in *.
    set (program := fst (respond env glCreateProgram (world_of comp_f))) in *.
    set (both := negb (result comp_v =? 0) && negb (result comp_f =? 0)) in *.
    split.
    { rewrite Htr, !existsb_app.
      rewrite (existsb_weaken _ _ _ Gcp Hv), (existsb_weaken _ _ _ Gcp Hf).
      cbn [orb existsb is_glCreateProgram]. rewrite !orb_false_r.
      exact Hp. }
    split.
    { rewrite Htr, Hin, !existsb_app.
      rewrite (existsb_weaken _ _ _ Glp Hv), (existsb_weaken _ _ _ Glp Hf),
        Lv, Lf.
      cbn [orb existsb is_glLinkProgram]. rewrite !orb_false_r.
      destruct both; [fold link; exact Ll | reflexivity]. }
    split.
    { rewrite Htr, Hin. unfold attached in *.
      rewrite !flat_map_app, Av, Af, Atv, Atf.
      cbn [flat_map attachment app]. rewrite !app_nil_r.
      destruct both; [fold link; exact La | reflexivity]. }
    split.
    { rewrite Hres. exact Hr. }
    intros Hb. rewrite Htr, Hin. rewrite Hb. fold link.
    exists (trace_of load_v ++ trace_of load_f ++ trace_of comp_v
            ++ trace_of comp_f).
    eexists. rewrite <- !app_assoc. reflexivity. }
  split.
  { intros w' vs fs. apply init_program_contract. }
  destruct (result load_v) as [vert |] eqn:Ev_;
    destruct (result load_f) as [frag |] eqn:Ef_.
  2-4: destruct Hnone as [Hgl Hz]; [auto |];
    rewrite (existsb_weaken _ _ _ Gcf Hgl), (existsb_weaken _ _ _ Glf Hgl);
    split; intros; [exact Hz | exact Hz].
  destruct (from_sources_guards env (world_of load_f) vert frag)
    as [_ [_ [_ [Hc Hl]]]].
  rewrite Hres, Htr, !existsb_app.
  rewrite (existsb_weaken _ _ _ Gcf Hv), (existsb_weaken _ _ _ Gcf Hf).
  rewrite (existsb_weaken _ _ _ Glf Hv), (existsb_weaken _ _ _ Glf Hf).
  cbn [orb existsb compile_failed link_failed].
  rewrite !orb_false_r.
  split; [exact Hc | exact Hl].
Qed.

Lemma init_program_from_files_guards_witness :
  let ok := run sim_env (init_program_from_files "vert.glsl" "frag.glsl")
                sim_ok in
  (result ok = 7
   /\ existsb is_glCreateProgram (trace_of ok) = true
   /\ existsb is_glLinkProgram (trace_of ok) = true
   /\ attached (trace_of ok) = [(7, 5); (7, 6)])
  /\ result (run sim_env (init_program_from_files "bad.glsl" "frag.glsl")
               sim_ok) = 0
  /\ existsb is_gl
       (trace_of (run sim_env (init_program_from_files "nope.glsl" "frag.glsl")
                    sim_ok)) = false
  /\ result (run sim_env (init_program_from_files "nope.glsl" "frag.glsl")
               sim_ok) = 0
  /\ result (run sim_env (init_program_from_files "vert.glsl" "frag.glsl")
               sim_no_link) = 0.
Proof.
  cbv zeta.
  pose proof (init_program_from_files_guards sim sim_env sim_ok
                "vert.glsl" "frag.glsl") as Hok.
  pose proof (init_program_from_files_guards sim sim_env sim_ok
                "bad.glsl" "frag.glsl") as Hbad.
  pose proof (init_program_from_files_guards sim sim_env sim_ok
                "nope.glsl" "frag.glsl") as Hnope.
  pose proof (init_program_from_files_guards sim sim_env sim_no_link
                "vert.glsl" "frag.glsl") as Hlink.
  cbv zeta in Hok, Hbad, Hnope, Hlink.
  destruct Hok as [_ [_ [Hok _]]].
  destruct (Hok _ _ eq_refl eq_refl) as [Hp [Hl [Ha [Hr _]]]].
  destruct Hbad as [_ [_ [_ [_ [Hbad _]]]]].
  destruct Hnope as [Hnope _].
  destruct Hlink as [_ [_ [_ [_ [_ Hlink]]]]].
  split.
  { split; [exact Hr |]. split; [exact Hp |]. split; [exact Hl | exact Ha]. }
  split; [exact (Hbad eq_refl) |].
  split; [exact (proj1 (Hnope (or_introl eq_refl))) |].
  split; [exact (proj2 (Hnope (or_introl eq_refl))) |].
  exact (Hlink eq_refl).
Defined.

(** C3 as stated, that the link step is performed whenever both stages
    compiled: with a driver that makes no program object both shaders are
    created and compile, and then nothing is attached, no link is requested
    and no link status is read; the entry point returns 0 after no load,
    compile or link failure, and without a diagnostic. *)
Lemma link_step_without_program :
  let out := run sim_no_program
                 (init_program_from_files "vert.glsl" "frag.glsl") sim_ok in
  shaders_created (trace_of out) = [5; 6]
  /\ existsb compile_failed (trace_of out) = false
  /\ existsb is_glCreateProgram (trace_of out) = true
  /\ attached (trace_of out) = []
  /\ existsb is_glLinkProgram (trace_of out) = false
  /\ existsb link_failed (trace_of out) = false
  /\ written (trace_of out) = []
  /\ result out = 0.
Proof. cbv zeta. repeat split. Qed.

(** X20: every buffer that [calloc] returns during
    [init_program(vert_name, frag_name)] is passed to [free], once, before
    the function returns, whatever fails on the way; nothing else is freed
    but null pointers. [read_shader_source] itself frees nothing and hands
    the one buffer it allocated to its caller, and each status helper frees
    the log buffer it allocated. *)
Theorem no_buffer_leaks (W : Type) (env : Env W) (w : W) :
  (forall vert_name frag_name,
     let out := run env (init_program_from_files vert_name frag_name) w in
     Permutation (allocated (trace_of out)) (freed (trace_of out)))
  /\ (forall name,
        let out := run env (read_shader_source name) w in
        allocated (trace_of out)
        = match result out with Some b => [buf_ptr b] | None => [] end
        /\ freed (trace_of out) = [])
  /\ (forall object fp,
        let shader := run env (report_shader_status object fp) w in
        let program := run env (report_program_status object fp) w in
        allocated (trace_of shader) = freed (trace_of shader)
        /\ allocated (trace_of program) = freed (trace_of program)).
Proof.
  split; [| split].
  - intros vert_name frag_name. apply build_resources.
  - intros name.
    destruct (read_shader_source_resources env w name) as [_ [_ [Ha [Hf _]]]].
    split; assumption.
  - intros object fp. cbv zeta.
    unfold report_shader_status, report_program_status.
    split; run_all; reflexivity.
Qed.

(** X21: every stream that [fopen] returns is passed to [fclose], once:
    [read_shader_source] opens at most one stream and closes it before
    it returns; [init_program(vert_name, frag_name)] makes all its calls
    on files before its first call to the driver. *)
Theorem streams_are_closed (W : Type) (env : Env W) (w : W) :
  (forall name,
     let out := run env (read_shader_source name) w in
     opened (trace_of out) = closed (trace_of out)
     /\ (List.length (opened (trace_of out)) <= 1)%nat)
  /\ (forall vert_name frag_name,
        let out := run env (init_program_from_files vert_name frag_name) w in
        opened (trace_of out) = closed (trace_of out)
        /\ exists files rest,
             trace_of out = files ++ rest
             /\ existsb is_gl files = false
             /\ existsb is_file_call rest = false).
Proof.
  split.
  - intros name.
    destruct (read_shader_source_resources env w name) as [Ho [Hn _]].
    split; assumption.
  - intros vert_name frag_name.
    destruct (build_resources env w vert_name frag_name)
      as [_ [Ho [_ [_ [_ [_ [_ [_ Hord]]]]]]]].
    split; assumption.
Qed.

(** X22: no driver object is left behind.  Every shader object that
    [glCreateShader] returns during [init_program(vert_name, frag_name)]
    is passed to [glDeleteShader], once, before the function returns,
    also when the build succeeds; [init_shader] alone deletes the shader
    it created exactly when it returns [0].  A program object is deleted
    exactly when it is not returned: a run of either [init_program] that
    returns a nonzero handle created that program and deleted none, and a
    run that returns [0] deleted every program it created. *)
Theorem driver_objects_are_deleted (W : Type) (env : Env W) (w : W) :
  (forall vert_name frag_name,
     let out := run env (init_program_from_files vert_name frag_name) w in
     Permutation (shaders_created (trace_of out))
                 (shaders_deleted (trace_of out))
     /\ (result out <> 0 ->
         programs_created (trace_of out) = [result out]
         /\ programs_deleted (trace_of out) = [])
     /\ (result out = 0 ->
         programs_created (trace_of out) = programs_deleted (trace_of out)))
  /\ (forall type source,
        let out := run env (init_shader type source) w in
        (result out <> 0 ->
         shaders_created (trace_of out) = [result out]
         /\ shaders_deleted (trace_of out) = [])
        /\ (result out = 0 ->
            shaders_created (trace_of out) = shaders_deleted (trace_of out)))
  /\ (forall vert_shader frag_shader,
        let out := run env (init_program vert_shader frag_shader) w in
        (result out <> 0 ->
         programs_created (trace_of out) = [result out]
         /\ programs_deleted (trace_of out) = [])
        /\ (result out = 0 ->
            programs_created (trace_of out)
            = programs_deleted (trace_of out))).
Proof.
  split; [| split].
  - intros vert_name frag_name.
    destruct (build_resources env w vert_name frag_name)
      as [_ [_ [Hs [Hok [Hko _]]]]].
    split; [exact Hs |]. split; [| exact Hko].
    intros H. destruct (Hok H) as [Hc [Hd _]]. split; assumption.
  - intros type source.
    destruct (init_shader_resources env w type source)
      as [_ [_ [Hok [Hko _]]]].
    split; [| exact Hko].
    intros H. destruct (Hok H) as [Hc [Hd _]]. split; assumption.
  - intros vs fs.
    destruct (init_program_resources env w vs fs)
      as [_ [_ [_ [_ [Hok [Hko _]]]]]].
    split; [| exact Hko].
    intros H. destruct (Hok H) as [Hc [Hd _]]. split; assumption.
Qed.

(** X23: a build that succeeds is silent and complete: when
    [init_program(vert_name, frag_name)] returns a nonzero handle, nothing
    was written to any stream, no file was empty or unseekable, no
    allocation or object creation failed, no compile or link status was [0],
    exactly two shaders were created, both nonzero, and they are the two
    shaders attached, in the order vertex, fragment, to the program
    returned. In no run is the handle [0] attached or attached to. *)
Theorem successful_build (W : Type) (env : Env W) (w : W)
  (vert_name frag_name : string) :
  let out := run env (init_program_from_files vert_name frag_name) w in
  (result out <> 0 ->
   written (trace_of out) = []
   /\ existsb silent_cause (trace_of out) = false
   /\ existsb compile_failed (trace_of out) = false
   /\ existsb link_failed (trace_of out) = false
   /\ exists vs fs,
        vs <> 0 /\ fs <> 0
        /\ shaders_created (trace_of out) = [vs; fs]
        /\ attached (trace_of out) = [(result out, vs); (result out, fs)])
  /\ Forall (fun ps => fst ps <> 0 /\ snd ps <> 0) (attached (trace_of out)).
Proof.
  destruct (build_resources env w vert_name frag_name)
    as [_ [_ [_ [Hok [_ [Hat _]]]]]].
  split; [| exact Hat].
  intros H. destruct (Hok H) as [_ [_ Hrest]]. exact Hrest.
Qed.

Lemma successful_build_witness :
  let out :=
    run sim_env (init_program_from_files "vert.glsl" "frag.glsl") sim_ok in
  result out = 7
  /\ written (trace_of out) = []
  /\ existsb silent_cause (trace_of out) = false
  /\ existsb compile_failed (trace_of out) = false
  /\ existsb link_failed (trace_of out) = false
  /\ exists vs fs,
       vs <> 0 /\ fs <> 0
       /\ shaders_created (trace_of out) = [vs; fs]
       /\ attached (trace_of out) = [(result out, vs); (result out, fs)].
Proof.
  cbv zeta. split; [reflexivity |].
  apply (successful_build sim sim_env sim_ok "vert.glsl" "frag.glsl").
  intros E. vm_compute in E. discriminate E.
Defined.


(** X24: whatever is written during [init_program(vert_name, frag_name)] is
    written to [stderr], and at most two messages are. *)
Theorem diagnostics_go_to_stderr (W : Type) (env : Env W) (w : W)
  (vert_name frag_name : string) :
  let out := run env (init_program_from_files vert_name frag_name) w in
  Forall (fun t => fst t = stderr) (written (trace_of out))
  /\ (List.length (written (trace_of out)) <= 2)%nat.
Proof.
  destruct (build_resources env w vert_name frag_name)
    as [_ [_ [_ [_ [_ [_ [Hw [Hn _]]]]]]]].
  split; assumption.
Qed.

(** ** The calls of a successful run *)

Lemma read_shader_source_trace {W : Type} (env : Env W) (w : W)
  (name : string) (b : buffer) :
  let out := run env (read_shader_source name) w in
  result out = Some b ->
  exists fp t,
    trace_of out
    = [Ev (fopen name) (Some fp);
       Ev (fseek_end fp) 0;
       Ev (ftell fp) t;
       Ev (fseek_set fp) 0;
       Ev (calloc (to_size_t (to_size_t t + 1))) (Some (buf_ptr b));
       Ev (fread (buf_ptr b) (to_size_t t) fp) (buf_text b);
       Ev (fclose fp) tt]
    /\ to_size_t t <> 0.
Proof.
  cbv zeta. unfold read_shader_source.
  run_all; cbn [result fst snd]; intros Hres; try discriminate Hres.
  injection Hres as <-. destruct_units. subst.
  eexists _, _. split; [reflexivity | assumption].
Qed.

Lemma to_size_t_in_range (t : Z) :
  0 < t < 2 ^ 64 - 1 ->
  to_size_t (to_size_t t + 1) = t + 1 /\ to_size_t t = t.
Proof.
  intros Ht. unfold to_size_t.
  rewrite (Z.mod_small t) by lia. rewrite Z.mod_small by lia. now split.
Qed.

(** X25: a successful [read_shader_source] is the sequence [fopen], [fseek]
    to the end, [ftell], [fseek] to the start, [calloc], [fread], [fclose]
    on one stream: with [t] the answer of [ftell], it requests [t + 1] bytes
    and reads [t], both taken modulo [2^64]; for [0 < t < 2^64 - 1] these
    are [t + 1] and [t], one byte more requested than read. *)
Theorem read_shader_source_success (W : Type) (env : Env W) (w : W)
  (name : string) (b : buffer) :
  let out := run env (read_shader_source name) w in
  result out = Some b ->
  exists fp t,
    trace_of out
    = [Ev (fopen name) (Some fp);
       Ev (fseek_end fp) 0;
       Ev (ftell fp) t;
       Ev (fseek_set fp) 0;
       Ev (calloc (to_size_t (to_size_t t + 1))) (Some (buf_ptr b));
       Ev (fread (buf_ptr b) (to_size_t t) fp) (buf_text b);
       Ev (fclose fp) tt]
    /\ to_size_t t <> 0
    /\ (0 < t < 2 ^ 64 - 1 ->
        to_size_t (to_size_t t + 1) = t + 1 /\ to_size_t t = t).
Proof.
  cbv zeta. intros Hres.
  destruct (read_shader_source_trace env w name b Hres) as [fp [t [Htr Hn]]].
  exists fp, t. split; [exact Htr |]. split; [exact Hn |].
  apply to_size_t_in_range.
Qed.

Lemma read_shader_source_success_witness :
  result (run sim_env (read_shader_source "frag.glsl") sim_ok)
  = Some (Buffer 2 "void main() { }")
  /\ exists fp t,
       trace_of (run sim_env (read_shader_source "frag.glsl") sim_ok)
       = [Ev (fopen "frag.glsl") (Some fp);
          Ev (fseek_end fp) 0;
          Ev (ftell fp) t;
          Ev (fseek_set fp) 0;
          Ev (calloc (to_size_t (to_size_t t + 1))) (Some 2);
          Ev (fread 2 (to_size_t t) fp) "void main() { }"%string;
          Ev (fclose fp) tt]
       /\ to_size_t t <> 0
       /\ (0 < t < 2 ^ 64 - 1 ->
           to_size_t (to_size_t t + 1) = t + 1 /\ to_size_t t = t).
Proof.
  split; [reflexivity |].
  exact (read_shader_source_success sim sim_env sim_ok "frag.glsl"
           (Buffer 2 "void main() { }") eq_refl).
Defined.

Lemma ftell_event_inj (fp fp' : FILE) (t t' : Z) :
  Ev (ftell fp') t' = Ev (ftell fp) t -> fp' = fp /\ t' = t.
Proof.
  intros H.
  apply (f_equal (fun e => match e with
                           | Ev (ftell f) r => Some (f, r)
                           | _ => None
                           end)) in H.
  injection H as -> ->. now split.
Qed.

(** X26: when [ftell] fails with [-1] and the remaining calls succeed,
    [read_shader_source] requests a buffer of [0] bytes and asks [fread] for
    [2^64 - 1] bytes into it: the answer of [ftell] is converted to [size_t]
    unchecked. *)
Theorem read_shader_source_ftell_error (W : Type) (env : Env W) (w : W)
  (name : string) (b : buffer) (fp : FILE) :
  let out := run env (read_shader_source name) w in
  result out = Some b ->
  In (Ev (ftell fp) (-1)) (trace_of out) ->
  In (Ev (calloc 0) (Some (buf_ptr b))) (trace_of out)
  /\ In (Ev (fread (buf_ptr b) (2 ^ 64 - 1) fp) (buf_text b)) (trace_of out).
Proof.
  cbv zeta. intros Hres Hin.
  destruct (read_shader_source_trace env w name b Hres)
    as [fp' [t [Htr _]]].
  rewrite Htr in Hin |- *.
  assert (E : fp' = fp /\ t = -1).
  { cbn [In] in Hin.
    destruct Hin as [H | [H | [H | [H | [H | [H | [H | []]]]]]]];
      try discriminate H.
    now apply ftell_event_inj. }
  destruct E as [-> ->].
  change (to_size_t (to_size_t (-1) + 1)) with 0.
  change (to_size_t (-1)) with (2 ^ 64 - 1).
  cbn [In]. split; auto 10.
Qed.

Lemma read_shader_source_ftell_error_witness :
  result (run sim_ftell_fails (read_shader_source "frag.glsl") sim_ok)
  = Some (Buffer 2 "void main() { }")
  /\ In (Ev (ftell (stream 1)) (-1))
        (trace_of (run sim_ftell_fails (read_shader_source "frag.glsl")
                     sim_ok))
  /\ In (Ev (calloc 0) (Some 2))
        (trace_of (run sim_ftell_fails (read_shader_source "frag.glsl")
                     sim_ok))
  /\ In (Ev (fread 2 (2 ^ 64 - 1) (stream 1)) "void main() { }"%string)
        (trace_of (run sim_ftell_fails (read_shader_source "frag.glsl")
                     sim_ok)).
Proof.
  split; [reflexivity |].
  assert (Hin : In (Ev (ftell (stream 1)) (-1))
                   (trace_of (run sim_ftell_fails
                                (read_shader_source "frag.glsl") sim_ok))).
  { cbn. auto. }
  split; [exact Hin |].
  exact (read_shader_source_ftell_error sim sim_ftell_fails sim_ok
           "frag.glsl" (Buffer 2 "void main() { }") (stream 1) eq_refl Hin).
Defined.

(** X27: a run of [init_shader] that returns a nonzero handle made exactly
    these calls, in this order, on the handle [glCreateShader] returned: set
    the source, compile, query the status (not [0]) and the log length; the
    handle is the result. Likewise [init_program]: create, attach the vertex
    shader, attach the fragment shader, link, query the status and the log
    length. *)
Theorem calls_of_a_successful_compile_and_link
  (W : Type) (env : Env W) (w : W) :
  (forall type source,
     let out := run env (init_shader type source) w in
     result out <> 0 ->
     exists s n,
       s <> 0
       /\ trace_of out
          = [Ev (glCreateShader type) (result out);
             Ev (glShaderSource (result out) source) tt;
             Ev (glCompileShader (result out)) tt;
             Ev (glGetShaderiv (result out) GL_COMPILE_STATUS) s;
             Ev (glGetShaderiv (result out) GL_INFO_LOG_LENGTH) n])
  /\ (forall vert_shader frag_shader,
        let out := run env (init_program vert_shader frag_shader) w in
        result out <> 0 ->
        exists s n,
          s <> 0
          /\ trace_of out
             = [Ev glCreateProgram (result out);
                Ev (glAttachShader (result out) vert_shader) tt;
                Ev (glAttachShader (result out) frag_shader) tt;
                Ev (glLinkProgram (result out)) tt;
                Ev (glGetProgramiv (result out) GL_LINK_STATUS) s;
                Ev (glGetProgramiv (result out) GL_INFO_LOG_LENGTH) n]).
Proof.
  split.
  - intros type source. cbv zeta. unfold init_shader, report_shader_status.
    run_all; cbn [result fst snd]; intros Hres; try contradiction;
      try congruence.
    destruct_units. eexists _, _. split; [| reflexivity]. assumption.
  - intros vs fs. cbv zeta. unfold init_program, report_program_status.
    run_all; cbn [result fst snd]; intros Hres; try contradiction;
      try congruence.
    destruct_units. eexists _, _. split; [| reflexivity]. assumption.
Qed.

Lemma calls_of_a_successful_compile_and_link_witness :
  (exists s n,
     s <> 0
     /\ trace_of (run sim_env (init_shader GL_VERTEX_SHADER "void main() { }")
                    sim_ok)
        = [Ev (glCreateShader GL_VERTEX_SHADER) 1;
           Ev (glShaderSource 1 "void main() { }") tt;
           Ev (glCompileShader 1) tt;
           Ev (glGetShaderiv 1 GL_COMPILE_STATUS) s;
           Ev (glGetShaderiv 1 GL_INFO_LOG_LENGTH) n])
  /\ (exists s n,
        s <> 0
        /\ trace_of (run sim_env (init_program 5 6) sim_ok)
           = [Ev glCreateProgram 1;
              Ev (glAttachShader 1 5) tt;
              Ev (glAttachShader 1 6) tt;
              Ev (glLinkProgram 1) tt;
              Ev (glGetProgramiv 1 GL_LINK_STATUS) s;
              Ev (glGetProgramiv 1 GL_INFO_LOG_LENGTH) n]).
Proof.
  destruct (calls_of_a_successful_compile_and_link sim sim_env sim_ok)
    as [Hs Hp].
  split.
  - apply (Hs GL_VERTEX_SHADER "void main() { }"%string).
    intros E. vm_compute in E. discriminate E.
  - apply (Hp 5 6). intros E. vm_compute in E. discriminate E.
Defined.


(** X28: when neither file can be opened,
    [init_program(vert_name, frag_name)] still tries both, the vertex file
    first, prints one message for each and frees two null pointers: the
    second file is read even though the first already failed. *)
Theorem both_files_missing (W : Type) (env : Env W) (w : W)
  (vert_name frag_name : string) :
  fst (respond env (fopen vert_name) w) = None ->
  fst (respond env (fopen frag_name)
         (world_of (run env (read_shader_source vert_name) w))) = None ->
  let out := run env (init_program_from_files vert_name frag_name) w in
  result out = 0
  /\ trace_of out
     = [Ev (fopen vert_name) None;
        Ev (fprintf stderr
              ("Failed to open '" ++ vert_name ++ "'." ++ LF)%string) tt;
        Ev (fopen frag_name) None;
        Ev (fprintf stderr
              ("Failed to open '" ++ frag_name ++ "'." ++ LF)%string) tt;
        Ev (free None) tt;
        Ev (free None) tt].
Proof.
  intros Hv Hf. cbv zeta.
  destruct (build_unfold env w vert_name frag_name) as [Hres [u1 [u2 Htr]]].
  cbv zeta in Hres, Htr.
  destruct (read_shader_source_fopen_fails env w vert_name Hv) as [Rv Tv].
  set (load_v := run env (read_shader_source vert_name) w) in *.
  destruct (read_shader_source_fopen_fails env (world_of load_v) frag_name
              Hf) as [Rf Tf].
  set (load_f := run env (read_shader_source frag_name) (world_of load_v))
    in *.
  rewrite Hres, Htr, Rv, Rf, Tv, Tf. destruct_units.
  split; reflexivity.
Qed.

Lemma both_files_missing_witness :
  result (run sim_env (init_program_from_files "nope.glsl" "nada.glsl") sim_ok)
  = 0
  /\ stderr_output
       (trace_of (run sim_env (init_program_from_files "nope.glsl" "nada.glsl")
                    sim_ok))
     = [("Failed to open 'nope.glsl'." ++ LF)%string;
        ("Failed to open 'nada.glsl'." ++ LF)%string].
Proof.
  destruct (both_files_missing sim sim_env sim_ok "nope.glsl" "nada.glsl")
    as [Hres Htr]; [reflexivity | reflexivity |].
  split; [exact Hres |]. rewrite Htr. reflexivity.
Defined.

(** ** [check] *)

(** X29: [check] aborts exactly on the four errors it names, after one line
    [file:line: <error>] written to [fp]; on any other answer of
    [glGetError()], no error or an error it does not name such as
    [GL_INVALID_FRAMEBUFFER_OPERATION], it writes nothing and returns. *)
Theorem check_aborts_on_four_errors
  (file : string) (line : Z) (fp : FILE) (error : Z) :
  let run := check file line fp error in
  (check_aborted run = true
   <-> error = GL_INVALID_ENUM \/ error = GL_INVALID_VALUE
       \/ error = GL_INVALID_OPERATION \/ error = GL_OUT_OF_MEMORY)
  /\ (check_aborted run = true ->
      exists what,
        check_written run
        = [(fp, (file ++ ":" ++ decimal line ++ ": " ++ what ++ LF)%string)]
        /\ In (error, what)
              [(GL_INVALID_ENUM, "Invalid Enum"%string);
               (GL_INVALID_VALUE, "Invalid Value"%string);
               (GL_INVALID_OPERATION, "Invalid Operation"%string);
               (GL_OUT_OF_MEMORY, "Out of Memory"%string)])
  /\ (check_aborted run = false -> check_written run = [])
  /\ check file line fp GL_NO_ERROR = Check_run [] false
  /\ check file line fp GL_INVALID_FRAMEBUFFER_OPERATION = Check_run [] false.
Proof.
  cbv zeta. unfold check, check_message.
  destruct (Z.eqb_spec error GL_INVALID_ENUM) as [-> | H1];
    [| destruct (Z.eqb_spec error GL_INVALID_VALUE) as [-> | H2];
       [| destruct (Z.eqb_spec error GL_INVALID_OPERATION) as [-> | H3];
          [| destruct (Z.eqb_spec error GL_OUT_OF_MEMORY) as [-> | H4]]]];
    cbn [check_aborted check_written].
  all: split; [split; intros H | split; [intros H | split; [intros H | split]]].
  all: try reflexivity; try discriminate H; try tauto.
  all: eexists; split; [reflexivity | cbn; auto 10].
Qed.

Lemma check_aborts_on_four_errors_witness :
  check "main.cpp" 42 stderr GL_OUT_OF_MEMORY
  = Check_run [(stderr, ("main.cpp:42: Out of Memory" ++ LF)%string)] true
  /\ (check_aborted (check "main.cpp" 42 stderr GL_OUT_OF_MEMORY) = true
      <-> GL_OUT_OF_MEMORY = GL_INVALID_ENUM
          \/ GL_OUT_OF_MEMORY = GL_INVALID_VALUE
          \/ GL_OUT_OF_MEMORY = GL_INVALID_OPERATION
          \/ GL_OUT_OF_MEMORY = GL_OUT_OF_MEMORY)
  /\ check "main.cpp" 42 stderr GL_INVALID_FRAMEBUFFER_OPERATION
     = Check_run [] false.
Proof.
  destruct (check_aborts_on_four_errors "main.cpp" 42 stderr GL_OUT_OF_MEMORY)
    as [Hiff [_ [_ [_ Hfb]]]].
  split; [reflexivity |]. split; [exact Hiff | exact Hfb].
Defined.
